(** * seller-apis: reconciliation and batching of stock and price feeds

    A shallow embedding of [seller.py] (Ozon Seller) and [market.py]
    (Yandex Market): the price and quantity normalisers, the batcher
    [divide], the paginated offer listers [get_offer_ids], the reconcilers
    [create_stocks] / [create_prices] and the upload loops, followed by the
    properties of the specification that concern them.

    Python values are modelled as follows.
    - [str] is [string]: the UTF-8 bytes of the text.  The program looks
      for the ASCII characters "." and "0".."9" and compares whole
      strings, and no byte of a multi-byte UTF-8 sequence is below 128, so
      the byte view and the code point view agree on it; [int] is the one
      built-in that reads non-ASCII text, and [Py.int] decodes the bytes.
    - [int] is [Z].
    - a raised exception is [Raise e]; a function that can raise returns
      [Result].  [while True] loops are run on fuel, and [OutOfFuel] is
      the outcome of a run that was cut short; no [except] clause sees it.
    - a [list] that is mutated in place lives in a store ([heap]) and is
      passed by reference ([loc]). *)

From Stdlib Require Import ZArith String Ascii List Lia.
From stdpp Require Import gmap list.

Open Scope string_scope.
Open Scope Z_scope.
Open Scope list_scope.

(** ** Exceptions and results *)

Inductive exn : Type :=
| ValueError          (* int() of a malformed literal, range() with step 0 *)
| IndexError
| AttributeError      (* a method called on None *)
| TypeError           (* list.extend(None) *)
| JSONDecodeError     (* response.json() on a body that is not JSON *)
| BadZipFile          (* zipfile.ZipFile on something else than an archive *)
| HTTPError           (* response.raise_for_status() on a non-2xx status *)
| ConnectionError
| ReadTimeout.

Inductive Result (A : Type) : Type :=
| Ok (a : A)
| Raise (e : exn)
| OutOfFuel.

Arguments Ok {A} a.
Arguments Raise {A} e.
Arguments OutOfFuel {A}.

Definition is_ok {A} (r : Result A) : bool :=
  match r with Ok _ => true | _ => false end.

Definition Result_bind {A B} (f : A -> Result B) (r : Result A) : Result B :=
  match r with
  | Ok a => f a
  | Raise e => Raise e
  | OutOfFuel => OutOfFuel
  end.

(** ** Python built-ins used by the program *)

Module Py.

Definition is_digit (c : ascii) : bool :=
  let n := nat_of_ascii c in ((48 <=? n) && (n <=? 57))%nat.

(** The ASCII white space that [int()] skips at both ends of its
    argument: tab, line feed, vertical tab, form feed, carriage return
    and space. *)
Definition is_space (c : ascii) : bool :=
  let n := nat_of_ascii c in
  (((9 <=? n) && (n <=? 13)) || (n =? 32))%nat.

Definition digit_value (c : ascii) : Z := Z.of_nat (nat_of_ascii c) - 48.

Fixpoint lstrip (s : list ascii) : list ascii :=
  match s with
  | c :: s' => if is_space c then lstrip s' else s
  | [] => []
  end.

Definition strip (s : list ascii) : list ascii :=
  rev (lstrip (rev (lstrip s))).

(** Decimal digits, where single underscores may separate digits.
    [prev] tells whether the character just read was a digit. *)
Fixpoint digits (acc : Z) (prev : bool) (s : list ascii) : option Z :=
  match s with
  | [] => if prev then Some acc else None
  | c :: s' =>
      if is_digit c then digits (10 * acc + digit_value c) true s'
      else if (Ascii.eqb c "_" && prev)%bool then digits acc false s'
      else None
  end.

(** The code points of a text from its UTF-8 bytes; a byte that starts
    no well-formed sequence reads as U+FFFD. *)
Definition continuation (b : N) : bool := ((128 <=? b) && (b <? 192))%N.

Fixpoint decode (s : list ascii) : list N :=
  match s with
  | [] => []
  | c0 :: s1 =>
      let b0 := N_of_ascii c0 in
      if (b0 <? 128)%N then b0 :: decode s1
      else
        match s1 with
        | [] => [65533%N]
        | c1 :: s2 =>
            let b1 := N_of_ascii c1 in
            if ((194 <=? b0) && (b0 <? 224) && continuation b1)%N
            then ((b0 - 192) * 64 + (b1 - 128))%N :: decode s2
            else
              match s2 with
              | [] => 65533%N :: decode s1
              | c2 :: s3 =>
                  let b2 := N_of_ascii c2 in
                  let cp3 := ((b0 - 224) * 4096 + (b1 - 128) * 64
                              + (b2 - 128))%N in
                  if ((224 <=? b0) && (b0 <? 240) && continuation b1
                      && continuation b2 && (2048 <=? cp3)
                      && negb ((55296 <=? cp3) && (cp3 <? 57344)))%N
                  then cp3 :: decode s3
                  else
                    match s3 with
                    | [] => 65533%N :: decode s1
                    | c3 :: s4 =>
                        let b3 := N_of_ascii c3 in
                        let cp4 := ((b0 - 240) * 262144 + (b1 - 128) * 4096
                                    + (b2 - 128) * 64 + (b3 - 128))%N in
                        if ((240 <=? b0) && (b0 <? 245) && continuation b1
                            && continuation b2 && continuation b3
                            && (65536 <=? cp4) && (cp4 <? 1114112))%N
                        then cp4 :: decode s4
                        else 65533%N :: decode s1
                    end
              end
        end
  end.

(** The code points from U+007F on for which [str.isspace] holds. *)
Definition unicode_spaces : list N :=
  [133; 160; 5760; 8192; 8193; 8194; 8195; 8196; 8197; 8198; 8199; 8200;
   8201; 8202; 8232; 8233; 8239; 8287; 12288]%N.

(** The code points of the digit zero of every script of Unicode 14.0,
    the edition of CPython 3.11; the nine code points after each are
    its digits one to nine. *)
Definition unicode_zeros : list N :=
  [48; 1632; 1776; 1984; 2406; 2534; 2662; 2790; 2918; 3046; 3174; 3302;
   3430; 3558; 3664; 3792; 3872; 4160; 4240; 6112; 6160; 6470; 6608; 6784;
   6800; 6992; 7088; 7232; 7248; 42528; 43216; 43264; 43472; 43504; 43600;
   44016; 65296; 66720; 68912; 69734; 69872; 69942; 70096; 70384; 70736;
   70864; 71248; 71360; 71472; 71904; 72016; 72784; 73040; 73120; 92768;
   92864; 93008; 120782; 120792; 120802; 120812; 120822; 123200; 123632;
   125264; 130032]%N.

Definition unicode_space (cp : N) : bool :=
  existsb (N.eqb cp) unicode_spaces.

(** The decimal value of a code point that is a digit of some script. *)
Definition unicode_decimal (cp : N) : option N :=
  match List.find (fun zero => (zero <=? cp) && (cp <? zero + 10))%N
                  unicode_zeros with
  | Some zero => Some (cp - zero)%N
  | None => None
  end.

(** What [int()] makes of a code point before it parses: below U+007F it
    stays, a space becomes " ", a digit of any script the ASCII digit of
    its value, and anything else "?", which no number has. *)
Definition to_ascii (cp : N) : ascii :=
  if (cp <? 127)%N then ascii_of_N cp
  else if unicode_space cp then " "%char
  else match unicode_decimal cp with
       | Some d => ascii_of_N (48 + d)
       | None => "?"%char
       end.

(** CPython cuts the text after its first "?"; what follows one makes
    no difference to what [int] returns, so all of it is kept here. *)
Definition ascii_form (s : string) : list ascii :=
  map to_ascii (decode (list_ascii_of_string s)).

(** [sys.get_int_max_str_digits()], which the program leaves at the
    default of the interpreter. *)
Definition int_max_str_digits : nat := 4300.

(** [int(s)] for a [str] argument, base 10: the text is brought to its
    ASCII form; then come white space, an optional sign, digits, white
    space.  A number of more than [int_max_str_digits] digits is
    refused. *)
Definition int (s : string) : Result Z :=
  let body := strip (ascii_form s) in
  let parsed :=
    match body with
    | "+"%char :: r => digits 0 false r
    | "-"%char :: r => Z.opp <$> digits 0 false r
    | _ => digits 0 false body
    end in
  match parsed with
  | Some z =>
      if (length (List.filter is_digit body) <=? int_max_str_digits)%nat
      then Ok z else Raise ValueError
  | None => Raise ValueError
  end.

(** [s.split(sep)] for a one-character separator: the pieces between
    the separators, never an empty list. *)
Fixpoint split (sep : ascii) (s : string) : list string :=
  match s with
  | EmptyString => [EmptyString]
  | String c s' =>
      if Ascii.eqb c sep then EmptyString :: split sep s'
      else match split sep s' with
           | p :: ps => String c p :: ps
           | [] => [String c EmptyString]
           end
  end.

(** [l[0]] *)
Definition item0 {A} (l : list A) : Result A :=
  match l with
  | x :: _ => Ok x
  | [] => Raise IndexError
  end.

(** [re.sub("[^0-9]", "", s)]: every character outside the class
    "0".."9" is replaced by the empty string. *)
Fixpoint re_sub_non_digit (s : string) : string :=
  match s with
  | EmptyString => EmptyString
  | String c s' =>
      if is_digit c then String c (re_sub_non_digit s')
      else re_sub_non_digit s'
  end.

(** [x in l] for a list of strings *)
Definition contains (x : string) (l : list string) : bool :=
  existsb (String.eqb x) l.

(** [l.remove(x)]: the list without the first element equal to [x];
    raises [ValueError] when there is none. *)
Fixpoint remove_first (x : string) (l : list string) : option (list string) :=
  match l with
  | [] => None
  | y :: l' =>
      if String.eqb y x then Some l'
      else cons y <$> remove_first x l'
  end.

Definition clamp (i len : Z) : Z :=
  if i <? 0 then Z.max 0 (i + len) else Z.min i len.

(** [l[i:j]] *)
Definition slice {A} (l : list A) (i j : Z) : list A :=
  let len := Z.of_nat (length l) in
  let a := clamp i len in
  let b := clamp j len in
  take (Z.to_nat (b - a)) (drop (Z.to_nat a) l).

(** [range(start, stop, step)]: the number of elements is computed as
    the interpreter does, and step 0 is refused. *)
Definition range_len (start stop step : Z) : Z :=
  if 0 <? step then
    (if start <? stop then (stop - start - 1) / step + 1 else 0)
  else
    (if stop <? start then (start - stop - 1) / (- step) + 1 else 0).

Definition range (start stop step : Z) : Result (list Z) :=
  if step =? 0 then Raise ValueError
  else Ok (map (fun k => start + Z.of_nat k * step)
               (seq 0 (Z.to_nat (range_len start stop step)))).

End Py.

(** ** [seller.price_conversion] *)

Definition price_conversion (price : string) : Result string :=
  Result_bind (fun prefix => Ok (Py.re_sub_non_digit prefix))
              (Py.item0 (Py.split "." price)).

(** The quantity branch of [create_stocks] (seller.py 183-189,
    market.py 168-174): [">10"] is 100, ["1"] is 0, anything else goes
    through [int]. *)
Definition stock_of_count (count : string) : Result Z :=
  if String.eqb count ">10" then Ok 100
  else if String.eqb count "1" then Ok 0
  else Py.int count.


(** ** [seller.divide] *)

(** The generator is modelled by the list of everything it yields; an
    exception raised while it is iterated is the [Raise] result. *)
Definition divide {A} (lst : list A) (n : Z) : Result (list (list A)) :=
  Result_bind (fun idx => Ok (map (fun i => Py.slice lst i (i + n)) idx))
              (Py.range 0 (Z.of_nat (length lst)) n).


(** ** Data *)

(** A row of the spreadsheet: [watch_remnants] holds one dict per row.
    The three cells the program reads are kept as text, on which [str]
    is the identity. *)
Record Watch : Type := {
  Код : string;
  Количество : string;
  Цена : string;
}.

(** Payloads of the Ozon Seller API ([seller.py]). *)
Module Ozon.
Module Product.
Record t : Type := { offer_id : string }.
End Product.
Module Stock.
Record t : Type := { offer_id : string; stock : Z }.
End Stock.
Module Price.
Record t : Type := {
  auto_action_enabled : string;
  currency_code : string;
  offer_id : string;
  old_price : string;
  price : string;
}.
End Price.
(** The "result" object of /v2/product/list. *)
Record Page : Type := {
  items : list Product.t;
  total : option Z;
  last_id : string;
}.
End Ozon.

(** Payloads of the Yandex Market API ([market.py]). *)
Module Yandex.
Module Offer.
Record t : Type := { shopSku : string }.
End Offer.
Module Entry.
Record t : Type := { offer : Offer.t }.
End Entry.
Module Item.
Record t : Type := { count : Z; type : string; updatedAt : string }.
End Item.
Module Stock.
Record t : Type := { sku : string; warehouseId : string; items : list Item.t }.
End Stock.
Module Money.
Record t : Type := { value : Z; currencyId : string }.
End Money.
Module Price.
Record t : Type := { id : string; price : Money.t }.
End Price.
Record Paging : Type := { nextPageToken : option string }.
(** The "result" object of offer-mapping-entries. *)
Record Page : Type := {
  offerMappingEntries : list Entry.t;
  paging : Paging;
}.
End Yandex.

(** ** The outside world *)

Inductive Request : Type :=
| OzonProductList (client_id api_key last_id : string)
| OzonImportPrices (client_id api_key : string) (prices : list Ozon.Price.t)
| OzonImportStocks (client_id api_key : string) (stocks : list Ozon.Stock.t)
| YandexOfferMappingEntries (campaign_id access_token page_token : string)
| YandexPutStocks (campaign_id access_token : string) (skus : list Yandex.Stock.t)
| YandexPostPrices (campaign_id access_token : string) (offers : list Yandex.Price.t)
| TimeworldOstatki.

(** The bodies of 2xx responses.  Three are JSON objects with a
    "result" object in them: the Ozon listing, the Yandex listing, and a
    Yandex listing that lacks its "paging".  [Json] is any other JSON
    object, one without "result".  The last two are not JSON: the archive
    of the feed, and any other text. *)
Inductive Body : Type :=
| OzonResult (result : Ozon.Page)
| YandexResult (result : Yandex.Page)
| YandexEntries (offerMappingEntries : list Yandex.Entry.t)
| Json
| Xls (rows : list Watch)
| Text.

(** [response.json()] *)
Definition response_json (body : Body) : Result Body :=
  match body with
  | Xls _ | Text => Raise JSONDecodeError
  | _ => Ok body
  end.

(** [response_object.get("result")]; [None] is Python's [None]. *)
Definition get_result (response_object : Body) : option Body :=
  match response_object with
  | OzonResult _ | YandexResult _ | YandexEntries _ => Some response_object
  | _ => None
  end.

(** What a request comes back with: a 2xx response with its body, or an
    exception ([HTTPError] from [raise_for_status] on any other status,
    [ConnectionError] and [ReadTimeout] from the transport). *)
Inductive Response : Type :=
| Reply (body : Body)
| Fails (e : exn).

(** The servers answer a request knowing all requests made before it. *)
Record World : Type := {
  server : list Request -> Request -> Response;
  utcnow : string;            (* the clock, already in ISO format *)
}.

Definition loc := nat.

Record State : Type := {
  heap : gmap loc (list string);   (* the lists of offer ids *)
  sent : list Request;             (* every request made so far *)
  stdout : list (option exn * string);
}.

Definition set_heap (h : gmap loc (list string)) (σ : State) : State :=
  {| heap := h; sent := sent σ; stdout := stdout σ |}.

Definition add_sent (rs : list Request) (σ : State) : State :=
  {| heap := heap σ; sent := sent σ ++ rs; stdout := stdout σ |}.

Definition add_stdout (line : option exn * string) (σ : State) : State :=
  {| heap := heap σ; sent := sent σ; stdout := stdout σ ++ [line] |}.

(** ** Programs: a reader, state and exception monad *)

Definition Prog (A : Type) : Type := World -> State -> Result A * State.

#[global] Instance Prog_ret : MRet Prog := fun A a _ σ => (Ok a, σ).

#[global] Instance Prog_bind : MBind Prog := fun A B f m w σ =>
  match m w σ with
  | (Ok a, σ') => f a w σ'
  | (Raise e, σ') => (Raise e, σ')
  | (OutOfFuel, σ') => (OutOfFuel, σ')
  end.

Definition raise {A} (e : exn) : Prog A := fun _ σ => (Raise e, σ).

Definition out_of_fuel {A} : Prog A := fun _ σ => (OutOfFuel, σ).

Definition lift {A} (r : Result A) : Prog A := fun _ σ => (r, σ).

(** [try: body except Exception as error: handler(error)] *)
Definition try_except {A} (body : Prog A) (handler : exn -> Prog A) : Prog A :=
  fun w σ =>
    match body w σ with
    | (Raise e, σ') => handler e w σ'
    | r => r
    end.

(** The list behind a reference; references come from [new_list] only,
    and one that was never allocated reads as the empty list. *)
Definition load (l : loc) : Prog (list string) :=
  fun _ σ => (Ok (default [] (heap σ !! l)), σ).

Definition store (l : loc) (v : list string) : Prog unit :=
  fun _ σ => (Ok tt, set_heap (<[l := v]> (heap σ)) σ).

(** A new list object *)
Definition new_list (v : list string) : Prog loc :=
  fun _ σ =>
    let l := fresh (dom (heap σ)) in
    (Ok l, set_heap (<[l := v]> (heap σ)) σ).

(** [x in offer_ids] *)
Definition list_contains (l : loc) (x : string) : Prog bool :=
  v ← load l; mret (Py.contains x v).

(** [offer_ids.remove(x)] *)
Definition list_remove (l : loc) (x : string) : Prog unit :=
  v ← load l;
  match Py.remove_first x v with
  | Some v' => store l v'
  | None => raise ValueError
  end.

(** A request followed by [response.raise_for_status()]. *)
Definition http (r : Request) : Prog Body :=
  fun w σ =>
    match server w (sent σ) r with
    | Reply b => (Ok b, add_sent [r] σ)
    | Fails e => (Raise e, add_sent [r] σ)
    end.

Definition now : Prog string := fun w σ => (Ok (utcnow w), σ).

Definition print (e : option exn) (text : string) : Prog unit :=
  fun _ σ => (Ok tt, add_stdout (e, text) σ).

(** [for x in l: body(x)] *)
Fixpoint for_each {A} (body : A -> Prog unit) (l : list A) : Prog unit :=
  match l with
  | [] => mret tt
  | x :: l' => _ ← body x; for_each body l'
  end.

(** [for x in l: acc = body(acc, x)] *)
Fixpoint fold_each {A B} (body : B -> A -> Prog B) (acc : B) (l : list A) : Prog B :=
  match l with
  | [] => mret acc
  | x :: l' => acc' ← body acc x; fold_each body acc' l'
  end.

(** ** The reconciliation loop shared by both files *)

Section Reconcile.
Context {R : Type}.
(** The record appended for an offer id and a stock count: the two
    [create_stocks] differ in it, and in nothing else but the clock that
    [market.py] reads before its loop. *)
Variable record : string -> Z -> R.

(** The body of [for watch in watch_remnants:] *)
Definition match_watch (offer_ids : loc) (stocks : list R) (watch : Watch)
  : Prog (list R) :=
  found ← list_contains offer_ids (Код watch);
  if (found : bool) then
    stock ← lift (stock_of_count (Количество watch));
    let stocks := stocks ++ [record (Код watch) stock] in
    _ ← list_remove offer_ids (Код watch);
    mret stocks
  else mret stocks.

Definition create_stocks_with (watch_remnants : list Watch) (offer_ids : loc)
  : Prog (list R) :=
  stocks ← fold_each (match_watch offer_ids) [] watch_remnants;
  rest ← load offer_ids;
  mret (stocks ++ map (fun offer_id => record offer_id 0) rest).
End Reconcile.

(** ** seller.py *)

Module Seller.
Import Ozon.

Definition get_product_list (last_id client_id seller_token : string)
  : Prog (option Body) :=
  response ← http (OzonProductList client_id seller_token last_id);
  response_object ← lift (response_json response);
  mret (get_result response_object).

(** The [while True] loop of [get_offer_ids], on fuel. *)
Fixpoint get_offer_ids_loop (fuel : nat) (client_id seller_token : string)
    (last_id : string) (product_list : list Product.t)
  : Prog (list Product.t) :=
  match fuel with
  | O => out_of_fuel
  | S fuel' =>
      some_prod ← get_product_list last_id client_id seller_token;
      match some_prod with
      | None => raise AttributeError          (* None.get("items") *)
      | Some (OzonResult some_prod) =>
          let product_list := product_list ++ Ozon.items some_prod in
          let total := Ozon.total some_prod in
          let last_id := Ozon.last_id some_prod in
          if decide (total = Some (Z.of_nat (length product_list)))
          then mret product_list
          else get_offer_ids_loop fuel' client_id seller_token
                                  last_id product_list
      | Some _ => raise TypeError             (* extend(None): no "items" *)
      end
  end.

Definition get_offer_ids (fuel : nat) (client_id seller_token : string)
  : Prog loc :=
  product_list ← get_offer_ids_loop fuel client_id seller_token "" [];
  new_list (map Product.offer_id product_list).

Definition update_price (prices : list Price.t)
    (client_id seller_token : string) : Prog Body :=
  response ← http (OzonImportPrices client_id seller_token prices);
  lift (response_json response).

Definition update_stocks (stocks : list Stock.t)
    (client_id seller_token : string) : Prog Body :=
  response ← http (OzonImportStocks client_id seller_token stocks);
  lift (response_json response).

Definition download_stock : Prog (list Watch) :=
  archive ← http TimeworldOstatki;
  match archive with
  | Xls watch_remnants => mret watch_remnants
  | _ => raise BadZipFile
  end.

Definition create_stocks (watch_remnants : list Watch) (offer_ids : loc)
  : Prog (list Stock.t) :=
  create_stocks_with
    (fun offer_id stock => {| Stock.offer_id := offer_id; Stock.stock := stock |})
    watch_remnants offer_ids.

(** The body of [for watch in watch_remnants:] in [create_prices] *)
Definition price_watch (offer_ids : loc) (prices : list Price.t)
    (watch : Watch) : Prog (list Price.t) :=
  found ← list_contains offer_ids (Код watch);
  if (found : bool) then
    converted ← lift (price_conversion (Цена watch));
    mret (prices ++ [ {| Price.auto_action_enabled := "UNKNOWN";
                         Price.currency_code := "RUB";
                         Price.offer_id := Код watch;
                         Price.old_price := "0";
                         Price.price := converted |} ])
  else mret prices.

Definition create_prices (watch_remnants : list Watch) (offer_ids : loc)
  : Prog (list Price.t) :=
  fold_each (price_watch offer_ids) [] watch_remnants.

(** [upload_prices], the size 1000 of its batches being [n]. *)
Definition upload_prices_by (n : Z) (fuel : nat) (watch_remnants : list Watch)
    (client_id seller_token : string) : Prog (list Price.t) :=
  offer_ids ← get_offer_ids fuel client_id seller_token;
  prices ← create_prices watch_remnants offer_ids;
  batches ← lift (divide prices n);
  _ ← for_each (fun some_price =>
                  _ ← update_price some_price client_id seller_token; mret tt)
               batches;
  mret prices.

Definition upload_prices := upload_prices_by 1000.

(** Lines 314-315 of [upload_stocks]: the reconciled stock list. *)
Definition reconciled_stocks (fuel : nat) (watch_remnants : list Watch)
    (client_id seller_token : string) : Prog (list Stock.t) :=
  offer_ids ← get_offer_ids fuel client_id seller_token;
  create_stocks watch_remnants offer_ids.

(** [upload_stocks], the size 100 of its batches being [n]. *)
Definition upload_stocks_by (n : Z) (fuel : nat) (watch_remnants : list Watch)
    (client_id seller_token : string) : Prog (list Stock.t * list Stock.t) :=
  stocks ← reconciled_stocks fuel watch_remnants client_id seller_token;
  batches ← lift (divide stocks n);
  _ ← for_each (fun some_stock =>
                  _ ← update_stocks some_stock client_id seller_token; mret tt)
               batches;
  let not_empty := filter (fun stock => Stock.stock stock ≠ 0) stocks in
  mret (not_empty, stocks).

Definition upload_stocks := upload_stocks_by 100.

(** The [try] block of [main] up to line 344, with the value of its
    local [prices] (and of [offer_ids] and [watch_remnants]). *)
Definition main_prices (fuel : nat) (client_id seller_token : string)
  : Prog (loc * list Watch * list Price.t) :=
  offer_ids ← get_offer_ids fuel client_id seller_token;
  watch_remnants ← download_stock;
  stocks ← create_stocks watch_remnants offer_ids;
  batches ← lift (divide stocks 100);
  _ ← for_each (fun some_stock =>
                  _ ← update_stocks some_stock client_id seller_token; mret tt)
               batches;
  prices ← create_prices watch_remnants offer_ids;
  mret (offer_ids, watch_remnants, prices).

(** [main]; the two environment variables are its arguments. *)
Definition main (fuel : nat) (client_id seller_token : string) : Prog unit :=
  try_except
    ('(_, _, prices) ← main_prices fuel client_id seller_token;
     batches ← lift (divide prices 900);
     for_each (fun some_price =>
                 _ ← update_price some_price client_id seller_token; mret tt)
              batches)
    (fun error =>
       match error with
       | ReadTimeout => print None "Превышено время ожидания..."
       | ConnectionError => print (Some error) "Ошибка соединения"
       | _ => print (Some error) "ERROR_2"
       end).
End Seller.

(** ** market.py *)

Module Market.
Import Yandex.

Definition get_product_list (page campaign_id access_token : string)
  : Prog (option Body) :=
  response ← http (YandexOfferMappingEntries campaign_id access_token page);
  response_object ← lift (response_json response);
  mret (get_result response_object).

Definition update_stocks (stocks : list Stock.t)
    (campaign_id access_token : string) : Prog Body :=
  response ← http (YandexPutStocks campaign_id access_token stocks);
  lift (response_json response).

Definition update_price (prices : list Price.t)
    (campaign_id access_token : string) : Prog Body :=
  response ← http (YandexPostPrices campaign_id access_token prices);
  lift (response_json response).

(** [not page] for the token read from the response *)
Definition falsy (page : option string) : bool :=
  match page with
  | None => true
  | Some s => String.eqb s ""
  end.

(** The [while True] loop of [get_offer_ids], on fuel. *)
Fixpoint get_offer_ids_loop (fuel : nat) (campaign_id market_token : string)
    (page : string) (product_list : list Entry.t)
  : Prog (list Entry.t) :=
  match fuel with
  | O => out_of_fuel
  | S fuel' =>
      some_prod ← get_product_list page campaign_id market_token;
      match some_prod with
      | None => raise AttributeError          (* None.get(...) *)
      | Some (YandexResult some_prod) =>
          let product_list := product_list ++ offerMappingEntries some_prod in
          let page := nextPageToken (paging some_prod) in
          if falsy page then mret product_list
          else get_offer_ids_loop fuel' campaign_id market_token
                                  (default "" page) product_list
      | Some (YandexEntries _) =>
          raise AttributeError                (* None.get("nextPageToken") *)
      | Some _ => raise TypeError             (* extend(None): no entries *)
      end
  end.

Definition get_offer_ids (fuel : nat) (campaign_id market_token : string)
  : Prog loc :=
  product_list ← get_offer_ids_loop fuel campaign_id market_token "" [];
  new_list (map (fun product => Offer.shopSku (Entry.offer product)) product_list).

Definition create_stocks (watch_remnants : list Watch) (offer_ids : loc)
    (warehouse_id : string) : Prog (list Stock.t) :=
  date ← now;
  create_stocks_with
    (fun offer_id stock =>
       {| Stock.sku := offer_id;
          Stock.warehouseId := warehouse_id;
          Stock.items := [ {| Item.count := stock;
                              Item.type := "FIT";
                              Item.updatedAt := date |} ] |})
    watch_remnants offer_ids.

(** The body of [for watch in watch_remnants:] in [create_prices] *)
Definition price_watch (offer_ids : loc) (prices : list Price.t)
    (watch : Watch) : Prog (list Price.t) :=
  found ← list_contains offer_ids (Код watch);
  if (found : bool) then
    converted ← lift (price_conversion (Цена watch));
    value ← lift (Py.int converted);
    mret (prices ++ [ {| Price.id := Код watch;
                         Price.price := {| Money.value := value;
                                           Money.currencyId := "RUR" |} |} ])
  else mret prices.

Definition create_prices (watch_remnants : list Watch) (offer_ids : loc)
  : Prog (list Price.t) :=
  fold_each (price_watch offer_ids) [] watch_remnants.

(** [upload_prices], the size 500 of its batches being [n]. *)
Definition upload_prices_by (n : Z) (fuel : nat) (watch_remnants : list Watch)
    (campaign_id market_token : string) : Prog (list Price.t) :=
  offer_ids ← get_offer_ids fuel campaign_id market_token;
  prices ← create_prices watch_remnants offer_ids;
  batches ← lift (divide prices n);
  _ ← for_each (fun some_prices =>
                  _ ← update_price some_prices campaign_id market_token; mret tt)
               batches;
  mret prices.

Definition upload_prices := upload_prices_by 500.

(** [list(filter(lambda stock: stock.get("items")[0].get("count") != 0, stocks))] *)
Fixpoint not_empty_stocks (stocks : list Stock.t) : Result (list Stock.t) :=
  match stocks with
  | [] => Ok []
  | stock :: stocks' =>
      Result_bind
        (fun item =>
           Result_bind
             (fun rest => Ok (if decide (Item.count item ≠ 0)
                              then stock :: rest else rest))
             (not_empty_stocks stocks'))
        (Py.item0 (Stock.items stock))
  end.

(** [upload_stocks], the size 2000 of its batches being [n]. *)
Definition upload_stocks_by (n : Z) (fuel : nat) (watch_remnants : list Watch)
    (campaign_id market_token warehouse_id : string)
  : Prog (list Stock.t * list Stock.t) :=
  offer_ids ← get_offer_ids fuel campaign_id market_token;
  stocks ← create_stocks watch_remnants offer_ids warehouse_id;
  batches ← lift (divide stocks n);
  _ ← for_each (fun some_stock =>
                  _ ← update_stocks some_stock campaign_id market_token; mret tt)
               batches;
  not_empty ← lift (not_empty_stocks stocks);
  mret (not_empty, stocks).

Definition upload_stocks := upload_stocks_by 2000.

(** A call of an [async def] function that is not awaited: the call
    builds the coroutine object and runs nothing of its body. *)
Definition unawaited {A} (coroutine : Prog A) : Prog unit := mret tt.

(** The [try] block of [main] for one campaign (lines 312-316, and again
    317-321). *)
Definition main_campaign (fuel : nat) (watch_remnants : list Watch)
    (campaign_id market_token warehouse_id : string) : Prog unit :=
  offer_ids ← get_offer_ids fuel campaign_id market_token;
  stocks ← create_stocks watch_remnants offer_ids warehouse_id;
  batches ← lift (divide stocks 2000);
  _ ← for_each (fun some_stock =>
                  _ ← update_stocks some_stock campaign_id market_token; mret tt)
               batches;
  unawaited (upload_prices fuel watch_remnants campaign_id market_token).

(** [main]; the five environment variables are its arguments. *)
Definition main (fuel : nat) (market_token campaign_fbs_id campaign_dbs_id
    warehouse_fbs_id warehouse_dbs_id : string) : Prog unit :=
  watch_remnants ← Seller.download_stock;
  try_except
    (_ ← main_campaign fuel watch_remnants campaign_fbs_id market_token
           warehouse_fbs_id;
     main_campaign fuel watch_remnants campaign_dbs_id market_token
       warehouse_dbs_id)
    (fun error =>
       match error with
       | ReadTimeout => print None "Превышено время ожидания..."
       | ConnectionError => print (Some error) "Ошибка соединения"
       | _ => print (Some error) "ERROR_2"
       end).
End Market.

(** ** Definitions used to state the properties *)

(** The characters of a token before its first ".", as the specification
    of the price normaliser words it. *)
Fixpoint before_first_dot (s : list ascii) : list ascii :=
  match s with
  | [] => []
  | c :: s' => if Ascii.eqb c "." then [] else c :: before_first_dot s'
  end.

(** The price normaliser in the words of the specification: truncate at
    the first ".", then drop every character that is not an ASCII digit. *)
Definition normalize_price_spec (token : string) : string :=
  string_of_list_ascii
    (List.filter Py.is_digit (before_first_dot (list_ascii_of_string token))).

Definition no_digit_before_dot (token : string) : bool :=
  forallb (fun c => negb (Py.is_digit c))
          (before_first_dot (list_ascii_of_string token)).

(** The value of a run of decimal digits read from the left. *)
Definition decimal_value (ds : list ascii) : Z :=
  fold_left (fun acc c => 10 * acc + Py.digit_value c) ds 0.

(** The slices of [lst] of [k] elements each, [k] being positive. *)
Definition chunks {A} (lst : list A) (k : nat) : list (list A) :=
  map (fun j => take k (drop (j * k) lst))
      (seq 0 (Z.to_nat ((Z.of_nat (length lst) + Z.of_nat k - 1) / Z.of_nat k))).

(** The rows of the feed that find their code in the list of offers, each
    one taking one occurrence of it, and the offers left in the end. *)
Fixpoint matched (rows : list Watch) (offers : list string) : list Watch :=
  match rows with
  | [] => []
  | row :: rows' =>
      match Py.remove_first (Код row) offers with
      | Some offers' => row :: matched rows' offers'
      | None => matched rows' offers
      end
  end.

Fixpoint remaining (rows : list Watch) (offers : list string) : list string :=
  match rows with
  | [] => offers
  | row :: rows' =>
      match Py.remove_first (Код row) offers with
      | Some offers' => remaining rows' offers'
      | None => remaining rows' offers
      end
  end.

(** The stock counts of some rows, or the first exception on the way. *)
Fixpoint counts_of (rows : list Watch) : Result (list (string * Z)) :=
  match rows with
  | [] => Ok []
  | row :: rows' =>
      Result_bind
        (fun stock =>
           Result_bind (fun rest => Ok ((Код row, stock) :: rest))
                       (counts_of rows'))
        (stock_of_count (Количество row))
  end.

(** The price record [seller.create_prices] builds for a row. *)
Definition price_of (row : Watch) : Ozon.Price.t :=
  {| Ozon.Price.auto_action_enabled := "UNKNOWN";
     Ozon.Price.currency_code := "RUB";
     Ozon.Price.offer_id := Код row;
     Ozon.Price.old_price := "0";
     Ozon.Price.price := normalize_price_spec (Цена row) |}.

(** How often a code occurs in a list of codes. *)
Definition occurrences (c : string) (l : list string) : nat :=
  length (List.filter (String.eqb c) l).

(** [stock.get("items")[0].get("count")], the count of a Yandex stock
    record as [market.upload_stocks] reads it. *)
Definition yandex_count (stock : Yandex.Stock.t) : Z :=
  match Yandex.Stock.items stock with
  | item :: _ => Yandex.Item.count item
  | [] => 0
  end.

(** Completeness of a stock list for the feed [rows] and the known
    offers [K]: one record per known offer, occurrence for occurrence;
    every record is a zero or carries the count of a row with its code;
    and an offer the feed mentions carries the count of the first row
    with its code. *)
Definition reconciles {R} (id_of : R -> string) (count_of : R -> Z)
    (rows : list Watch) (K : list string) (stocks : list R) : Prop :=
  length stocks = length K
  ∧ map id_of stocks ≡ₚ K
  ∧ Forall (fun r => count_of r = 0
                     ∨ ∃ row, row ∈ rows ∧ Код row = id_of r
                              ∧ stock_of_count (Количество row) = Ok (count_of r))
           stocks
  ∧ (∀ pre row post,
       rows = pre ++ row :: post → Код row ∈ K → Код row ∉ map Код pre →
       ∃ r, r ∈ stocks ∧ id_of r = Код row
            ∧ stock_of_count (Количество row) = Ok (count_of r)).

(** Every quantity token of the feed is one the normaliser accepts. *)
Definition quantities_parse (rows : list Watch) : Prop :=
  Forall (fun row => is_ok (stock_of_count (Количество row)) = true) rows.

(** ** Page sequences *)

(** The server answers the requests [rs], made one after the other on
    top of the history [h], with the bodies [bs]. *)
Fixpoint answers (w : World) (h : list Request) (rs : list Request)
    (bs : list Body) : Prop :=
  match rs, bs with
  | [], [] => True
  | r :: rs', b :: bs' => server w h r = Reply b ∧ answers w (h ++ [r]) rs' bs'
  | _, _ => False
  end.

(** The requests by which the pages [ps] are fetched: each carries the
    cursor that the page before it gave. *)
Fixpoint seller_requests (client_id seller_token last_id : string)
    (ps : list Ozon.Page) : list Request :=
  match ps with
  | [] => []
  | p :: ps' =>
      OzonProductList client_id seller_token last_id
      :: seller_requests client_id seller_token (Ozon.last_id p) ps'
  end.

Fixpoint market_requests (campaign_id market_token page : string)
    (ps : list Yandex.Page) : list Request :=
  match ps with
  | [] => []
  | p :: ps' =>
      YandexOfferMappingEntries campaign_id market_token page
      :: market_requests campaign_id market_token
           (default "" (Yandex.nextPageToken (Yandex.paging p))) ps'
  end.

(** The entries accumulated after page [k]. *)
Definition seller_entries (ps : list Ozon.Page) (k : nat) : list Ozon.Product.t :=
  concat (map Ozon.items (take (S k) ps)).

Definition market_entries (ps : list Yandex.Page) (k : nat) : list Yandex.Entry.t :=
  concat (map Yandex.offerMappingEntries (take (S k) ps)).

(** Page [k] signals the end: in the seller variant its total is the
    number of entries accumulated after it, in the market variant it has
    no next-page token, or an empty one. *)
Definition seller_ends (ps : list Ozon.Page) (k : nat) : bool :=
  match ps !! k with
  | Some p =>
      bool_decide (Ozon.total p = Some (Z.of_nat (length (seller_entries ps k))))
  | None => false
  end.

Definition market_ends (ps : list Yandex.Page) (k : nat) : bool :=
  match ps !! k with
  | Some p =>
      match Yandex.nextPageToken (Yandex.paging p) with
      | None => true
      | Some token => bool_decide (token = "")
      end
  | None => false
  end.

(** ** Concrete worlds, for examples *)

Definition empty_state : State := {| heap := ∅; sent := []; stdout := [] |}.

Definition feed_row (code count price : string) : Watch :=
  {| Код := code; Количество := count; Цена := price |}.

(** The feed of the docstring of [create_stocks]. *)
Definition docstring_feed : list Watch :=
  [ feed_row "123-ABC" "5" "5'990.00 руб.";
    feed_row "456-DEF" ">10" "10'000.50 руб." ].

(** A state in which the list at reference 0 holds the given offers. *)
Definition offers_at_0 (offers : list string) : State :=
  {| heap := {[ 0%nat := offers ]}; sent := []; stdout := [] |}.

(** A seller catalog that lists the offer "123-ABC" twice on its only
    page, a feed with one row for it, and servers that accept every
    update. *)
Definition twice_listed : World :=
  {| server := fun _ request =>
       match request with
       | OzonProductList _ _ _ =>
           Reply (OzonResult
                    {| Ozon.items := [ {| Ozon.Product.offer_id := "123-ABC" |};
                                       {| Ozon.Product.offer_id := "123-ABC" |} ];
                       Ozon.total := Some 2;
                       Ozon.last_id := "" |})
       | TimeworldOstatki =>
           Reply (Xls [ feed_row "123-ABC" "5" "5'990.00 руб." ])
       | _ => Reply Json
       end;
     utcnow := "2023-10-27T10:00:00Z" |}.

(** A seller and a market catalog of three entries on two pages each;
    the offer "456-DEF" is listed on both pages. *)
Definition two_pages_seller : list Ozon.Page :=
  [ {| Ozon.items := [ {| Ozon.Product.offer_id := "123-ABC" |};
                       {| Ozon.Product.offer_id := "456-DEF" |} ];
       Ozon.total := Some 3;
       Ozon.last_id := "456-DEF" |};
    {| Ozon.items := [ {| Ozon.Product.offer_id := "456-DEF" |} ];
       Ozon.total := Some 3;
       Ozon.last_id := "" |} ].

Definition two_pages_market : list Yandex.Page :=
  [ {| Yandex.offerMappingEntries :=
         [ {| Yandex.Entry.offer := {| Yandex.Offer.shopSku := "123-ABC" |} |};
           {| Yandex.Entry.offer := {| Yandex.Offer.shopSku := "456-DEF" |} |} ];
       Yandex.paging := {| Yandex.nextPageToken := Some "page-2" |} |};
    {| Yandex.offerMappingEntries :=
         [ {| Yandex.Entry.offer := {| Yandex.Offer.shopSku := "456-DEF" |} |} ];
       Yandex.paging := {| Yandex.nextPageToken := None |} |} ].

Definition two_pages : World :=
  {| server := fun _ request =>
       match request with
       | OzonProductList _ _ last_id =>
           Reply (OzonResult (nth (if String.eqb last_id "" then 0 else 1)%nat
                                  two_pages_seller
                                  {| Ozon.items := []; Ozon.total := None;
                                     Ozon.last_id := "" |}))
       | YandexOfferMappingEntries _ _ page =>
           Reply (YandexResult
                    (nth (if String.eqb page "" then 0 else 1)%nat
                         two_pages_market
                         {| Yandex.offerMappingEntries := [];
                            Yandex.paging := {| Yandex.nextPageToken := None |} |}))
       | _ => Reply Json
       end;
     utcnow := "2023-10-27T10:00:00Z" |}.

(** A seller catalog of 1200 offers on one page, and a server that
    answers the second stock update, and only that one, with a non-2xx
    status. *)
Definition is_stock_update (request : Request) : bool :=
  match request with
  | OzonImportStocks _ _ _ => true
  | _ => false
  end.

Definition second_update_rejected : World :=
  {| server := fun history request =>
       match request with
       | OzonProductList _ _ _ =>
           Reply (OzonResult
                    {| Ozon.items :=
                         replicate 1200 {| Ozon.Product.offer_id := "123-ABC" |};
                       Ozon.total := Some 1200;
                       Ozon.last_id := "" |})
       | OzonImportStocks _ _ _ =>
           if (length (List.filter is_stock_update history) =? 1)%nat
           then Fails HTTPError
           else Reply Json
       | _ => Reply Json
       end;
     utcnow := "2023-10-27T10:00:00Z" |}.

(** ** Traces of requests *)

(** Every request of [rs], made one after the other on top of the
    history [h], gets a reply. *)
Fixpoint replied (w : World) (h : list Request) (rs : list Request) : Prop :=
  match rs with
  | [] => True
  | r :: rs' => (∃ b, server w h r = Reply b) ∧ replied w (h ++ [r]) rs'
  end.

(** The requests [rs] end with one that fails with [e], all the ones
    before it having got a reply. *)
Definition failed_last (w : World) (h : list Request) (rs : list Request)
    (e : exn) : Prop :=
  ∃ rs0 r0, rs = rs0 ++ [r0] ∧ replied w h rs0
            ∧ server w (h ++ rs0) r0 = Fails e.

(** A run that prints nothing, makes only requests that satisfy [P], and
    stops at the first request that fails, raising its exception. *)
Definition orderly {A} (P : Request -> Prop) (w : World) (σ : State)
    (run : Result A * State) : Prop :=
  stdout run.2 = stdout σ
  ∧ ∃ rs, sent run.2 = sent σ ++ rs
          ∧ Forall P rs
          ∧ (replied w (sent σ) rs
             ∨ ∃ e, failed_last w (sent σ) rs e ∧ run.1 = Raise e).

Definition always_orderly {A} (P : Request -> Prop) (m : Prog A) : Prop :=
  ∀ w σ, orderly P w σ (m w σ).

(** The line that the [except] clauses of both [main] print for an
    exception. *)
Definition error_line (e : exn) : option exn * string :=
  match e with
  | ReadTimeout => (None, "Превышено время ожидания...")
  | ConnectionError => (Some e, "Ошибка соединения")
  | _ => (Some e, "ERROR_2")
  end.

Definition is_price_update (request : Request) : bool :=
  match request with
  | OzonImportPrices _ _ _ | YandexPostPrices _ _ _ => true
  | _ => false
  end.

(** The price record [market.create_prices] builds for a row whose price
    token has a digit before its first ".". *)
Definition market_price_of (row : Watch) : Yandex.Price.t :=
  {| Yandex.Price.id := Код row;
     Yandex.Price.price :=
       {| Yandex.Money.value :=
            decimal_value
              (List.filter Py.is_digit
                 (before_first_dot (list_ascii_of_string (Цена row))));
          Yandex.Money.currencyId := "RUR" |} |}.

(** A seller catalog whose pages never report a total. *)
Definition no_total_page : Ozon.Page :=
  {| Ozon.items := [ {| Ozon.Product.offer_id := "123-ABC" |} ];
     Ozon.total := None;
     Ozon.last_id := "123-ABC" |}.

(** A market catalog whose pages always name a next page. *)
Definition next_page : Yandex.Page :=
  {| Yandex.offerMappingEntries :=
       [ {| Yandex.Entry.offer := {| Yandex.Offer.shopSku := "123-ABC" |} |} ];
     Yandex.paging := {| Yandex.nextPageToken := Some "next" |} |}.

Definition endless : World :=
  {| server := fun _ request =>
       match request with
       | OzonProductList _ _ _ => Reply (OzonResult no_total_page)
       | YandexOfferMappingEntries _ _ _ => Reply (YandexResult next_page)
       | _ => Reply Json
       end;
     utcnow := "2023-10-27T10:00:00Z" |}.

(** Servers that are down: every request fails to connect. *)
Definition offline : World :=
  {| server := fun _ _ => Fails ConnectionError;
     utcnow := "2023-10-27T10:00:00Z" |}.

(** ** Answers to updates *)

(** The exception that the answer to an update ends in, if any: the one
    of the transport or of the status, or [JSONDecodeError] for a 2xx
    body that is not JSON. *)
Definition refusal (response : Response) : option exn :=
  match response with
  | Fails e => Some e
  | Reply body =>
      match response_json body with
      | Raise e => Some e
      | _ => None
      end
  end.

(** Every update of [rs], made one after the other on top of the history
    [h], is answered without a refusal. *)
Fixpoint accepted (w : World) (h : list Request) (rs : list Request) : Prop :=
  match rs with
  | [] => True
  | r :: rs' => refusal (server w h r) = None ∧ accepted w (h ++ [r]) rs'
  end.

(** Servers that list the two-page catalogs, hand out the feed of the
    docstring and accept every update. *)
Definition in_service : World :=
  {| server := fun history request =>
       match request with
       | TimeworldOstatki => Reply (Xls docstring_feed)
       | _ => server two_pages history request
       end;
     utcnow := "2023-10-27T10:00:00Z" |}.

(** A character below U+007F: [int()] reads it as it is. *)
Definition plain (c : ascii) : bool := (N_of_ascii c <? 127)%N.

(** The rows of the feed that find an offer, in feed order: a row does
    when the offers hold its code more often than the rows [before] it. *)
Fixpoint served (before : list string) (rows : list Watch) (K : list string)
    : list Watch :=
  match rows with
  | [] => []
  | row :: rows' =>
      (if (occurrences (Код row) before <? occurrences (Код row) K)%nat
       then [row] else [])
      ++ served (Код row :: before) rows' K
  end.

(** The offers no row of the feed takes, in the order of the list of
    offers: an offer is left when the feed has its code no more often
    than the offers [before] it. *)
Fixpoint unserved (before : list string) (K : list string)
    (codes : list string) : list string :=
  match K with
  | [] => []
  | c :: K' =>
      (if (occurrences c codes <=? occurrences c before)%nat
       then [c] else [])
      ++ unserved (c :: before) K' codes
  end.

(** The same catalog, and a server that answers the second stock update,
    and only that one, with a page that is not JSON. *)
Definition second_update_not_json : World :=
  {| server := fun history request =>
       match request with
       | OzonImportStocks _ _ _ =>
           if (length (List.filter is_stock_update history) =? 1)%nat
           then Reply Text
           else Reply Json
       | _ => server second_update_rejected history request
       end;
     utcnow := "2023-10-27T10:00:00Z" |}.

(** The digits of a price token that are before its first ".", and the
    tokens [market.create_prices] cannot turn into an integer: those with
    no such digit, and those with more of them than [int] reads. *)
Definition price_digits (token : string) : list ascii :=
  List.filter Py.is_digit (before_first_dot (list_ascii_of_string token)).

Definition unreadable_price (token : string) : bool :=
  no_digit_before_dot token
  || (Py.int_max_str_digits <? length (price_digits token))%nat.

(** A server that answers every request with a JSON object that has no
    result, and one that answers with a page that is not JSON. *)
Definition no_result : World :=
  {| server := fun _ _ => Reply Json; utcnow := "2023-10-27T10:00:00Z" |}.

Definition not_json : World :=
  {| server := fun _ _ => Reply Text; utcnow := "2023-10-27T10:00:00Z" |}.

(** The catalogs of [two_pages], and a server that answers every update
    with a 2xx status and a page that is not JSON. *)
Definition updates_not_json : World :=
  {| server := fun history request =>
       match request with
       | OzonProductList _ _ _ | YandexOfferMappingEntries _ _ _ =>
           server two_pages history request
       | _ => Reply Text
       end;
     utcnow := "2023-10-27T10:00:00Z" |}.

(** * Properties *)

(** ** The price normaliser *)

Lemma split_dot_head (s : string) :
  ∃ ps, Py.split "." s
        = string_of_list_ascii (before_first_dot (list_ascii_of_string s)) :: ps.
Proof.
  induction s as [|c s [ps IH]]; simpl.
  - by exists [].
  - destruct (Ascii.eqb c ".").
    + by eexists.
    + rewrite IH. by eexists.
Qed.

Lemma re_sub_non_digit_filter (l : list ascii) :
  Py.re_sub_non_digit (string_of_list_ascii l)
  = string_of_list_ascii (List.filter Py.is_digit l).
Proof.
  induction l as [|c l IH]; simpl; [done|].
  destruct (Py.is_digit c); simpl; by rewrite IH.
Qed.

Lemma price_conversion_spec (token : string) :
  price_conversion token = Ok (normalize_price_spec token).
Proof.
  unfold price_conversion, normalize_price_spec.
  destruct (split_dot_head token) as [ps ->]. simpl.
  by rewrite re_sub_non_digit_filter.
Qed.

Lemma filter_no_digit (l : list ascii) :
  forallb (fun c => negb (Py.is_digit c)) l = true →
  List.filter Py.is_digit l = [].
Proof.
  induction l as [|c l IH]; simpl; [done|].
  destruct (Py.is_digit c); simpl; [done|]. exact IH.
Qed.

(** C4: [price_conversion] cuts the token at its first "." and keeps the
    ASCII digits of what is left, in order; the digit string is what it
    returns, as on the three tokens of the specification. *)
Theorem price_conversion_truncates_and_strips :
  (∀ token, price_conversion token = Ok (normalize_price_spec token))
  ∧ price_conversion "5'990.00 руб." = Ok "5990"
  ∧ price_conversion "1234.56 USD" = Ok "1234"
  ∧ price_conversion "10'000.50 руб." = Ok "10000".
Proof.
  split; [exact price_conversion_spec|].
  repeat split; reflexivity.
Qed.

(** C5 as stated fails: a token without a digit before its first "." is
    not refused, [price_conversion] returns for it. *)
Lemma price_conversion_no_digit_returns :
  ¬ (∀ token, no_digit_before_dot token = true →
              ∃ e, price_conversion token = Raise e).
Proof.
  intros H. destruct (H "руб." eq_refl) as [e He]. discriminate He.
Qed.

(** C5, amended: for a token without a digit before its first ".",
    [price_conversion] returns the empty string. *)
Theorem price_conversion_no_digit_empty (token : string) :
  no_digit_before_dot token = true →
  price_conversion token = Ok "".
Proof.
  intros H. rewrite price_conversion_spec. unfold normalize_price_spec.
  unfold no_digit_before_dot in H. by rewrite (filter_no_digit _ H).
Qed.

Lemma price_conversion_no_digit_empty_witness :
  no_digit_before_dot "руб." = true ∧ price_conversion "руб." = Ok "".
Proof.
  split; [reflexivity|].
  apply (price_conversion_no_digit_empty "руб."). reflexivity.
Defined.

(** ** The batcher *)

Section Chunks.
Context {A : Type}.
Implicit Types (lst : list A) (k : nat).

Lemma concat_slices k lst m :
  (length lst ≤ m * k)%nat →
  concat (map (fun j => take k (drop (j * k) lst)) (seq 0 m)) = lst.
Proof.
  revert lst. induction m as [|m IH]; intros lst Hlen; simpl.
  - destruct lst; [done | simpl in Hlen; lia].
  - rewrite <- seq_shift, map_map.
    rewrite (map_ext _ (fun j => take k (drop (j * k) (drop k lst)))).
    + rewrite IH; [apply take_drop|]. rewrite length_drop. lia.
    + intros j. by rewrite drop_drop.
Qed.

Lemma ceil_bounds (len n : Z) :
  0 ≤ len → 0 < n →
  let c := (len + n - 1) / n in
  0 ≤ c ∧ len ≤ n * c ∧ n * (c - 1) < len.
Proof.
  intros Hlen Hn c.
  pose proof (Z.div_mod (len + n - 1) n ltac:(lia)) as Hdm.
  pose proof (Z.mod_pos_bound (len + n - 1) n Hn) as Hr.
  fold c in Hdm. split; [apply Z.div_pos; lia|]. lia.
Qed.

Lemma length_chunks lst k :
  (0 < k)%nat →
  Z.of_nat (length (chunks lst k))
  = (Z.of_nat (length lst) + Z.of_nat k - 1) / Z.of_nat k.
Proof.
  intros Hk. unfold chunks. rewrite length_map, length_seq.
  pose proof (ceil_bounds (Z.of_nat (length lst)) (Z.of_nat k)
                ltac:(lia) ltac:(lia)) as [H0 _].
  lia.
Qed.

Lemma concat_chunks lst k : (0 < k)%nat → concat (chunks lst k) = lst.
Proof.
  intros Hk. apply concat_slices.
  pose proof (ceil_bounds (Z.of_nat (length lst)) (Z.of_nat k)
                ltac:(lia) ltac:(lia)) as (H0 & H1 & _).
  nia.
Qed.

Lemma lookup_chunks lst k i c :
  chunks lst k !! i = Some c → c = take k (drop (i * k) lst).
Proof.
  unfold chunks. rewrite list_lookup_fmap.
  intros H. apply fmap_Some in H as (j & Hj & ->).
  apply lookup_seq in Hj as [-> _]. done.
Qed.

Lemma length_chunk_inner lst k i c :
  (0 < k)%nat → chunks lst k !! i = Some c →
  (S i < length (chunks lst k))%nat → length c = k.
Proof.
  intros Hk Hc Hi. rewrite (lookup_chunks _ _ _ _ Hc).
  rewrite length_take, length_drop.
  pose proof (length_chunks lst k Hk) as Hlen.
  pose proof (ceil_bounds (Z.of_nat (length lst)) (Z.of_nat k)
                ltac:(lia) ltac:(lia)) as (H0 & H1 & H2).
  rewrite <- Hlen in H2. nia.
Qed.

Lemma length_chunk_last lst k i c :
  (0 < k)%nat → chunks lst k !! i = Some c →
  S i = length (chunks lst k) →
  length c = if (length lst mod k =? 0)%nat then k else (length lst mod k)%nat.
Proof.
  intros Hk Hc Hi. rewrite (lookup_chunks _ _ _ _ Hc).
  rewrite length_take, length_drop.
  pose proof (length_chunks lst k Hk) as Hlen.
  pose proof (ceil_bounds (Z.of_nat (length lst)) (Z.of_nat k)
                ltac:(lia) ltac:(lia)) as (H0 & H1 & H2).
  rewrite <- Hlen, <- Hi in H1, H2.
  pose proof (Nat.div_mod_eq (length lst) k) as Hdm.
  pose proof (Nat.mod_upper_bound (length lst) k ltac:(lia)) as Hm.
  set (q := (length lst / k)%nat) in *.
  set (r := (length lst mod k)%nat) in *.
  destruct (Nat.eqb_spec r 0) as [E|E].
  - assert (q = S i) by (destruct (lt_eq_lt_dec q (S i)) as [[?|?]|?]; nia).
    nia.
  - assert (q = i) by (destruct (lt_eq_lt_dec q i) as [[?|?]|?]; nia).
    nia.
Qed.
End Chunks.

Lemma slice_chunk {A} (lst : list A) (n : Z) (j : nat) :
  0 < n → Z.of_nat j * n < Z.of_nat (length lst) →
  Py.slice lst (0 + Z.of_nat j * n) (0 + Z.of_nat j * n + n)
  = take (Z.to_nat n) (drop (j * Z.to_nat n) lst).
Proof.
  intros Hn Hj. unfold Py.slice, Py.clamp.
  destruct (Z.ltb_spec (0 + Z.of_nat j * n) 0); [lia|].
  destruct (Z.ltb_spec (0 + Z.of_nat j * n + n) 0); [lia|].
  replace (Z.to_nat (Z.min (0 + Z.of_nat j * n) (Z.of_nat (length lst))))
    with (j * Z.to_nat n)%nat by nia.
  destruct (Z.min_spec (0 + Z.of_nat j * n + n) (Z.of_nat (length lst)))
    as [[Hlt ->]|[Hge ->]].
  - f_equal. lia.
  - rewrite !take_ge; [done | | ]; rewrite length_drop; nia.
Qed.

Lemma divide_chunks {A} (lst : list A) (n : Z) :
  0 < n → divide lst n = Ok (chunks lst (Z.to_nat n)).
Proof.
  intros Hn. unfold divide, Py.range, Py.range_len, chunks.
  destruct (Z.eqb_spec n 0); [lia|].
  destruct (Z.ltb_spec 0 n); [|lia]. simpl. f_equal.
  set (len := Z.of_nat (length lst)).
  assert (Hc : (if 0 <? len then (len - 0 - 1) / n + 1 else 0)
               = (len + Z.of_nat (Z.to_nat n) - 1) / Z.of_nat (Z.to_nat n)).
  { rewrite Z2Nat.id by lia. destruct (Z.ltb_spec 0 len).
    - replace (len + n - 1) with (len - 0 - 1 + 1 * n) by lia.
      by rewrite Z.div_add by lia.
    - replace len with 0 by lia. symmetry. apply Z.div_small. lia. }
  rewrite Hc, map_map. apply map_ext_in. intros j Hj.
  apply in_seq in Hj.
  pose proof (ceil_bounds len n ltac:(lia) Hn) as (H0 & H1 & H2).
  rewrite Z2Nat.id in Hj by lia.
  apply slice_chunk; [done|]. fold len. nia.
Qed.

(** C6: for a positive [n], [divide lst n] yields the slices
    [lst[i*n : i*n+n]] in order; there are ceil(len/n) of them, they
    concatenate to [lst], each has [n] elements except the last, which
    has [len mod n] (or [n] when [n] divides [len]); and the empty list
    yields nothing. *)
Theorem divide_partitions {A} (lst : list A) (n : Z) :
  0 < n →
  ∃ batches,
    divide lst n = Ok batches
    ∧ concat batches = lst
    ∧ Z.of_nat (length batches) = (Z.of_nat (length lst) + n - 1) / n
    ∧ (∀ i batch, batches !! i = Some batch →
         batch = take (Z.to_nat n) (drop (i * Z.to_nat n) lst)
         ∧ (S i < length batches → Z.of_nat (length batch) = n)%nat
         ∧ (S i = length batches →
            Z.of_nat (length batch)
            = if Z.of_nat (length lst) mod n =? 0 then n
              else Z.of_nat (length lst) mod n))
    ∧ divide (@nil A) n = Ok [].
Proof.
  intros Hn. exists (chunks lst (Z.to_nat n)).
  assert (Hk : (0 < Z.to_nat n)%nat) by lia.
  split; [by apply divide_chunks|].
  split; [by apply concat_chunks|].
  split; [rewrite length_chunks by done; by rewrite Z2Nat.id by lia|].
  split.
  - intros i batch Hb. split; [by eapply lookup_chunks|]. split.
    + intros Hi. rewrite (length_chunk_inner _ _ _ _ Hk Hb Hi). lia.
    + intros Hi. rewrite (length_chunk_last _ _ _ _ Hk Hb Hi).
      replace (Z.of_nat (length lst) mod n)
        with (Z.of_nat (length lst mod Z.to_nat n)).
      * destruct (Nat.eqb_spec (length lst mod Z.to_nat n) 0) as [E|E];
          destruct (Z.eqb_spec (Z.of_nat (length lst mod Z.to_nat n)) 0); lia.
      * rewrite Nat2Z.inj_mod. by rewrite Z2Nat.id by lia.
  - rewrite divide_chunks by done. unfold chunks. simpl.
    rewrite Z.div_small by lia. done.
Qed.

Lemma divide_partitions_witness :
  ∃ batches,
    divide [1; 2; 3; 4; 5; 6; 7] 3 = Ok batches
    ∧ batches = [[1; 2; 3]; [4; 5; 6]; [7]].
Proof.
  destruct (divide_partitions [1; 2; 3; 4; 5; 6; 7] 3 ltac:(lia))
    as (batches & Hd & _).
  exists batches. split; [exact Hd|].
  vm_compute in Hd. by injection Hd.
Defined.

(** C7 as stated fails: a negative size is not refused, the batcher
    yields nothing and raises nothing. *)
Lemma divide_negative_size_returns :
  ¬ (∀ (lst : list Z) (n : Z), n ≤ 0 → ∃ e, divide lst n = Raise e).
Proof.
  intros H. destruct (H [1; 2; 3] (-1) ltac:(lia)) as [e He].
  discriminate He.
Qed.

(** C7, amended: size 0 is refused with [ValueError] when the generator
    is iterated; a negative size is accepted and yields the empty
    sequence, whatever the list. *)
Theorem divide_nonpositive_size {A} (lst : list A) (n : Z) :
  n ≤ 0 →
  (n = 0 → divide lst n = Raise ValueError)
  ∧ (n < 0 → divide lst n = Ok []).
Proof.
  intros Hn. split.
  - intros ->. reflexivity.
  - intros Hneg. unfold divide, Py.range, Py.range_len.
    destruct (Z.eqb_spec n 0); [lia|].
    destruct (Z.ltb_spec 0 n); [lia|].
    destruct (Z.ltb_spec (Z.of_nat (length lst)) 0); [lia|]. reflexivity.
Qed.

Lemma divide_nonpositive_size_witness :
  divide [1; 2; 3] 0 = Raise ValueError ∧ divide [1; 2; 3] (-2) = Ok [].
Proof.
  split.
  - apply (divide_nonpositive_size [1; 2; 3] 0); lia.
  - apply (divide_nonpositive_size [1; 2; 3] (-2)); lia.
Defined.

(** ** Running programs *)

Lemma run_bind {A B} (m : Prog A) (f : A → Prog B) w σ :
  (m ≫= f) w σ
  = match m w σ with
    | (Ok a, σ') => f a w σ'
    | (Raise e, σ') => (Raise e, σ')
    | (OutOfFuel, σ') => (OutOfFuel, σ')
    end.
Proof. reflexivity. Qed.

Lemma set_heap_same l K σ :
  heap σ !! l = Some K → set_heap (<[l := K]> (heap σ)) σ = σ.
Proof.
  intros H. destruct σ as [h s o]. unfold set_heap. simpl in *.
  by rewrite insert_id.
Qed.

Lemma set_heap_twice l K K' σ :
  set_heap (<[l := K']> (heap (set_heap (<[l := K]> (heap σ)) σ)))
           (set_heap (<[l := K]> (heap σ)) σ)
  = set_heap (<[l := K']> (heap σ)) σ.
Proof. unfold set_heap. simpl. by rewrite insert_insert_eq. Qed.

(** ** Lists of offers *)

Lemma contains_elem_of x K : Py.contains x K = true ↔ x ∈ K.
Proof.
  unfold Py.contains. rewrite existsb_exists. split.
  - intros (y & Hy & E). apply String.eqb_eq in E as ->.
    by apply list_elem_of_In.
  - intros H. exists x. split; [by apply list_elem_of_In|apply String.eqb_refl].
Qed.

Lemma remove_first_elem_of x K : is_Some (Py.remove_first x K) ↔ x ∈ K.
Proof.
  induction K as [|y K IH]; simpl.
  - split; [intros [? ?]; done | by intros ?%elem_of_nil].
  - destruct (String.eqb_spec y x) as [->|Hne].
    + split; [intros _; left | by eexists].
    + rewrite fmap_is_Some, IH. split; [by right|].
      intros H. inversion H; subst; done.
Qed.

Lemma remove_first_contains x K :
  Py.remove_first x K = None → Py.contains x K = false.
Proof.
  intros H. destruct (Py.contains x K) eqn:E; [|done].
  apply contains_elem_of, remove_first_elem_of in E as [? E].
  congruence.
Qed.

Lemma remove_first_contains_Some x K K' :
  Py.remove_first x K = Some K' → Py.contains x K = true.
Proof. intros H. apply contains_elem_of, remove_first_elem_of. by eexists. Qed.

Lemma remove_first_perm x K K' :
  Py.remove_first x K = Some K' → K ≡ₚ x :: K'.
Proof.
  revert K'. induction K as [|y K IH]; intros K'; simpl; [done|].
  destruct (String.eqb_spec y x) as [->|Hne].
  - by intros [= ->].
  - destruct (Py.remove_first x K) as [K0|]; simpl; [|done].
    intros [= <-]. rewrite (IH K0 eq_refl). apply Permutation_swap.
Qed.

Lemma remove_first_sublist x K K' :
  Py.remove_first x K = Some K' → K' `sublist_of` K.
Proof.
  revert K'. induction K as [|y K IH]; intros K'; simpl; [done|].
  destruct (String.eqb y x).
  - intros [= ->]. by apply sublist_cons.
  - destruct (Py.remove_first x K) as [K0|]; simpl; [|done].
    intros [= <-]. apply sublist_skip. by apply IH.
Qed.

Lemma matched_sublist rows K : matched rows K `sublist_of` rows.
Proof.
  revert K. induction rows as [|row rows IH]; intros K; simpl; [done|].
  destruct (Py.remove_first (Код row) K).
  - by apply sublist_skip.
  - by apply sublist_cons.
Qed.

Lemma remaining_sublist rows K : remaining rows K `sublist_of` K.
Proof.
  revert K. induction rows as [|row rows IH]; intros K; simpl; [done|].
  destruct (Py.remove_first (Код row) K) as [K'|] eqn:E; [|done].
  etrans; [apply IH | by eapply remove_first_sublist].
Qed.

Lemma matched_remaining_perm rows K :
  map Код (matched rows K) ++ remaining rows K ≡ₚ K.
Proof.
  revert K. induction rows as [|row rows IH]; intros K; simpl; [done|].
  destruct (Py.remove_first (Код row) K) as [K'|] eqn:E; [|done].
  simpl. rewrite IH. symmetry. by apply remove_first_perm.
Qed.

Lemma matched_elem_of rows K row : row ∈ matched rows K → Код row ∈ K.
Proof.
  intros H.
  assert (Код row ∈ map Код (matched rows K) ++ remaining rows K) as H'.
  { apply elem_of_app. left. by apply list_elem_of_fmap_2. }
  by rewrite matched_remaining_perm in H'.
Qed.

Lemma matched_none rows K :
  (∀ row, row ∈ rows → Код row ∉ K) → matched rows K = [] ∧ remaining rows K = K.
Proof.
  induction rows as [|row rows IH]; intros H; simpl; [done|].
  destruct (Py.remove_first (Код row) K) as [K'|] eqn:E.
  - exfalso. apply (H row); [left|]. apply remove_first_elem_of. by eexists.
  - apply IH. intros r Hr. apply H. by right.
Qed.

Lemma matched_app rows1 rows2 K :
  matched (rows1 ++ rows2) K
  = matched rows1 K ++ matched rows2 (remaining rows1 K).
Proof.
  revert K. induction rows1 as [|row rows1 IH]; intros K; simpl; [done|].
  destruct (Py.remove_first (Код row) K); simpl; by rewrite IH.
Qed.

Lemma remove_first_other x y K K' :
  Py.remove_first x K = Some K' → x ≠ y → y ∈ K → y ∈ K'.
Proof.
  intros H Hne Hy. apply remove_first_perm in H. rewrite H in Hy.
  inversion Hy; subst; done.
Qed.

Lemma remaining_keeps rows K c :
  c ∈ K → c ∉ map Код rows → c ∈ remaining rows K.
Proof.
  revert K. induction rows as [|row rows IH]; intros K HK Hc; simpl; [done|].
  simpl in Hc. apply not_elem_of_cons in Hc as [Hne Hc].
  destruct (Py.remove_first (Код row) K) as [K'|] eqn:E.
  - apply IH; [|done]. eapply remove_first_other; eauto.
  - by apply IH.
Qed.

(** The first row that carries a known code is a matched row. *)
Lemma first_row_matched pre row post K :
  Код row ∈ K → Код row ∉ map Код pre →
  row ∈ matched (pre ++ row :: post) K.
Proof.
  intros HK Hpre. rewrite matched_app. apply elem_of_app. right. simpl.
  pose proof (remaining_keeps pre K _ HK Hpre) as Hin.
  apply remove_first_elem_of in Hin as [K' ->]. left.
Qed.

Lemma occurrences_cons c x l :
  occurrences c (x :: l)
  = ((if String.eqb c x then 1 else 0) + occurrences c l)%nat.
Proof. unfold occurrences. simpl. by destruct (String.eqb c x). Qed.

Lemma occurrences_perm c l1 l2 : l1 ≡ₚ l2 → occurrences c l1 = occurrences c l2.
Proof.
  unfold occurrences. intros H.
  apply Permutation_length.
  induction H as [|x l l' H IH|x y l|l l' l'' H1 IH1 H2 IH2]; simpl.
  - done.
  - destruct (String.eqb c x); [by constructor | done].
  - destruct (String.eqb c y), (String.eqb c x); try done. apply perm_swap.
  - by etrans.
Qed.

Lemma occurrences_pos c l : (0 < occurrences c l)%nat ↔ c ∈ l.
Proof.
  induction l as [|x l IH].
  - split; [unfold occurrences; simpl; lia | by intros ?%elem_of_nil].
  - rewrite occurrences_cons, elem_of_cons.
    destruct (String.eqb_spec c x) as [->|Hne].
    + split; [by left | lia].
    + simpl. rewrite IH. split; [by right | by intros [?|?]].
Qed.

(** An offer is left over exactly when the list of offers holds its code
    more often than the feed does. *)
Lemma remaining_occurrences rows K c :
  c ∈ remaining rows K
  ↔ (occurrences c (map Код rows) < occurrences c K)%nat.
Proof.
  revert K. induction rows as [|row rows IH]; intros K; simpl.
  - change (occurrences c []) with 0%nat. by rewrite occurrences_pos.
  - rewrite occurrences_cons.
    destruct (Py.remove_first (Код row) K) as [K'|] eqn:E.
    + rewrite IH. rewrite (occurrences_perm c K _ (remove_first_perm _ _ _ E)).
      rewrite occurrences_cons. lia.
    + rewrite IH. destruct (String.eqb_spec c (Код row)) as [->|Hne]; [|lia].
      assert (occurrences (Код row) K = 0%nat) as ->.
      { destruct (occurrences (Код row) K) eqn:E0; [done|].
        assert (Код row ∈ K) as Hin by (apply occurrences_pos; lia).
        apply remove_first_elem_of in Hin as [? ?]. congruence. }
      lia.
Qed.

(** ** The reconciliation loop *)

Lemma stock_of_count_result t :
  (∃ z, stock_of_count t = Ok z) ∨ stock_of_count t = Raise ValueError.
Proof.
  unfold stock_of_count.
  destruct (String.eqb t ">10"); [left; by eexists|].
  destruct (String.eqb t "1"); [left; by eexists|].
  unfold Py.int.
  match goal with
  | |- context [match ?p with Some _ => _ | None => _ end] => destruct p
  end; [|by right].
  destruct (_ <=? _)%nat; [left; by eexists | by right].
Qed.

Lemma counts_of_ok rows m :
  counts_of rows = Ok m →
  Forall2 (fun row p => p.1 = Код row ∧ stock_of_count (Количество row) = Ok p.2)
          rows m.
Proof.
  revert m. induction rows as [|row rows IH]; intros m; simpl.
  - intros [= <-]. constructor.
  - destruct (stock_of_count (Количество row)) as [z| |] eqn:E; simpl; try done.
    destruct (counts_of rows) as [rest| |]; simpl; try done.
    intros [= <-]. constructor; [done|]. by apply IH.
Qed.

Lemma counts_of_codes rows m :
  counts_of rows = Ok m → map fst m = map Код rows.
Proof.
  intros H. apply counts_of_ok in H.
  induction H as [|row p rows m [Hp _] _ IH]; simpl; [done|]. by rewrite Hp, IH.
Qed.

Lemma counts_of_total rows :
  Forall (fun row => is_ok (stock_of_count (Количество row)) = true) rows →
  ∃ m, counts_of rows = Ok m.
Proof.
  induction 1 as [|row rows Hrow _ [m IH]]; simpl; [by eexists|].
  destruct (stock_of_count (Количество row)); try done.
  rewrite IH. simpl. by eexists.
Qed.

Section ReconcileRuns.
Context {R : Type} (record : string → Z → R).

Lemma run_match_watch l acc row K w σ :
  heap σ !! l = Some K →
  match_watch record l acc row w σ
  = match Py.remove_first (Код row) K with
    | Some K' =>
        match stock_of_count (Количество row) with
        | Ok stock => (Ok (acc ++ [record (Код row) stock]),
                       set_heap (<[l := K']> (heap σ)) σ)
        | Raise e => (Raise e, σ)
        | OutOfFuel => (OutOfFuel, σ)
        end
    | None => (Ok acc, σ)
    end.
Proof.
  intros H.
  unfold match_watch, list_contains, list_remove, load, store, lift.
  rewrite !run_bind. rewrite H. simpl.
  destruct (Py.remove_first (Код row) K) as [K'|] eqn:E.
  - rewrite (remove_first_contains_Some _ _ _ E). rewrite run_bind.
    destruct (stock_of_count (Количество row)); try done.
    rewrite !run_bind. rewrite H. simpl. by rewrite E.
  - by rewrite (remove_first_contains _ _ E).
Qed.

Lemma run_fold_match_watch l rows : ∀ acc K w σ,
  heap σ !! l = Some K →
  match counts_of (matched rows K) with
  | Ok m =>
      fold_each (match_watch record l) acc rows w σ
      = (Ok (acc ++ map (fun p => record p.1 p.2) m),
         set_heap (<[l := remaining rows K]> (heap σ)) σ)
  | Raise e =>
      ∃ σ', fold_each (match_watch record l) acc rows w σ = (Raise e, σ')
  | OutOfFuel =>
      ∃ σ', fold_each (match_watch record l) acc rows w σ = (OutOfFuel, σ')
  end.
Proof.
  induction rows as [|row rows IH]; intros acc K w σ H; simpl.
  - by rewrite app_nil_r, set_heap_same.
  - rewrite run_bind, (run_match_watch _ _ _ _ _ _ H).
    destruct (Py.remove_first (Код row) K) as [K'|] eqn:E; [|by apply IH].
    simpl.
    destruct (stock_of_count (Количество row)) as [stock|e|]; simpl;
      [|by eexists|by eexists].
    specialize (IH (acc ++ [record (Код row) stock]) K' w
                   (set_heap (<[l := K']> (heap σ)) σ)).
    simpl in IH. rewrite lookup_insert_eq in IH. specialize (IH eq_refl).
    destruct (counts_of (matched rows K')) as [m|e|]; simpl; [|done|done].
    rewrite IH. rewrite <- app_assoc. simpl. f_equal.
    apply set_heap_twice.
Qed.

Lemma run_create_stocks_with l rows K w σ :
  heap σ !! l = Some K →
  match counts_of (matched rows K) with
  | Ok m =>
      create_stocks_with record rows l w σ
      = (Ok (map (fun p => record p.1 p.2) m
             ++ map (fun c => record c 0) (remaining rows K)),
         set_heap (<[l := remaining rows K]> (heap σ)) σ)
  | Raise e => ∃ σ', create_stocks_with record rows l w σ = (Raise e, σ')
  | OutOfFuel => ∃ σ', create_stocks_with record rows l w σ = (OutOfFuel, σ')
  end.
Proof.
  intros H. unfold create_stocks_with. rewrite run_bind.
  pose proof (run_fold_match_watch l rows [] K w σ H) as Hrun.
  destruct (counts_of (matched rows K)) as [m|e|].
  - rewrite Hrun. unfold load. rewrite run_bind. simpl.
    by rewrite lookup_insert_eq.
  - destruct Hrun as [σ' ->]. by eexists.
  - destruct Hrun as [σ' ->]. by eexists.
Qed.

(** What a run of [create_stocks] that returns has done. *)
Lemma create_stocks_with_returns l rows K w σ stocks σ' :
  heap σ !! l = Some K →
  create_stocks_with record rows l w σ = (Ok stocks, σ') →
  ∃ m, counts_of (matched rows K) = Ok m
       ∧ stocks = map (fun p => record p.1 p.2) m
                  ++ map (fun c => record c 0) (remaining rows K)
       ∧ σ' = set_heap (<[l := remaining rows K]> (heap σ)) σ.
Proof.
  intros H Hrun.
  pose proof (run_create_stocks_with l rows K w σ H) as Hspec.
  destruct (counts_of (matched rows K)) as [m|e|].
  - rewrite Hspec in Hrun. injection Hrun as <- <-. by exists m.
  - destruct Hspec as [? Hspec]. congruence.
  - destruct Hspec as [? Hspec]. congruence.
Qed.
End ReconcileRuns.

Lemma quantities_parse_sublist rows rows' :
  rows' `sublist_of` rows → quantities_parse rows → quantities_parse rows'.
Proof.
  unfold quantities_parse. rewrite !Forall_forall.
  intros Hsub H row Hrow. apply H. by eapply elem_of_sublist.
Qed.

Section Completeness.
Context {R : Type} (record : string → Z → R).
Context (id_of : R → string) (count_of : R → Z).
Hypothesis id_record : ∀ c z, id_of (record c z) = c.
Hypothesis count_record : ∀ c z, count_of (record c z) = z.

Lemma ids_of_hits m :
  map id_of (map (fun p => record p.1 p.2) m) = map fst m.
Proof. rewrite map_map. apply map_ext. intros p. apply id_record. Qed.

Lemma ids_of_zeros K : map id_of (map (fun c => record c 0) K) = K.
Proof.
  rewrite map_map. rewrite <- (map_id K) at 2. apply map_ext.
  intros c. apply id_record.
Qed.

Lemma create_stocks_with_total l rows K w σ :
  heap σ !! l = Some K → quantities_parse rows →
  ∃ stocks σ', create_stocks_with record rows l w σ = (Ok stocks, σ').
Proof.
  intros H Hparse.
  pose proof (run_create_stocks_with record l rows K w σ H) as Hrun.
  destruct (counts_of_total (matched rows K)) as [m Hm].
  { eapply quantities_parse_sublist; [apply matched_sublist | done]. }
  rewrite Hm in Hrun. eauto.
Qed.

Lemma create_stocks_with_reconciles l rows K w σ stocks σ' :
  heap σ !! l = Some K →
  create_stocks_with record rows l w σ = (Ok stocks, σ') →
  reconciles id_of count_of rows K stocks.
Proof.
  intros H Hrun.
  destruct (create_stocks_with_returns record l rows K w σ stocks σ' H Hrun)
    as (m & Hm & -> & _).
  pose proof (counts_of_codes _ _ Hm) as Hcodes.
  pose proof (counts_of_ok _ _ Hm) as Hok.
  assert (Hperm : map id_of (map (fun p => record p.1 p.2) m
                             ++ map (fun c => record c 0) (remaining rows K))
                  ≡ₚ K).
  { rewrite map_app, ids_of_hits, ids_of_zeros, Hcodes.
    apply matched_remaining_perm. }
  split; [|split; [exact Hperm|split]].
  - rewrite <- (Permutation_length Hperm). by rewrite length_map.
  - apply Forall_app. split.
    + apply Forall_forall. intros r Hr.
      apply list_elem_of_fmap in Hr as (p & -> & Hp). right.
      apply list_elem_of_lookup in Hp as [i Hi].
      destruct (Forall2_lookup_r _ _ _ _ _ Hok Hi) as (row & Hrow & Hid & Hcount).
      exists row. rewrite id_record, count_record. split; [|done].
      eapply elem_of_sublist; [|apply matched_sublist].
      by eapply list_elem_of_lookup_2.
    + apply Forall_forall. intros r Hr.
      apply list_elem_of_fmap in Hr as (c & -> & _). left. apply count_record.
  - intros pre row post -> HK Hpre.
    pose proof (first_row_matched pre row post K HK Hpre) as Hin.
    apply list_elem_of_lookup in Hin as [i Hi].
    destruct (Forall2_lookup_l _ _ _ _ _ Hok Hi) as (p & Hp & Hid & Hcount).
    exists (record p.1 p.2). rewrite id_record, count_record.
    split; [|done]. apply elem_of_app. left.
    apply list_elem_of_fmap. exists p. split; [done|].
    by eapply list_elem_of_lookup_2.
Qed.
End Completeness.

(** C1: whatever the feed and the list of known offers, a stock list
    that [create_stocks] returns has one record per known offer
    (duplicates counted) and its offer ids are the known offers as a
    multiset; each record is zero-filled or carries the count of a feed
    row with its code, the first such row for an offer the feed mentions.
    When every quantity token parses, [create_stocks] does return.  The
    same holds in [seller.py] and in [market.py]. *)
Theorem create_stocks_complete (rows : list Watch) (l : loc) (K : list string)
    (warehouse_id : string) (w : World) (σ : State) :
  heap σ !! l = Some K →
  (quantities_parse rows →
     (∃ stocks σ', Seller.create_stocks rows l w σ = (Ok stocks, σ'))
     ∧ (∃ stocks σ', Market.create_stocks rows l warehouse_id w σ = (Ok stocks, σ')))
  ∧ (∀ stocks σ',
       Seller.create_stocks rows l w σ = (Ok stocks, σ') →
       reconciles Ozon.Stock.offer_id Ozon.Stock.stock rows K stocks)
  ∧ (∀ stocks σ',
       Market.create_stocks rows l warehouse_id w σ = (Ok stocks, σ') →
       reconciles Yandex.Stock.sku yandex_count rows K stocks).
Proof.
  intros H. split; [|split].
  - intros Hparse. split.
    + by eapply create_stocks_with_total.
    + unfold Market.create_stocks, now. rewrite run_bind.
      by eapply create_stocks_with_total.
  - intros stocks σ' Hrun.
    by refine (create_stocks_with_reconciles _ _ _ _ _ l rows K w σ stocks σ' H Hrun).
  - intros stocks σ' Hrun.
    unfold Market.create_stocks, now in Hrun. rewrite run_bind in Hrun.
    by refine (create_stocks_with_reconciles _ _ _ _ _ l rows K w σ stocks σ' H Hrun).
Qed.

(** ** Prices *)

Lemma contains_decide x K : Py.contains x K = bool_decide (x ∈ K).
Proof.
  destruct (Py.contains x K) eqn:E; symmetry.
  - by apply bool_decide_eq_true, contains_elem_of.
  - apply bool_decide_eq_false. rewrite <- contains_elem_of. congruence.
Qed.

Lemma run_seller_price_watch l acc row K w σ :
  heap σ !! l = Some K →
  Seller.price_watch l acc row w σ
  = (Ok (if decide (Код row ∈ K) then acc ++ [price_of row] else acc), σ).
Proof.
  intros H. unfold Seller.price_watch, list_contains, load, lift.
  rewrite !run_bind. rewrite H. simpl. rewrite contains_decide.
  destruct (decide (Код row ∈ K)) as [Hin|Hout].
  - rewrite bool_decide_eq_true_2 by done. rewrite run_bind.
    by rewrite price_conversion_spec.
  - by rewrite bool_decide_eq_false_2 by done.
Qed.

Lemma run_seller_price_loop l rows K w σ : ∀ acc,
  heap σ !! l = Some K →
  fold_each (Seller.price_watch l) acc rows w σ
  = (Ok (acc ++ map price_of (filter (fun row => Код row ∈ K) rows)), σ).
Proof.
  induction rows as [|row rows IH]; intros acc H; simpl.
  - by rewrite app_nil_r.
  - rewrite run_bind, (run_seller_price_watch _ _ _ _ _ _ H).
    rewrite IH by done.
    destruct (decide (Код row ∈ K)) as [Hin|Hout].
    + rewrite filter_cons_True by done. simpl. by rewrite <- app_assoc.
    + by rewrite filter_cons_False by done.
Qed.

Lemma run_seller_create_prices l rows K w σ :
  heap σ !! l = Some K →
  Seller.create_prices rows l w σ
  = (Ok (map price_of (filter (fun row => Код row ∈ K) rows)), σ).
Proof.
  intros H. unfold Seller.create_prices.
  by rewrite (run_seller_price_loop l rows K w σ [] H).
Qed.

(** ** Who is matched, by counting *)

Lemma occurrences_zero c l : occurrences c l = 0%nat ↔ c ∉ l.
Proof.
  rewrite <- occurrences_pos. lia.
Qed.

Lemma remove_first_occurrences x K K' c :
  Py.remove_first x K = Some K' →
  occurrences c K = ((if String.eqb c x then 1 else 0) + occurrences c K')%nat.
Proof.
  intros H. rewrite (occurrences_perm c K _ (remove_first_perm _ _ _ H)).
  apply occurrences_cons.
Qed.

Lemma matched_served rows : ∀ K before K0,
  (∀ c, occurrences c K = (occurrences c K0 - occurrences c before)%nat) →
  matched rows K = served before rows K0.
Proof.
  induction rows as [|row rows IH]; intros K before K0 H; simpl; [done|].
  destruct (Py.remove_first (Код row) K) as [K'|] eqn:E.
  - pose proof (remove_first_occurrences _ _ _ (Код row) E) as Hc.
    rewrite String.eqb_refl, H in Hc.
    destruct (Nat.ltb_spec (occurrences (Код row) before)
                           (occurrences (Код row) K0)); [|lia].
    simpl. f_equal. apply IH. intros c.
    pose proof (remove_first_occurrences _ _ _ c E) as Hc'.
    rewrite H in Hc'. rewrite occurrences_cons.
    destruct (String.eqb c (Код row)); lia.
  - assert (occurrences (Код row) K = 0%nat) as Hz.
    { apply occurrences_zero. intros Hin.
      apply remove_first_elem_of in Hin as [? ?]. congruence. }
    rewrite H in Hz.
    destruct (Nat.ltb_spec (occurrences (Код row) before)
                           (occurrences (Код row) K0)); [lia|].
    simpl. apply IH. intros c. rewrite occurrences_cons, H.
    destruct (String.eqb_spec c (Код row)) as [->|_]; lia.
Qed.

Lemma unserved_shift x codes K : ∀ b1 b2,
  (∀ c, occurrences c b1
        = ((if String.eqb c x then 1 else 0) + occurrences c b2)%nat) →
  unserved b1 K (x :: codes) = unserved b2 K codes.
Proof.
  induction K as [|c K IH]; intros b1 b2 H; simpl; [done|].
  rewrite occurrences_cons, H.
  f_equal.
  - destruct (Nat.leb_spec ((if String.eqb c x then 1 else 0)
                            + occurrences c codes)
                           ((if String.eqb c x then 1 else 0)
                            + occurrences c b2)),
             (Nat.leb_spec (occurrences c codes) (occurrences c b2));
      done || lia.
  - apply IH. intros c'. rewrite !occurrences_cons, H. lia.
Qed.

Lemma unserved_other x codes K : ∀ before,
  x ∉ K → unserved before K (x :: codes) = unserved before K codes.
Proof.
  induction K as [|c K IH]; intros before H; simpl; [done|].
  apply not_elem_of_cons in H as [Hne HK].
  rewrite occurrences_cons.
  destruct (String.eqb_spec c x) as [->|_]; [done|].
  simpl. by rewrite IH.
Qed.

Lemma unserved_remove_first x codes : ∀ K K' before,
  Py.remove_first x K = Some K' → occurrences x before = 0%nat →
  unserved before K (x :: codes) = unserved before K' codes.
Proof.
  induction K as [|c K IH]; intros K' before H Hz; simpl in H; [done|].
  destruct (String.eqb_spec c x) as [->|Hne].
  - injection H as <-. simpl. rewrite occurrences_cons, String.eqb_refl, Hz.
    simpl. apply unserved_shift. intros c. by rewrite occurrences_cons.
  - destruct (Py.remove_first x K) as [K0|] eqn:E; [|done].
    injection H as <-. simpl. rewrite occurrences_cons.
    destruct (String.eqb_spec c x) as [->|_]; [done|].
    simpl. f_equal. apply IH; [done|].
    rewrite occurrences_cons.
    destruct (String.eqb_spec x c) as [->|_]; [done|]. by rewrite Hz.
Qed.

Lemma unserved_nil K : ∀ before, unserved before K [] = K.
Proof.
  induction K as [|c K IH]; intros before; simpl; [done|]. by rewrite IH.
Qed.

Lemma remaining_unserved rows : ∀ K,
  remaining rows K = unserved [] K (map Код rows).
Proof.
  induction rows as [|row rows IH]; intros K; simpl.
  - by rewrite unserved_nil.
  - destruct (Py.remove_first (Код row) K) as [K'|] eqn:E.
    + rewrite IH. symmetry. by apply unserved_remove_first.
    + rewrite IH. symmetry. apply unserved_other. intros Hin.
      apply remove_first_elem_of in Hin as [? ?]. congruence.
Qed.

Lemma matched_served_all rows K : matched rows K = served [] rows K.
Proof.
  apply matched_served. intros c. change (occurrences c []) with 0%nat. lia.
Qed.

(** C8: a run of [create_stocks] that returns gives one record for each
    row that finds an offer, in feed order and with the row's code and
    count, followed by one zero-filled record for each offer no row
    takes, in the order of the list of offers, and nothing else.  A row
    finds an offer when the offers hold its code more often than the
    rows before it do, so the first row with a known code always does;
    an offer is left when the feed has its code no more often than the
    offers before it.  The run returns when the quantity of every such
    row parses.  The price list has a record for each row whose code is
    a known offer and for no other, in feed order; a row whose code is
    no known offer has neither a stock nor a price record. *)
Theorem reconciler_output_order (rows : list Watch) (l : loc)
    (K : list string) (w : World) (σ : State) :
  heap σ !! l = Some K →
  (∀ stocks σ',
     Seller.create_stocks rows l w σ = (Ok stocks, σ') →
     ∃ hits,
       stocks = hits ++ map (fun c => {| Ozon.Stock.offer_id := c;
                                         Ozon.Stock.stock := 0 |})
                            (unserved [] K (map Код rows))
       ∧ Forall2 (fun row r => Ozon.Stock.offer_id r = Код row
                               ∧ stock_of_count (Количество row)
                                 = Ok (Ozon.Stock.stock r))
                 (served [] rows K) hits)
  ∧ (quantities_parse (served [] rows K) →
     ∃ stocks σ', Seller.create_stocks rows l w σ = (Ok stocks, σ'))
  ∧ served [] rows K `sublist_of` rows
  ∧ unserved [] K (map Код rows) `sublist_of` K
  ∧ map Код (served [] rows K) ++ unserved [] K (map Код rows) ≡ₚ K
  ∧ (∀ pre row post,
       rows = pre ++ row :: post → Код row ∈ K → Код row ∉ map Код pre →
       row ∈ served [] rows K)
  ∧ (∀ c, c ∈ unserved [] K (map Код rows)
          ↔ (occurrences c (map Код rows) < occurrences c K)%nat)
  ∧ Seller.create_prices rows l w σ
    = (Ok (map price_of (filter (fun row => Код row ∈ K) rows)), σ)
  ∧ (∀ row, row ∈ rows → Код row ∉ K →
       (∀ stocks σ', Seller.create_stocks rows l w σ = (Ok stocks, σ') →
                     Код row ∉ map Ozon.Stock.offer_id stocks)
       ∧ (∀ prices σ', Seller.create_prices rows l w σ = (Ok prices, σ') →
                       Код row ∉ map Ozon.Price.offer_id prices)).
Proof.
  intros H. rewrite <- matched_served_all, <- remaining_unserved.
  split; [|split; [|split; [|split; [|split; [|split; [|split; [|split]]]]]]].
  - intros stocks σ' Hrun.
    destruct (create_stocks_with_returns _ l rows K w σ stocks σ' H Hrun)
      as (m & Hm & -> & _).
    exists (map (fun p => {| Ozon.Stock.offer_id := p.1;
                             Ozon.Stock.stock := p.2 |}) m).
    split; [done|].
    apply Forall2_fmap_r. eapply Forall2_impl; [by apply counts_of_ok|].
    by intros row p [? ?].
  - intros Hparse.
    pose proof (run_create_stocks_with
                  (fun offer_id stock => {| Ozon.Stock.offer_id := offer_id;
                                            Ozon.Stock.stock := stock |})
                  l rows K w σ H) as Hrun.
    destruct (counts_of_total (matched rows K) Hparse) as [m Hm].
    rewrite Hm in Hrun. unfold Seller.create_stocks. eauto.
  - apply matched_sublist.
  - apply remaining_sublist.
  - apply matched_remaining_perm.
  - intros pre row post -> HK Hpre. by apply first_row_matched.
  - intros c. apply remaining_occurrences.
  - by apply run_seller_create_prices.
  - intros row Hrow Hout. split.
    + intros stocks σ' Hrun Hin.
      assert (reconciles Ozon.Stock.offer_id Ozon.Stock.stock rows K stocks)
        as (_ & Hperm & _)
        by by refine (create_stocks_with_reconciles _ _ _ _ _
                        l rows K w σ stocks σ' H Hrun).
      by rewrite Hperm in Hin.
    + intros prices σ' Hrun Hin.
      rewrite (run_seller_create_prices l rows K w σ H) in Hrun.
      injection Hrun as <- _.
      rewrite map_map in Hin. simpl in Hin.
      apply list_elem_of_fmap in Hin as (row' & Hcode & Hrow').
      apply list_elem_of_filter in Hrow' as [Hin' _]. by rewrite Hcode in Hout.
Qed.

(** ** The shared list of offers in [seller.main] *)

Lemma bind_Ok_inv {A B} (m : Prog A) (f : A → Prog B) w σ b σ' :
  (m ≫= f) w σ = (Ok b, σ') →
  ∃ a σ1, m w σ = (Ok a, σ1) ∧ f a w σ1 = (Ok b, σ').
Proof.
  rewrite run_bind. destruct (m w σ) as [[a|e|] σ1]; [eauto|done|done].
Qed.

Lemma http_heap r w σ x σ' : http r w σ = (x, σ') → heap σ' = heap σ.
Proof. unfold http. case_match; by intros [= _ <-]. Qed.

Lemma for_each_heap {A} (body : A → Prog unit) (l : list A) :
  (∀ x w σ r σ', body x w σ = (r, σ') → heap σ' = heap σ) →
  ∀ w σ r σ', for_each body l w σ = (r, σ') → heap σ' = heap σ.
Proof.
  intros Hbody. induction l as [|x l IH]; intros w σ r σ'; simpl.
  - by intros [= _ <-].
  - rewrite run_bind. destruct (body x w σ) as [[[]|e|] σ1] eqn:E;
      pose proof (Hbody _ _ _ _ _ E) as Hh.
    + intros Hrun. rewrite <- Hh. by eapply IH.
    + by intros [= _ <-].
    + by intros [= _ <-].
Qed.

Lemma update_stocks_heap some_stock client_id seller_token w σ r σ' :
  (_ ← Seller.update_stocks some_stock client_id seller_token; mret tt) w σ
  = (r, σ') →
  heap σ' = heap σ.
Proof.
  unfold Seller.update_stocks, lift. rewrite !run_bind.
  destruct (http (OzonImportStocks client_id seller_token some_stock) w σ)
    as [[b|e|] σ1] eqn:E; apply http_heap in E;
    try destruct (response_json b); intros [= _ <-]; done.
Qed.

Lemma get_offer_ids_allocates fuel client_id seller_token w σ l σ' :
  Seller.get_offer_ids fuel client_id seller_token w σ = (Ok l, σ') →
  ∃ K, heap σ' !! l = Some K.
Proof.
  unfold Seller.get_offer_ids. intros H.
  apply bind_Ok_inv in H as (products & σ1 & _ & H).
  unfold new_list in H. injection H as <- <-. simpl.
  rewrite lookup_insert_eq. by eexists.
Qed.

Lemma filter_none {A} (f : A → bool) (l : list A) :
  (∀ x, x ∈ l → f x = false) → List.filter f l = [].
Proof.
  induction l as [|x l IH]; intros H; simpl; [done|].
  rewrite (H x) by left. apply IH. intros y Hy. apply H. by right.
Qed.

Lemma occurrences_NoDup c K : NoDup K → (occurrences c K ≤ 1)%nat.
Proof.
  induction 1 as [|x K Hx _ IH]; [unfold occurrences; simpl; lia|].
  rewrite occurrences_cons. destruct (String.eqb_spec c x) as [->|Hne]; [|lia].
  assert (occurrences x K = 0%nat) as ->; [|lia].
  destruct (occurrences x K) eqn:E; [done|].
  exfalso. apply Hx, occurrences_pos. lia.
Qed.

Lemma main_prices_run fuel client_id seller_token w σ l rows prices σ' :
  Seller.main_prices fuel client_id seller_token w σ = (Ok (l, rows, prices), σ') →
  ∃ K σ1,
    Seller.get_offer_ids fuel client_id seller_token w σ = (Ok l, σ1)
    ∧ heap σ1 !! l = Some K
    ∧ heap σ' !! l = Some (remaining rows K)
    ∧ prices = map price_of (filter (fun row => Код row ∈ remaining rows K) rows).
Proof.
  unfold Seller.main_prices. intros H.
  apply bind_Ok_inv in H as (l0 & σ1 & Hids & H).
  destruct (get_offer_ids_allocates _ _ _ _ _ _ _ Hids) as [K HK].
  apply bind_Ok_inv in H as (rows0 & σ2 & Hdl & H).
  assert (heap σ2 = heap σ1) as Hh2.
  { unfold Seller.download_stock in Hdl.
    apply bind_Ok_inv in Hdl as (b & σx & Hhttp & Hdl).
    apply http_heap in Hhttp. destruct b; try done. by injection Hdl as _ <-. }
  apply bind_Ok_inv in H as (stocks & σ3 & Hst & H).
  rewrite <- Hh2 in HK.
  destruct (create_stocks_with_returns _ _ _ _ _ _ _ _ HK Hst) as (m & _ & _ & ->).
  apply bind_Ok_inv in H as (batches & σ4 & Hdiv & H).
  unfold lift in Hdiv. injection Hdiv as _ <-.
  apply bind_Ok_inv in H as ([] & σ5 & Hup & H).
  apply for_each_heap in Hup; [|intros; by eapply update_stocks_heap].
  simpl in Hup. apply bind_Ok_inv in H as (prices0 & σ6 & Hpr & H).
  injection H as <- <- <- <-.
  assert (heap σ5 !! l0 = Some (remaining rows0 K)) as H5
    by (rewrite Hup; apply lookup_insert_eq).
  rewrite (run_seller_create_prices _ _ _ _ _ H5) in Hpr.
  injection Hpr as <- <-.
  exists K, σ1. rewrite Hh2 in HK. done.
Qed.

(** C10 as stated fails: with an offer listed twice, [seller.main] emits
    a price record for a feed code that did match during stock
    creation. *)
Lemma main_prices_for_matched_code :
  ∃ l K σ1 rows prices σ' p,
    Seller.get_offer_ids 1 "id" "key" twice_listed empty_state = (Ok l, σ1)
    ∧ heap σ1 !! l = Some K
    ∧ Seller.main_prices 1 "id" "key" twice_listed empty_state
      = (Ok (l, rows, prices), σ')
    ∧ p ∈ prices
    ∧ Ozon.Price.offer_id p ∈ map Код (matched rows K).
Proof.
  do 7 eexists. split; [vm_compute; reflexivity|].
  split; [vm_compute; reflexivity|].
  split; [vm_compute; reflexivity|].
  split; [left|]. vm_compute. left.
Qed.

(** C10, amended: [create_stocks] works on the caller's list itself:
    when it returns, the only change to the store is that this list
    holds the offers left over, which are the zero-filled ones, one
    occurrence having gone for every matched row.  So in [seller.main],
    which passes the same list on to [create_prices], a price record is
    emitted exactly for the rows whose code is still in the list: codes
    that the catalog lists more often than the feed does; none at all
    when the catalog lists no offer twice. *)
Theorem create_stocks_consumes_offers (rows : list Watch) (l : loc)
    (K : list string) (warehouse_id : string) (w : World) (σ : State) :
  heap σ !! l = Some K →
  (∀ stocks σ',
     Seller.create_stocks rows l w σ = (Ok stocks, σ') →
     σ' = set_heap (<[l := remaining rows K]> (heap σ)) σ
     ∧ (∃ hits,
          stocks = hits ++ map (fun c => {| Ozon.Stock.offer_id := c;
                                            Ozon.Stock.stock := 0 |})
                               (remaining rows K)
          ∧ map Ozon.Stock.offer_id hits = map Код (matched rows K))
     ∧ map Код (matched rows K) ++ remaining rows K ≡ₚ K)
  ∧ (∀ stocks σ',
       Market.create_stocks rows l warehouse_id w σ = (Ok stocks, σ') →
       σ' = set_heap (<[l := remaining rows K]> (heap σ)) σ)
  ∧ (∀ fuel client_id seller_token l' rows' prices σ',
       Seller.main_prices fuel client_id seller_token w σ
       = (Ok (l', rows', prices), σ') →
       ∃ K' σ1,
         Seller.get_offer_ids fuel client_id seller_token w σ = (Ok l', σ1)
         ∧ heap σ1 !! l' = Some K'
         ∧ heap σ' !! l' = Some (remaining rows' K')
         ∧ prices = map price_of
                        (filter (fun row => Код row ∈ remaining rows' K') rows')
         ∧ (∀ p, p ∈ prices →
              (occurrences (Ozon.Price.offer_id p) (map Код rows')
               < occurrences (Ozon.Price.offer_id p) K')%nat)
         ∧ (NoDup K' → prices = [])).
Proof.
  intros H. split; [|split].
  - intros stocks σ' Hrun.
    destruct (create_stocks_with_returns _ _ _ _ _ _ _ _ H Hrun)
      as (m & Hm & -> & ->).
    split; [done|]. split; [|apply matched_remaining_perm].
    eexists. split; [done|].
    rewrite map_map. simpl. by apply counts_of_codes.
  - intros stocks σ' Hrun.
    unfold Market.create_stocks, now in Hrun. rewrite run_bind in Hrun.
    by destruct (create_stocks_with_returns _ _ _ _ _ _ _ _ H Hrun)
      as (m & _ & _ & ->).
  - intros fuel client_id seller_token l' rows' prices σ' Hrun.
    destruct (main_prices_run _ _ _ _ _ _ _ _ _ Hrun)
      as (K' & σ1 & Hids & HK' & Hrest & ->).
    exists K', σ1. do 4 (split; [done|]).
    assert (Hocc : ∀ row, row ∈ filter (fun row => Код row ∈ remaining rows' K') rows' →
                   (occurrences (Код row) (map Код rows')
                    < occurrences (Код row) K')%nat).
    { intros row Hrow. apply list_elem_of_filter in Hrow as [Hin _].
      by apply remaining_occurrences. }
    split.
    + intros p Hp. apply list_elem_of_fmap in Hp as (row & -> & Hrow).
      by apply Hocc.
    + intros Hnodup.
      destruct (filter (fun row => Код row ∈ remaining rows' K') rows')
        as [|row rest] eqn:E; [done|].
      exfalso.
      assert (row ∈ filter (fun row => Код row ∈ remaining rows' K') rows')
        as Hrow by (rewrite E; left).
      pose proof (Hocc row ltac:(left)) as Hlt.
      pose proof (occurrences_NoDup (Код row) K' Hnodup) as Hle.
      apply list_elem_of_filter in Hrow as [_ Hrow].
      assert (0 < occurrences (Код row) (map Код rows'))%nat; [|lia].
      apply occurrences_pos. by apply list_elem_of_fmap_2.
Qed.

(** ** The offer listers *)

Lemma add_sent_add_sent rs1 rs2 σ :
  add_sent rs2 (add_sent rs1 σ) = add_sent (rs1 ++ rs2) σ.
Proof. unfold add_sent. simpl. by rewrite app_assoc. Qed.

Lemma first_end_below (ends : nat → bool) (n : nat) :
  (∃ k', (k' < n)%nat ∧ ends k' = true ∧ ∀ j, (j < k')%nat → ends j = false)
  ∨ (∀ j, (j < n)%nat → ends j = false).
Proof.
  induction n as [|n [(k' & Hlt & Hk' & Hmin)|Hnone]].
  - right. intros j Hj. lia.
  - left. exists k'. split; [lia|done].
  - destruct (ends n) eqn:E.
    + left. exists n. split; [lia|done].
    + right. intros j Hj. destruct (decide (j = n)) as [->|Hne]; [done|].
      apply Hnone. lia.
Qed.

Lemma least_end (ends : nat → bool) (k : nat) :
  ends k = true →
  ∃ k', (k' ≤ k)%nat ∧ ends k' = true ∧ ∀ j, (j < k')%nat → ends j = false.
Proof.
  intros Hk.
  destruct (first_end_below ends (S k)) as [(k' & Hlt & Hk' & Hmin)|Hnone].
  - exists k'. split; [lia|done].
  - rewrite Hnone in Hk by lia. done.
Qed.

Lemma run_seller_get_product_list last_id client_id seller_token w σ p :
  server w (sent σ) (OzonProductList client_id seller_token last_id)
  = Reply (OzonResult p) →
  Seller.get_product_list last_id client_id seller_token w σ
  = (Ok (Some (OzonResult p)),
     add_sent [OzonProductList client_id seller_token last_id] σ).
Proof.
  intros H. unfold Seller.get_product_list, http. rewrite !run_bind.
  by rewrite H.
Qed.

Lemma run_market_get_product_list page campaign_id market_token w σ p :
  server w (sent σ) (YandexOfferMappingEntries campaign_id market_token page)
  = Reply (YandexResult p) →
  Market.get_product_list page campaign_id market_token w σ
  = (Ok (Some (YandexResult p)),
     add_sent [YandexOfferMappingEntries campaign_id market_token page] σ).
Proof.
  intros H. unfold Market.get_product_list, http. rewrite !run_bind.
  by rewrite H.
Qed.

(** The seller loop, started with [acc] entries in hand, runs through the
    pages up to the first one whose total is the size of what it has. *)
Lemma run_seller_loop client_id seller_token w : ∀ k ps acc last_id σ fuel p,
  answers w (sent σ) (seller_requests client_id seller_token last_id ps)
          (map OzonResult ps) →
  (∀ j q, j < k → ps !! j = Some q →
     Ozon.total q
     ≠ Some (Z.of_nat (length (acc ++ seller_entries ps j))))%nat →
  ps !! k = Some p →
  Ozon.total p = Some (Z.of_nat (length (acc ++ seller_entries ps k))) →
  (k < fuel)%nat →
  Seller.get_offer_ids_loop fuel client_id seller_token last_id acc w σ
  = (Ok (acc ++ seller_entries ps k),
     add_sent (take (S k) (seller_requests client_id seller_token last_id ps)) σ).
Proof.
  induction k as [|k IH]; intros ps acc last_id σ fuel p Hans Hnot Hk Hend Hfuel;
    (destruct fuel as [|fuel]; [lia|]);
    (destruct ps as [|p0 ps]; [done|]);
    simpl in Hans; destruct Hans as [Hp0 Hans];
    simpl; rewrite run_bind, (run_seller_get_product_list _ _ _ _ _ _ Hp0).
  - injection Hk as ->. unfold seller_entries in *. simpl in *.
    rewrite app_nil_r in *. by rewrite decide_True by done.
  - unfold seller_entries in *. simpl in Hk.
    rewrite decide_False.
    2:{ specialize (Hnot 0%nat p0 ltac:(lia) eq_refl). simpl in Hnot.
        by rewrite app_nil_r in Hnot. }
    rewrite (IH ps (acc ++ Ozon.items p0) (Ozon.last_id p0) _ fuel p);
      try done; try lia.
    + simpl. rewrite add_sent_add_sent. by rewrite <- app_assoc.
    + intros j q Hj Hq. specialize (Hnot (S j) q ltac:(lia) Hq).
      simpl in Hnot. by rewrite <- app_assoc.
    + simpl in Hend. by rewrite <- app_assoc.
Qed.

Lemma run_market_loop campaign_id market_token w : ∀ k ps acc page σ fuel p,
  answers w (sent σ) (market_requests campaign_id market_token page ps)
          (map YandexResult ps) →
  (∀ j q, j < k → ps !! j = Some q →
     Market.falsy (Yandex.nextPageToken (Yandex.paging q)) = false)%nat →
  ps !! k = Some p →
  Market.falsy (Yandex.nextPageToken (Yandex.paging p)) = true →
  (k < fuel)%nat →
  Market.get_offer_ids_loop fuel campaign_id market_token page acc w σ
  = (Ok (acc ++ market_entries ps k),
     add_sent (take (S k) (market_requests campaign_id market_token page ps)) σ).
Proof.
  induction k as [|k IH]; intros ps acc page σ fuel p Hans Hnot Hk Hend Hfuel;
    (destruct fuel as [|fuel]; [lia|]);
    (destruct ps as [|p0 ps]; [done|]);
    simpl in Hans; destruct Hans as [Hp0 Hans];
    simpl; rewrite run_bind, (run_market_get_product_list _ _ _ _ _ _ Hp0).
  - injection Hk as ->. unfold market_entries. simpl.
    rewrite app_nil_r. by rewrite Hend.
  - unfold market_entries in *. simpl in Hk.
    rewrite (Hnot 0%nat p0 ltac:(lia) eq_refl).
    rewrite (IH ps (acc ++ Yandex.offerMappingEntries p0)
               (default "" (Yandex.nextPageToken (Yandex.paging p0))) _ fuel p);
      try done; try lia.
    + simpl. rewrite add_sent_add_sent. by rewrite <- app_assoc.
    + intros j q Hj Hq. by apply (Hnot (S j) q ltac:(lia)).
Qed.

Lemma market_ends_falsy ps k :
  market_ends ps k
  = match ps !! k with
    | Some p => Market.falsy (Yandex.nextPageToken (Yandex.paging p))
    | None => false
    end.
Proof.
  unfold market_ends, Market.falsy. destruct (ps !! k) as [p|]; [|done].
  destruct (Yandex.nextPageToken (Yandex.paging p)) as [token|]; [|done].
  destruct (String.eqb_spec token "") as [->|Hne]; [done|].
  by rewrite bool_decide_eq_false_2.
Qed.

(** C9: when the pages the server hands out (each asked for with the
    cursor of the one before) include one that signals the end,
    [get_offer_ids] returns for every amount of fuel beyond the first
    such page [k']: it has made the [k' + 1] requests and no other, and
    its list holds the offer ids of the entries of the pages [0..k'], in
    page order and in the order within each page, repetitions kept.
    Seller variant and market variant. *)
Theorem get_offer_ids_terminates (w : World) (σ : State)
    (client_id token : string) (ps : list Ozon.Page) (qs : list Yandex.Page)
    (k : nat) :
  (answers w (sent σ) (seller_requests client_id token "" ps)
           (map OzonResult ps) →
   seller_ends ps k = true →
   ∃ k', (k' ≤ k)%nat ∧ seller_ends ps k' = true
     ∧ ∀ fuel, (k' < fuel)%nat →
         ∃ l σ',
           Seller.get_offer_ids fuel client_id token w σ = (Ok l, σ')
           ∧ heap σ' !! l
             = Some (map Ozon.Product.offer_id (seller_entries ps k'))
           ∧ sent σ'
             = sent σ ++ take (S k') (seller_requests client_id token "" ps))
  ∧ (answers w (sent σ) (market_requests client_id token "" qs)
             (map YandexResult qs) →
     market_ends qs k = true →
     ∃ k', (k' ≤ k)%nat ∧ market_ends qs k' = true
       ∧ ∀ fuel, (k' < fuel)%nat →
           ∃ l σ',
             Market.get_offer_ids fuel client_id token w σ = (Ok l, σ')
             ∧ heap σ' !! l
               = Some (map (fun e => Yandex.Offer.shopSku (Yandex.Entry.offer e))
                           (market_entries qs k'))
             ∧ sent σ'
               = sent σ ++ take (S k') (market_requests client_id token "" qs)).
Proof.
  split.
  - intros Hans Hk.
    destruct (least_end (seller_ends ps) k Hk) as (k' & Hle & Hk' & Hmin).
    exists k'. split; [done|]. split; [done|]. intros fuel Hfuel.
    unfold seller_ends in Hk'.
    destruct (ps !! k') as [p|] eqn:Hp; [|done].
    apply bool_decide_eq_true in Hk'.
    unfold Seller.get_offer_ids. rewrite run_bind.
    rewrite (run_seller_loop client_id token w k' ps [] "" σ fuel p);
      try done.
    + unfold new_list. do 2 eexists. split; [done|]. simpl.
      by rewrite lookup_insert_eq.
    + intros j q Hj Hq. specialize (Hmin j Hj). unfold seller_ends in Hmin.
      rewrite Hq in Hmin. by apply bool_decide_eq_false in Hmin.
  - intros Hans Hk.
    destruct (least_end (market_ends qs) k Hk) as (k' & Hle & Hk' & Hmin).
    exists k'. split; [done|]. split; [done|]. intros fuel Hfuel.
    pose proof Hk' as Hk''. rewrite market_ends_falsy in Hk''.
    destruct (qs !! k') as [p|] eqn:Hp; [|done].
    unfold Market.get_offer_ids. rewrite run_bind.
    rewrite (run_market_loop client_id token w k' qs [] "" σ fuel p);
      try done.
    + unfold new_list. do 2 eexists. split; [done|]. simpl.
      by rewrite lookup_insert_eq.
    + intros j q Hj Hq. specialize (Hmin j Hj).
      rewrite market_ends_falsy, Hq in Hmin. done.
Qed.

(** ** The upload loop *)

Section Submit.
Context {A : Type} (request_of : A → Request).

(** One update: the request, [raise_for_status], [response.json()]. *)
Lemma run_update_accepted w σ batch :
  refusal (server w (sent σ) (request_of batch)) = None →
  ∃ body,
    (response ← http (request_of batch); lift (response_json response)) w σ
    = (Ok body, add_sent [request_of batch] σ).
Proof.
  intros H. rewrite run_bind. unfold http, lift.
  destruct (server w (sent σ) (request_of batch)) as [body|e]; [|done].
  simpl in H. exists body. by destruct body.
Qed.

Lemma run_update_refused w σ batch e :
  refusal (server w (sent σ) (request_of batch)) = Some e →
  (response ← http (request_of batch); lift (response_json response)) w σ
  = (Raise e, add_sent [request_of batch] σ).
Proof.
  intros H. rewrite run_bind. unfold http, lift.
  destruct (server w (sent σ) (request_of batch)) as [body|e'];
    [|by injection H as ->].
  simpl in H. destruct body; simpl in *; congruence.
Qed.

Lemma for_each_accepted w : ∀ batches σ,
  accepted w (sent σ) (map request_of batches) →
  for_each (fun batch =>
              _ ← (response ← http (request_of batch);
                   lift (response_json response));
              mret tt) batches w σ
  = (Ok tt, add_sent (map request_of batches) σ).
Proof.
  induction batches as [|batch batches IH]; intros σ Hacc; simpl.
  - destruct σ. unfold add_sent. simpl. by rewrite app_nil_r.
  - destruct Hacc as [Hb Hacc].
    destruct (run_update_accepted w σ batch Hb) as [body Hrun].
    rewrite run_bind, run_bind, Hrun. simpl.
    rewrite IH; [|done]. by rewrite add_sent_add_sent.
Qed.

Lemma for_each_refused w : ∀ pre batch post e σ,
  accepted w (sent σ) (map request_of pre) →
  refusal (server w (sent σ ++ map request_of pre) (request_of batch)) = Some e →
  for_each (fun batch =>
              _ ← (response ← http (request_of batch);
                   lift (response_json response));
              mret tt) (pre ++ batch :: post) w σ
  = (Raise e, add_sent (map request_of (pre ++ [batch])) σ).
Proof.
  induction pre as [|b pre IH]; intros batch post e σ Hacc Hfail; simpl.
  - simpl in Hfail. rewrite app_nil_r in Hfail.
    by rewrite run_bind, run_bind, (run_update_refused w σ batch e Hfail).
  - destruct Hacc as [Hb Hacc].
    destruct (run_update_accepted w σ b Hb) as [body Hrun].
    rewrite run_bind, run_bind, Hrun. simpl.
    rewrite (IH batch post e); [by rewrite add_sent_add_sent|done|].
    simpl. by rewrite <- app_assoc.
Qed.
End Submit.

Lemma length_chunk {A} (lst : list A) (k i : nat) (c : list A) :
  (0 < k)%nat → chunks lst k !! i = Some c →
  Z.of_nat (length c)
  = Z.min (Z.of_nat k) (Z.of_nat (length lst) - Z.of_nat i * Z.of_nat k).
Proof.
  intros Hk Hc. pose proof (lookup_lt_Some _ _ _ Hc) as Hi.
  rewrite (lookup_chunks _ _ _ _ Hc), length_take, length_drop.
  pose proof (length_chunks lst k Hk) as Hlen.
  pose proof (ceil_bounds (Z.of_nat (length lst)) (Z.of_nat k)
                ltac:(lia) ltac:(lia)) as (H0 & H1 & H2).
  rewrite <- Hlen in H2. nia.
Qed.

(** C2: the reconciled stock list of length L is uploaded in the
    ceil(L/n) batches of [divide], batch [i] having min(n, L - i*n)
    records; the requests are made one after the other in that order.
    When the server accepts them all, each has been made once and
    [upload_stocks] returns; when the answer to request [k] is the first
    refusal (an exception of the transport, a status that is not 2xx, or
    a body that [response.json()] cannot read), the requests made are
    those up to [k], none after it, and its exception is what
    [upload_stocks] raises. *)
Theorem upload_stocks_batches (n : Z) (fuel : nat) (rows : list Watch)
    (client_id seller_token : string) (w : World) (σ σ1 : State)
    (stocks : list Ozon.Stock.t) :
  0 < n →
  Seller.reconciled_stocks fuel rows client_id seller_token w σ = (Ok stocks, σ1) →
  ∃ batches,
    let requests := map (OzonImportStocks client_id seller_token) batches in
    divide stocks n = Ok batches
    ∧ Z.of_nat (length batches) = (Z.of_nat (length stocks) + n - 1) / n
    ∧ (∀ i batch, batches !! i = Some batch →
         Z.of_nat (length batch)
         = Z.min n (Z.of_nat (length stocks) - Z.of_nat i * n))
    ∧ (accepted w (sent σ1) requests →
       Seller.upload_stocks_by n fuel rows client_id seller_token w σ
       = (Ok (filter (fun stock => Ozon.Stock.stock stock ≠ 0) stocks, stocks),
          add_sent requests σ1))
    ∧ (∀ k request e,
         requests !! k = Some request →
         accepted w (sent σ1) (take k requests) →
         refusal (server w (sent σ1 ++ take k requests) request) = Some e →
         Seller.upload_stocks_by n fuel rows client_id seller_token w σ
         = (Raise e, add_sent (take (S k) requests) σ1)).
Proof.
  intros Hn Hrec. exists (chunks stocks (Z.to_nat n)).
  assert (Hk : (0 < Z.to_nat n)%nat) by lia.
  pose proof (divide_chunks stocks n Hn) as Hdiv.
  split; [done|].
  split; [rewrite length_chunks by done; by rewrite Z2Nat.id by lia|].
  split; [intros i batch Hb; rewrite (length_chunk _ _ _ _ Hk Hb);
          by rewrite Z2Nat.id by lia|].
  split.
  - intros Hacc. unfold Seller.upload_stocks_by.
    rewrite run_bind, Hrec. rewrite run_bind. unfold lift at 1. rewrite Hdiv.
    rewrite run_bind. unfold Seller.update_stocks.
    by rewrite (for_each_accepted _ w _ σ1 Hacc).
  - intros k request e Hk' Hacc Hfail. unfold Seller.upload_stocks_by.
    rewrite run_bind, Hrec. rewrite run_bind. unfold lift at 1. rewrite Hdiv.
    rewrite run_bind. unfold Seller.update_stocks.
    rewrite list_lookup_fmap in Hk'.
    apply fmap_Some in Hk' as (batch & Hbatch & ->).
    rewrite <- (take_drop_middle _ _ _ Hbatch) at 1.
    rewrite <- fmap_take in Hacc, Hfail.
    rewrite (for_each_refused _ w _ _ _ e σ1 Hacc Hfail).
    do 2 f_equal. rewrite <- fmap_take. f_equal.
    by erewrite take_S_r.
Qed.

(** ** The quantity normaliser *)

Lemma digit_not_space c : Py.is_digit c = true → Py.is_space c = false.
Proof.
  destruct c as [[] [] [] [] [] [] [] []]; vm_compute; congruence.
Qed.

Lemma lstrip_spaces ws s :
  forallb Py.is_space ws = true → Py.lstrip (ws ++ s) = Py.lstrip s.
Proof.
  induction ws as [|c ws IH]; simpl; [done|].
  intros [Hc Hws]%andb_prop. rewrite Hc. by apply IH.
Qed.

Lemma lstrip_head c s : Py.is_space c = false → Py.lstrip (c :: s) = c :: s.
Proof. intros H. simpl. by rewrite H. Qed.

(** White space around a body that neither starts nor ends with white
    space is what [strip] takes away. *)
Lemma strip_body ws1 ws2 c s d s' :
  forallb Py.is_space ws1 = true → forallb Py.is_space ws2 = true →
  Py.is_space c = false → Py.is_space d = false →
  rev (c :: s) = d :: s' →
  Py.strip (ws1 ++ (c :: s) ++ ws2) = c :: s.
Proof.
  intros H1 H2 Hc Hd Hrev. unfold Py.strip.
  rewrite (lstrip_spaces _ _ H1). simpl app at 1. rewrite (lstrip_head _ _ Hc).
  change (c :: s ++ ws2) with ((c :: s) ++ ws2).
  rewrite rev_app_distr, lstrip_spaces.
  - rewrite Hrev, (lstrip_head _ _ Hd). rewrite <- Hrev. apply rev_involutive.
  - apply forallb_forall. intros x Hx. apply in_rev in Hx.
    by apply (proj1 (forallb_forall _ _) H2).
Qed.

Lemma rev_digits_head ds pre :
  ds ≠ [] → forallb Py.is_digit ds = true →
  ∃ d s', rev (pre ++ ds) = d :: s' ∧ Py.is_digit d = true.
Proof.
  intros Hne Hds.
  destruct (rev ds) as [|d s'] eqn:E.
  - apply (f_equal (@rev _)) in E. rewrite rev_involutive in E. done.
  - exists d, (s' ++ rev pre). rewrite rev_app_distr, E. split; [done|].
    apply (proj1 (forallb_forall _ _) Hds). apply in_rev. rewrite E. by left.
Qed.

Lemma digits_all_digits s : ∀ acc prev,
  forallb Py.is_digit s = true → s ≠ [] ∨ prev = true →
  Py.digits acc prev s
  = Some (fold_left (fun acc c => 10 * acc + Py.digit_value c) s acc).
Proof.
  induction s as [|c s IH]; intros acc prev Hs Hne; simpl.
  - destruct Hne as [?| ->]; done.
  - simpl in Hs. apply andb_prop in Hs as [Hc Hs]. rewrite Hc.
    apply IH; [done | by right].
Qed.

Lemma digits_rejects c s : ∀ acc prev,
  In c s → Py.is_digit c = false → c ≠ "_"%char → Py.digits acc prev s = None.
Proof.
  induction s as [|x s IH]; intros acc prev Hin Hd Hu; simpl; [done|].
  destruct Hin as [->|Hin].
  - rewrite Hd. apply Ascii.eqb_neq in Hu. by rewrite Hu.
  - destruct (Py.is_digit x); [by apply IH|].
    destruct (Ascii.eqb x "_" && prev)%bool; [by apply IH | done].
Qed.

(** Text below U+007F is its own ASCII form. *)
Lemma decode_plain (l : list ascii) :
  forallb plain l = true → map Py.to_ascii (Py.decode l) = l.
Proof.
  induction l as [|c l IH]; simpl; [done|].
  intros [Hc Hl]%andb_prop. unfold plain in Hc.
  apply N.ltb_lt in Hc.
  destruct (N.ltb_spec (N_of_ascii c) 128) as [_|Hge]; [|lia].
  simpl. rewrite IH by done. f_equal.
  unfold Py.to_ascii. destruct (N.ltb_spec (N_of_ascii c) 127); [|lia].
  apply ascii_N_embedding.
Qed.

Lemma ascii_form_plain (l : list ascii) :
  forallb plain l = true → Py.ascii_form (string_of_list_ascii l) = l.
Proof.
  intros H. unfold Py.ascii_form.
  rewrite list_ascii_of_string_of_list_ascii. by apply decode_plain.
Qed.

Lemma digit_plain c : Py.is_digit c = true → plain c = true.
Proof. destruct c as [[] [] [] [] [] [] [] []]; vm_compute; congruence. Qed.

Lemma space_plain c : Py.is_space c = true → plain c = true.
Proof. destruct c as [[] [] [] [] [] [] [] []]; vm_compute; congruence. Qed.

Lemma forallb_plain_digits ds : forallb Py.is_digit ds = true → forallb plain ds = true.
Proof.
  rewrite !forallb_forall. intros H c Hc. by apply digit_plain, H.
Qed.

Lemma forallb_plain_spaces ws : forallb Py.is_space ws = true → forallb plain ws = true.
Proof.
  rewrite !forallb_forall. intros H c Hc. by apply space_plain, H.
Qed.

Lemma filter_digit_spaces ws :
  forallb Py.is_space ws = true → List.filter Py.is_digit ws = [].
Proof.
  induction ws as [|c ws IH]; simpl; [done|].
  intros [Hc Hws]%andb_prop.
  destruct (Py.is_digit c) eqn:E; [|by apply IH].
  apply digit_not_space in E. congruence.
Qed.

Lemma filter_digit_digits ds :
  forallb Py.is_digit ds = true → List.filter Py.is_digit ds = ds.
Proof.
  induction ds as [|c ds IH]; simpl; [done|].
  intros [Hc Hds]%andb_prop. by rewrite Hc, IH.
Qed.

(** The three cases of [int] on the first character of the stripped
    text, and the limit on the number of digits. *)
Lemma int_sign_cases (s : string) :
  Py.int s
  = match
      match Py.strip (Py.ascii_form s) with
      | [] => None
      | x :: r =>
          if Ascii.eqb x "+" then Py.digits 0 false r
          else if Ascii.eqb x "-" then Z.opp <$> Py.digits 0 false r
          else Py.digits 0 false (x :: r)
      end
    with
    | Some z =>
        if (length (List.filter Py.is_digit (Py.strip (Py.ascii_form s)))
            <=? Py.int_max_str_digits)%nat
        then Ok z else Raise ValueError
    | None => Raise ValueError
    end.
Proof.
  unfold Py.int. destruct (Py.strip (Py.ascii_form s)) as [|x r]; [done|].
  destruct x as [[] [] [] [] [] [] [] []]; reflexivity.
Qed.

Lemma in_lstrip c s : In c s → Py.is_space c = false → In c (Py.lstrip s).
Proof.
  induction s as [|x s IH]; intros Hin Hc; simpl; [done|].
  destruct (Py.is_space x) eqn:E; [|done].
  destruct Hin as [->|Hin]; [congruence | by apply IH].
Qed.

Lemma in_strip c s : In c s → Py.is_space c = false → In c (Py.strip s).
Proof.
  intros Hin Hc. unfold Py.strip.
  apply in_rev. rewrite rev_involutive.
  apply in_lstrip; [|done]. apply in_rev. rewrite rev_involutive.
  by apply in_lstrip.
Qed.

(** [int] on white space, an optional sign, digits, white space: the
    stripped text, what it parses to, and how many digits it has. *)
Lemma int_on_literal (ws1 ws2 ds sign : list ascii) (value : Z) :
  forallb Py.is_space ws1 = true → forallb Py.is_space ws2 = true →
  ds ≠ [] → forallb Py.is_digit ds = true →
  (sign = [] ∧ value = decimal_value ds
   ∨ sign = ["+"%char] ∧ value = decimal_value ds
   ∨ sign = ["-"%char] ∧ value = - decimal_value ds) →
  Py.int (string_of_list_ascii (ws1 ++ (sign ++ ds) ++ ws2))
  = if (length ds <=? Py.int_max_str_digits)%nat then Ok value
    else Raise ValueError.
Proof.
  intros H1 H2 Hne Hds Hsign.
  assert (Hparse : Py.digits 0 false ds = Some (decimal_value ds))
    by (apply digits_all_digits; [done | by left]).
  assert (Hplain : forallb plain (ws1 ++ (sign ++ ds) ++ ws2) = true).
  { rewrite !forallb_app, (forallb_plain_spaces _ H1),
      (forallb_plain_spaces _ H2), (forallb_plain_digits _ Hds).
    by destruct Hsign as [[-> _]|[[-> _]|[-> _]]]. }
  rewrite int_sign_cases, (ascii_form_plain _ Hplain).
  destruct Hsign as [[-> ->]|[[-> ->]|[-> ->]]].
  - change ([] ++ ds) with ds.
    destruct ds as [|c s] eqn:E; [done|]. rewrite <- E in Hparse.
    destruct (rev_digits_head (c :: s) [] ltac:(done) Hds) as (d & s' & Hrev & Hd).
    pose proof Hds as Hc. simpl in Hc. apply andb_prop in Hc as [Hc _].
    rewrite (strip_body ws1 ws2 c s d s' H1 H2 (digit_not_space _ Hc)
               (digit_not_space _ Hd) Hrev).
    rewrite (filter_digit_digits _ Hds).
    rewrite <- E, Hparse. subst ds.
    destruct c as [[] [] [] [] [] [] [] []]; try (vm_compute in Hc; congruence);
      reflexivity.
  - change (["+"%char] ++ ds) with ("+"%char :: ds).
    destruct (rev_digits_head ds ["+"%char] Hne Hds) as (d & s' & Hrev & Hd).
    rewrite (strip_body ws1 ws2 "+" ds d s' H1 H2 eq_refl
               (digit_not_space _ Hd) Hrev).
    simpl. by rewrite Hparse, (filter_digit_digits _ Hds).
  - change (["-"%char] ++ ds) with ("-"%char :: ds).
    destruct (rev_digits_head ds ["-"%char] Hne Hds) as (d & s' & Hrev & Hd).
    rewrite (strip_body ws1 ws2 "-" ds d s' H1 H2 eq_refl
               (digit_not_space _ Hd) Hrev).
    simpl. by rewrite Hparse, (filter_digit_digits _ Hds).
Qed.

(** What [int] reads: white space, an optional sign, digits, not more
    than the limit allows. *)
Lemma int_literal (ws1 ws2 ds : list ascii) :
  forallb Py.is_space ws1 = true → forallb Py.is_space ws2 = true →
  ds ≠ [] → forallb Py.is_digit ds = true →
  (length ds ≤ Py.int_max_str_digits)%nat →
  Py.int (string_of_list_ascii (ws1 ++ ds ++ ws2)) = Ok (decimal_value ds)
  ∧ Py.int (string_of_list_ascii (ws1 ++ ("+"%char :: ds) ++ ws2))
    = Ok (decimal_value ds)
  ∧ Py.int (string_of_list_ascii (ws1 ++ ("-"%char :: ds) ++ ws2))
    = Ok (- decimal_value ds).
Proof.
  intros H1 H2 Hne Hds Hlen. apply Nat.leb_le in Hlen.
  split; [|split].
  - pose proof (int_on_literal ws1 ws2 ds [] (decimal_value ds) H1 H2 Hne Hds
                  ltac:(auto)) as H.
    rewrite Hlen in H. exact H.
  - pose proof (int_on_literal ws1 ws2 ds ["+"%char] (decimal_value ds) H1 H2 Hne Hds
                  ltac:(auto)) as H.
    rewrite Hlen in H. exact H.
  - pose proof (int_on_literal ws1 ws2 ds ["-"%char] (- decimal_value ds) H1 H2 Hne Hds
                  ltac:(auto)) as H.
    rewrite Hlen in H. exact H.
Qed.

(** A number with more digits than the limit allows is refused. *)
Lemma int_too_long (ws1 ws2 ds : list ascii) :
  forallb Py.is_space ws1 = true → forallb Py.is_space ws2 = true →
  forallb Py.is_digit ds = true →
  (Py.int_max_str_digits < length ds)%nat →
  Py.int (string_of_list_ascii (ws1 ++ ds ++ ws2)) = Raise ValueError
  ∧ Py.int (string_of_list_ascii (ws1 ++ ("+"%char :: ds) ++ ws2))
    = Raise ValueError
  ∧ Py.int (string_of_list_ascii (ws1 ++ ("-"%char :: ds) ++ ws2))
    = Raise ValueError.
Proof.
  intros H1 H2 Hds Hlen.
  assert (Hne : ds ≠ []) by (intros ->; simpl in Hlen; lia).
  apply Nat.leb_gt in Hlen.
  split; [|split].
  - pose proof (int_on_literal ws1 ws2 ds [] (decimal_value ds) H1 H2 Hne Hds
                  ltac:(auto)) as H.
    rewrite Hlen in H. exact H.
  - pose proof (int_on_literal ws1 ws2 ds ["+"%char] (decimal_value ds) H1 H2 Hne Hds
                  ltac:(auto)) as H.
    rewrite Hlen in H. exact H.
  - pose proof (int_on_literal ws1 ws2 ds ["-"%char] (- decimal_value ds) H1 H2 Hne Hds
                  ltac:(auto)) as H.
    rewrite Hlen in H. exact H.
Qed.

(** What [int] refuses: any text whose ASCII form has a character that
    is neither white space, nor a sign, nor a digit, nor an underscore. *)
Lemma int_rejects (t : string) (c : ascii) :
  In c (Py.ascii_form t) →
  Py.is_space c = false → Py.is_digit c = false →
  c ≠ "+"%char → c ≠ "-"%char → c ≠ "_"%char →
  Py.int t = Raise ValueError.
Proof.
  intros Hin Hs Hd Hplus Hminus Hu. rewrite int_sign_cases.
  pose proof (in_strip c _ Hin Hs) as Hbody.
  destruct (Py.strip (Py.ascii_form t)) as [|x r]; [done|].
  destruct (Ascii.eqb_spec x "+") as [->|_].
  - destruct Hbody as [<-|Hr]; [done|].
    by rewrite (digits_rejects c r 0 false Hr Hd Hu).
  - destruct (Ascii.eqb_spec x "-") as [->|_].
    + destruct Hbody as [<-|Hr]; [done|].
      by rewrite (digits_rejects c r 0 false Hr Hd Hu).
    + by rewrite (digits_rejects c (x :: r) 0 false Hbody Hd Hu).
Qed.

(** C3: the quantity branch of [create_stocks] gives 100 for [">10"],
    0 for ["1"], and for any other token what [int] gives: the value in
    base 10 of a run of digits, signed or not, with white space around
    it or not (7 for ["7"], 3 for the Arabic-Indic digit three);
    [ValueError] and no other exception otherwise, so for every token
    whose ASCII form has a character that no integer literal has, and
    for a number of more digits than the interpreter allows.  A matched
    row carries the count into its stock record, and the exception
    leaves [create_stocks]. *)
Theorem quantity_normalizer (t : string) :
  stock_of_count ">10" = Ok 100
  ∧ stock_of_count "1" = Ok 0
  ∧ stock_of_count "7" = Ok 7
  ∧ (t ≠ ">10" → t ≠ "1" → stock_of_count t = Py.int t)
  ∧ ((∃ z, stock_of_count t = Ok z) ∨ stock_of_count t = Raise ValueError)
  ∧ (∀ ws1 ws2 ds,
       forallb Py.is_space ws1 = true → forallb Py.is_space ws2 = true →
       ds ≠ [] → forallb Py.is_digit ds = true →
       (length ds ≤ Py.int_max_str_digits)%nat →
       Py.int (string_of_list_ascii (ws1 ++ ds ++ ws2)) = Ok (decimal_value ds)
       ∧ Py.int (string_of_list_ascii (ws1 ++ ("+"%char :: ds) ++ ws2))
         = Ok (decimal_value ds)
       ∧ Py.int (string_of_list_ascii (ws1 ++ ("-"%char :: ds) ++ ws2))
         = Ok (- decimal_value ds))
  ∧ (∀ ws1 ws2 ds,
       forallb Py.is_space ws1 = true → forallb Py.is_space ws2 = true →
       forallb Py.is_digit ds = true →
       (Py.int_max_str_digits < length ds)%nat →
       Py.int (string_of_list_ascii (ws1 ++ ds ++ ws2)) = Raise ValueError
       ∧ Py.int (string_of_list_ascii (ws1 ++ ("+"%char :: ds) ++ ws2))
         = Raise ValueError
       ∧ Py.int (string_of_list_ascii (ws1 ++ ("-"%char :: ds) ++ ws2))
         = Raise ValueError)
  ∧ (forallb plain (list_ascii_of_string t) = true →
     Py.ascii_form t = list_ascii_of_string t)
  ∧ (∀ c, t ≠ ">10" → In c (Py.ascii_form t) →
          Py.is_space c = false → Py.is_digit c = false →
          c ≠ "+"%char → c ≠ "-"%char → c ≠ "_"%char →
          stock_of_count t = Raise ValueError)
  ∧ stock_of_count "5.0" = Raise ValueError
  ∧ stock_of_count "" = Raise ValueError
  ∧ stock_of_count "٣" = Ok 3
  ∧ stock_of_count "١_٢" = Ok 12
  ∧ stock_of_count "٣x" = Raise ValueError
  ∧ (∀ code price l w σ,
       heap σ !! l = Some [code] →
       (Seller.create_stocks [feed_row code t price] l w σ).1
       = Result_bind (fun stock => Ok [ {| Ozon.Stock.offer_id := code;
                                           Ozon.Stock.stock := stock |} ])
                     (stock_of_count t))
  ∧ (∀ code price l warehouse_id w σ,
       heap σ !! l = Some [code] →
       (Market.create_stocks [feed_row code t price] l warehouse_id w σ).1
       = Result_bind
           (fun stock =>
              Ok [ {| Yandex.Stock.sku := code;
                      Yandex.Stock.warehouseId := warehouse_id;
                      Yandex.Stock.items :=
                        [ {| Yandex.Item.count := stock;
                             Yandex.Item.type := "FIT";
                             Yandex.Item.updatedAt := utcnow w |} ] |} ])
           (stock_of_count t)).
Proof.
  do 3 (split; [reflexivity|]).
  split.
  { intros H1 H2. unfold stock_of_count.
    apply String.eqb_neq in H1, H2. by rewrite H1, H2. }
  split; [apply stock_of_count_result|].
  split; [apply int_literal|].
  split; [apply int_too_long|].
  split.
  { intros Hplain. rewrite <- (string_of_list_ascii_of_string t) at 1.
    by apply ascii_form_plain. }
  split.
  { intros c Ht Hin Hs Hd Hplus Hminus Hu. unfold stock_of_count.
    destruct (String.eqb_spec t ">10") as [->|_]; [done|].
    destruct (String.eqb_spec t "1") as [->|_].
    { simpl in Hin. destruct Hin as [<-|[]]; done. }
    by eapply int_rejects. }
  do 5 (split; [reflexivity|]).
  split.
  - intros code price l w σ H.
    pose proof (run_create_stocks_with
                  (fun offer_id stock => {| Ozon.Stock.offer_id := offer_id;
                                            Ozon.Stock.stock := stock |})
                  l [feed_row code t price] [code] w σ H) as Hrun.
    simpl in Hrun. rewrite String.eqb_refl in Hrun. simpl in Hrun.
    unfold Seller.create_stocks.
    destruct (stock_of_count t) as [stock|e|]; simpl in *.
    + by rewrite Hrun.
    + by destruct Hrun as [σ' ->].
    + by destruct Hrun as [σ' ->].
  - intros code price l warehouse_id w σ H.
    pose proof (run_create_stocks_with
                  (fun offer_id stock =>
                     {| Yandex.Stock.sku := offer_id;
                        Yandex.Stock.warehouseId := warehouse_id;
                        Yandex.Stock.items :=
                          [ {| Yandex.Item.count := stock;
                               Yandex.Item.type := "FIT";
                               Yandex.Item.updatedAt := utcnow w |} ] |})
                  l [feed_row code t price] [code] w σ H) as Hrun.
    simpl in Hrun. rewrite String.eqb_refl in Hrun. simpl in Hrun.
    unfold Market.create_stocks, now. rewrite run_bind.
    destruct (stock_of_count t) as [stock|e|]; simpl in *.
    + by rewrite Hrun.
    + by destruct Hrun as [σ' ->].
    + by destruct Hrun as [σ' ->].
Qed.

Lemma quantity_normalizer_witness :
  stock_of_count "12" = Ok 12
  ∧ stock_of_count " -12 " = Ok (-12)
  ∧ stock_of_count "12 шт" = Raise ValueError
  ∧ (Seller.create_stocks [feed_row "123-ABC" "12" ""] 0%nat twice_listed
                          (offers_at_0 ["123-ABC"])).1
    = Ok [ {| Ozon.Stock.offer_id := "123-ABC"; Ozon.Stock.stock := 12 |} ].
Proof.
  destruct (quantity_normalizer "12")
    as (_ & _ & _ & Hint & _ & Hvalue & _ & _ & _ & _ & _ & _ & _ & _ & Hrun
        & _).
  destruct (quantity_normalizer " -12 ")
    as (_ & _ & _ & Hint' & _ & Hvalue' & _).
  destruct (quantity_normalizer "12 шт")
    as (_ & _ & _ & _ & _ & _ & _ & _ & Hrejects & _).
  split; [|split; [|split]].
  - rewrite Hint; [|discriminate|discriminate].
    refine (proj1 (Hvalue [] [] ["1"; "2"]%char eq_refl eq_refl _ eq_refl _)).
    + discriminate.
    + unfold Py.int_max_str_digits. simpl. lia.
  - rewrite Hint'; [|discriminate|discriminate].
    refine (proj2 (proj2 (Hvalue' [" "%char] [" "%char] ["1"; "2"]%char
                            eq_refl eq_refl _ eq_refl _))).
    + discriminate.
    + unfold Py.int_max_str_digits. simpl. lia.
  - apply (Hrejects "?"%char); try discriminate; try reflexivity.
    vm_compute. tauto.
  - rewrite (Hrun "123-ABC" "" 0%nat twice_listed (offers_at_0 ["123-ABC"]));
      reflexivity.
Defined.

(** ** The properties on concrete runs *)

Lemma create_stocks_complete_witness :
  ∃ stocks σ',
    Seller.create_stocks docstring_feed 0%nat twice_listed
      (offers_at_0 ["123-ABC"; "456-DEF"; "789-GHI"]) = (Ok stocks, σ')
    ∧ stocks = [ {| Ozon.Stock.offer_id := "123-ABC"; Ozon.Stock.stock := 5 |};
                 {| Ozon.Stock.offer_id := "456-DEF"; Ozon.Stock.stock := 100 |};
                 {| Ozon.Stock.offer_id := "789-GHI"; Ozon.Stock.stock := 0 |} ]
    ∧ reconciles Ozon.Stock.offer_id Ozon.Stock.stock docstring_feed
        ["123-ABC"; "456-DEF"; "789-GHI"] stocks.
Proof.
  destruct (create_stocks_complete docstring_feed 0%nat
              ["123-ABC"; "456-DEF"; "789-GHI"] "warehouse" twice_listed
              (offers_at_0 ["123-ABC"; "456-DEF"; "789-GHI"]) eq_refl)
    as (Htotal & Hseller & _).
  destruct Htotal as [(stocks & σ' & Hrun) _].
  { repeat constructor. }
  exists stocks, σ'. split; [exact Hrun|]. split; [|exact (Hseller _ _ Hrun)].
  vm_compute in Hrun. by injection Hrun.
Defined.

Lemma reconciler_output_order_witness :
  (∃ σ',
     Seller.create_stocks docstring_feed 0%nat twice_listed
       (offers_at_0 ["789-GHI"; "456-DEF"; "123-ABC"; "123-ABC"])
     = (Ok [ {| Ozon.Stock.offer_id := "123-ABC"; Ozon.Stock.stock := 5 |};
             {| Ozon.Stock.offer_id := "456-DEF"; Ozon.Stock.stock := 100 |};
             {| Ozon.Stock.offer_id := "789-GHI"; Ozon.Stock.stock := 0 |};
             {| Ozon.Stock.offer_id := "123-ABC"; Ozon.Stock.stock := 0 |} ],
        σ'))
  ∧ Seller.create_prices [feed_row "999-ZZZ" "3" "100.00"] 0%nat twice_listed
      (offers_at_0 ["123-ABC"])
    = (Ok [], offers_at_0 ["123-ABC"]).
Proof.
  split.
  - destruct (reconciler_output_order docstring_feed 0%nat
                ["789-GHI"; "456-DEF"; "123-ABC"; "123-ABC"] twice_listed
                (offers_at_0 ["789-GHI"; "456-DEF"; "123-ABC"; "123-ABC"])
                eq_refl)
      as (Hshape & Hreturns & _).
    destruct Hreturns as (stocks & σ' & Hrun).
    { repeat constructor. }
    destruct (Hshape stocks σ' Hrun) as (hits & -> & Hhits).
    exists σ'. rewrite Hrun. f_equal. f_equal.
    assert (served [] docstring_feed
                   ["789-GHI"; "456-DEF"; "123-ABC"; "123-ABC"]
            = docstring_feed) as Hserved by reflexivity.
    rewrite Hserved in Hhits. unfold docstring_feed in Hhits.
    apply Forall2_cons_inv_l in Hhits
      as ([id1 n1] & hits1 & [Hid1 Hn1] & Hrest & ->).
    apply Forall2_cons_inv_l in Hrest
      as ([id2 n2] & hits2 & [Hid2 Hn2] & Hnil & ->).
    apply Forall2_nil_inv_l in Hnil as ->.
    simpl in Hid1, Hid2. vm_compute in Hn1, Hn2.
    injection Hn1 as <-. injection Hn2 as <-. subst id1 id2. reflexivity.
  - destruct (reconciler_output_order [feed_row "999-ZZZ" "3" "100.00"] 0%nat
                ["123-ABC"] twice_listed (offers_at_0 ["123-ABC"]) eq_refl)
      as (_ & _ & _ & _ & _ & _ & _ & Hprices & _).
    rewrite Hprices. reflexivity.
Defined.

Lemma create_stocks_consumes_offers_witness :
  ∃ stocks σ',
    Seller.create_stocks docstring_feed 0%nat twice_listed
      (offers_at_0 ["123-ABC"; "456-DEF"; "789-GHI"]) = (Ok stocks, σ')
    ∧ heap σ' !! 0%nat = Some ["789-GHI"].
Proof.
  destruct (create_stocks_consumes_offers docstring_feed 0%nat
              ["123-ABC"; "456-DEF"; "789-GHI"] "warehouse" twice_listed
              (offers_at_0 ["123-ABC"; "456-DEF"; "789-GHI"]) eq_refl)
    as (Hseller & _ & _).
  destruct (Seller.create_stocks docstring_feed 0%nat twice_listed
              (offers_at_0 ["123-ABC"; "456-DEF"; "789-GHI"]))
    as [[stocks|e|] σ'] eqn:Hrun;
    [|vm_compute in Hrun; discriminate Hrun..].
  exists stocks, σ'. split; [reflexivity|].
  destruct (Hseller stocks σ' eq_refl) as (-> & _). reflexivity.
Defined.

Lemma get_offer_ids_terminates_witness :
  (∃ l σ',
     Seller.get_offer_ids 2 "id" "key" two_pages empty_state = (Ok l, σ')
     ∧ heap σ' !! l = Some ["123-ABC"; "456-DEF"; "456-DEF"])
  ∧ (∃ l σ',
       Market.get_offer_ids 2 "id" "key" two_pages empty_state = (Ok l, σ')
       ∧ heap σ' !! l = Some ["123-ABC"; "456-DEF"; "456-DEF"]).
Proof.
  destruct (get_offer_ids_terminates two_pages empty_state "id" "key"
              two_pages_seller two_pages_market 1) as [Hseller Hmarket].
  split.
  - destruct Hseller as (k' & Hle & Hk' & Hrun).
    { simpl. repeat split. }
    { reflexivity. }
    destruct k' as [|[|k']]; [vm_compute in Hk'; discriminate Hk'| |lia].
    destruct (Hrun 2%nat ltac:(lia)) as (l & σ' & Hget & Hheap & _).
    exists l, σ'. split; [exact Hget|]. rewrite Hheap. reflexivity.
  - destruct Hmarket as (k' & Hle & Hk' & Hrun).
    { simpl. repeat split. }
    { reflexivity. }
    destruct k' as [|[|k']]; [vm_compute in Hk'; discriminate Hk'| |lia].
    destruct (Hrun 2%nat ltac:(lia)) as (l & σ' & Hget & Hheap & _).
    exists l, σ'. split; [exact Hget|]. rewrite Hheap. reflexivity.
Defined.

Lemma upload_stocks_batches_witness :
  (∃ σ',
     Seller.upload_stocks_by 500 1 [] "id" "key" second_update_rejected
       empty_state
     = (Raise HTTPError, σ')
     ∧ map (fun request => match request with
                           | OzonImportStocks _ _ batch => length batch
                           | _ => 0%nat
                           end) (sent σ')
       = [0; 500; 500]%nat)
  ∧ (∃ σ',
       Seller.upload_stocks_by 500 1 [] "id" "key" second_update_not_json
         empty_state
       = (Raise JSONDecodeError, σ')
       ∧ map (fun request => match request with
                             | OzonImportStocks _ _ batch => length batch
                             | _ => 0%nat
                             end) (sent σ')
         = [0; 500; 500]%nat).
Proof.
  split.
  - destruct (Seller.reconciled_stocks 1 [] "id" "key" second_update_rejected
                empty_state) as [[stocks|e|] σ1] eqn:Hrec;
      [|vm_compute in Hrec; discriminate Hrec..].
    destruct (upload_stocks_batches 500 1 [] "id" "key" second_update_rejected
                empty_state σ1 stocks ltac:(lia) Hrec)
      as (batches & Hdiv & _ & _ & _ & Hfail).
    pose proof Hrec as Hrec'. vm_compute in Hrec'.
    injection Hrec' as Hstocks Hσ1. subst stocks σ1.
    vm_compute in Hdiv. injection Hdiv as Hbatches. subst batches.
    eexists. split.
    + eapply (Hfail 1%nat _ HTTPError).
      * reflexivity.
      * split; [vm_compute; reflexivity | exact I].
      * vm_compute. reflexivity.
    + vm_compute. reflexivity.
  - destruct (Seller.reconciled_stocks 1 [] "id" "key" second_update_not_json
                empty_state) as [[stocks|e|] σ1] eqn:Hrec;
      [|vm_compute in Hrec; discriminate Hrec..].
    destruct (upload_stocks_batches 500 1 [] "id" "key" second_update_not_json
                empty_state σ1 stocks ltac:(lia) Hrec)
      as (batches & Hdiv & _ & _ & _ & Hfail).
    pose proof Hrec as Hrec'. vm_compute in Hrec'.
    injection Hrec' as Hstocks Hσ1. subst stocks σ1.
    vm_compute in Hdiv. injection Hdiv as Hbatches. subst batches.
    eexists. split.
    + eapply (Hfail 1%nat _ JSONDecodeError).
      * reflexivity.
      * split; [vm_compute; reflexivity | exact I].
      * vm_compute. reflexivity.
    + vm_compute. reflexivity.
Defined.

(** * Further properties of the code *)

(** ** Orderly runs *)

Lemma replied_app w h rs1 rs2 :
  replied w h (rs1 ++ rs2) ↔ replied w h rs1 ∧ replied w (h ++ rs1) rs2.
Proof.
  revert h. induction rs1 as [|r rs1 IH]; intros h; simpl.
  - rewrite app_nil_r. tauto.
  - rewrite IH, <- app_assoc. simpl. tauto.
Qed.

Lemma orderly_silent {A} P w σ (r : Result A) :
  orderly P w σ (r, σ).
Proof.
  split; [done|]. exists []. simpl. rewrite app_nil_r.
  split; [done|]. split; [constructor | by left].
Qed.

Lemma orderly_same_trace {A} P w σ (r : Result A) σ' :
  sent σ' = sent σ → stdout σ' = stdout σ → orderly P w σ (r, σ').
Proof.
  intros Hs Ho. split; [done|]. exists []. simpl. rewrite app_nil_r.
  split; [done|]. split; [constructor | by left].
Qed.

Lemma orderly_Ok_replied {A} P w σ (a : A) σ' :
  orderly P w σ (Ok a, σ') →
  stdout σ' = stdout σ
  ∧ ∃ rs, sent σ' = sent σ ++ rs ∧ Forall P rs ∧ replied w (sent σ) rs.
Proof.
  intros [Ho (rs & Hs & HP & [Hr|(e & _ & He)])]; [|done].
  split; [done|]. by exists rs.
Qed.

Lemma always_orderly_ret {A} P (a : A) : always_orderly P (mret a).
Proof. intros w σ. apply orderly_silent. Qed.

Lemma always_orderly_raise {A} P e : always_orderly P (@raise A e).
Proof. intros w σ. apply orderly_silent. Qed.

Lemma always_orderly_out_of_fuel {A} P : always_orderly P (@out_of_fuel A).
Proof. intros w σ. apply orderly_silent. Qed.

Lemma always_orderly_lift {A} P (r : Result A) : always_orderly P (lift r).
Proof. intros w σ. apply orderly_silent. Qed.

Lemma always_orderly_load P l : always_orderly P (load l).
Proof. intros w σ. apply orderly_silent. Qed.

Lemma always_orderly_now P : always_orderly P now.
Proof. intros w σ. apply orderly_silent. Qed.

Lemma always_orderly_store P l v : always_orderly P (store l v).
Proof. intros w σ. by apply orderly_same_trace. Qed.

Lemma always_orderly_new_list P v : always_orderly P (new_list v).
Proof. intros w σ. by apply orderly_same_trace. Qed.

Lemma always_orderly_http (P : Request → Prop) r :
  P r → always_orderly P (http r).
Proof.
  intros HP w σ. unfold http, orderly.
  destruct (server w (sent σ) r) as [b|e] eqn:E; simpl;
    (split; [done|]); exists [r]; (split; [done|]);
    (split; [by repeat constructor|]).
  - left. simpl. split; [by exists b | done].
  - right. exists e. split; [|done]. exists [], r. simpl.
    rewrite app_nil_r. done.
Qed.

Lemma always_orderly_bind {A B} P (m : Prog A) (f : A → Prog B) :
  always_orderly P m → (∀ a, always_orderly P (f a)) →
  always_orderly P (m ≫= f).
Proof.
  intros Hm Hf w σ. rewrite run_bind. specialize (Hm w σ).
  destruct (m w σ) as [[a|e|] σ1].
  2:{ destruct Hm as (Ho & rs & Hs & HP & [Hr|(e' & Hlast & He)]);
        (split; [done|]); exists rs; (split; [done|]); (split; [done|]).
      - by left.
      - right. exists e'. split; [done|]. simpl in *. congruence. }
  - apply orderly_Ok_replied in Hm as (Ho1 & rs1 & Hs1 & HP1 & Hr1).
    destruct (Hf a w σ1) as (Ho2 & rs2 & Hs2 & HP2 & Hlast).
    split; [congruence|]. exists (rs1 ++ rs2).
    split; [by rewrite Hs2, Hs1, app_assoc|].
    split; [by apply Forall_app|].
    destruct Hlast as [Hr2|(e & (rs0 & r0 & -> & Hr0 & Hfail) & He)].
    + left. apply replied_app. by rewrite <- Hs1.
    + right. exists e. split; [|done]. exists (rs1 ++ rs0), r0.
      split; [by rewrite app_assoc|].
      rewrite replied_app, app_assoc, <- Hs1. done.
  - destruct Hm as (Ho & rs & Hs & HP & [Hr|(e & _ & He)]); [|done].
    split; [done|]. exists rs. split; [done|]. split; [done|]. by left.
Qed.

(** A request whose reply is read as JSON. *)
Lemma always_orderly_http_json (P : Request → Prop) r :
  P r → always_orderly P (response ← http r; lift (response_json response)).
Proof.
  intros HP. apply always_orderly_bind; [by apply always_orderly_http|].
  intros response. apply always_orderly_lift.
Qed.

Lemma always_orderly_for_each {A} P (body : A → Prog unit) (l : list A) :
  (∀ x, always_orderly P (body x)) → always_orderly P (for_each body l).
Proof.
  intros Hbody. induction l as [|x l IH]; simpl.
  - apply always_orderly_ret.
  - apply always_orderly_bind; [apply Hbody | intros _; apply IH].
Qed.

Lemma always_orderly_fold_each {A B} P (body : B → A → Prog B) (l : list A) :
  (∀ acc x, always_orderly P (body acc x)) →
  ∀ acc, always_orderly P (fold_each body acc l).
Proof.
  intros Hbody. induction l as [|x l IH]; intros acc; simpl.
  - apply always_orderly_ret.
  - apply always_orderly_bind; [apply Hbody | intros acc'; apply IH].
Qed.

Lemma always_orderly_weaken {A} (P Q : Request → Prop) (m : Prog A) :
  (∀ r, P r → Q r) → always_orderly P m → always_orderly Q m.
Proof.
  intros HPQ Hm w σ. destruct (Hm w σ) as (Ho & rs & Hs & HP & Hlast).
  split; [done|]. exists rs. split; [done|]. split; [|done].
  eapply Forall_impl; [exact HP | exact HPQ].
Qed.

Create HintDb orderly.

#[local] Hint Resolve always_orderly_ret always_orderly_raise
  always_orderly_out_of_fuel always_orderly_lift always_orderly_load
  always_orderly_now always_orderly_store always_orderly_new_list : orderly.

Ltac orderly_step :=
  first
    [ apply always_orderly_bind; [|intros ?]
    | apply always_orderly_for_each; intros ?
    | apply always_orderly_fold_each; intros ? ?
    | apply always_orderly_http
    | solve [auto with orderly] ].

(** *** The functions of both files make their requests in order *)

Section Orderly.
Context (P : Request → Prop).

Lemma always_orderly_list_contains l x : always_orderly P (list_contains l x).
Proof. unfold list_contains. repeat orderly_step. Qed.

Lemma always_orderly_list_remove l x : always_orderly P (list_remove l x).
Proof.
  unfold list_remove. orderly_step; [auto with orderly|].
  destruct (Py.remove_first x a); auto with orderly.
Qed.

Lemma always_orderly_match_watch {R} (record : string → Z → R) l acc row :
  always_orderly P (match_watch record l acc row).
Proof.
  unfold match_watch. orderly_step; [apply always_orderly_list_contains|].
  destruct a; [|auto with orderly].
  orderly_step; [auto with orderly|].
  orderly_step; [apply always_orderly_list_remove | auto with orderly].
Qed.

Lemma always_orderly_create_stocks_with {R} (record : string → Z → R) rows l :
  always_orderly P (create_stocks_with record rows l).
Proof.
  unfold create_stocks_with.
  orderly_step; [|orderly_step; auto with orderly].
  apply always_orderly_fold_each. intros acc row.
  apply always_orderly_match_watch.
Qed.

Lemma always_orderly_seller_create_prices rows l :
  always_orderly P (Seller.create_prices rows l).
Proof.
  unfold Seller.create_prices. apply always_orderly_fold_each.
  intros acc row. unfold Seller.price_watch.
  orderly_step; [apply always_orderly_list_contains|].
  destruct a; repeat orderly_step.
Qed.

Lemma always_orderly_market_create_prices rows l :
  always_orderly P (Market.create_prices rows l).
Proof.
  unfold Market.create_prices. apply always_orderly_fold_each.
  intros acc row. unfold Market.price_watch.
  orderly_step; [apply always_orderly_list_contains|].
  destruct a; repeat orderly_step.
Qed.

Lemma always_orderly_market_create_stocks rows l warehouse_id :
  always_orderly P (Market.create_stocks rows l warehouse_id).
Proof.
  unfold Market.create_stocks. orderly_step; [auto with orderly|].
  apply always_orderly_create_stocks_with.
Qed.

Lemma always_orderly_seller_get_offer_ids fuel client_id seller_token :
  (∀ last_id, P (OzonProductList client_id seller_token last_id)) →
  always_orderly P (Seller.get_offer_ids fuel client_id seller_token).
Proof.
  intros HP. unfold Seller.get_offer_ids.
  orderly_step; [|auto with orderly].
  generalize (@nil Ozon.Product.t) as acc. generalize "" as last_id.
  induction fuel as [|fuel IH]; intros last_id acc; simpl;
    [auto with orderly|].
  orderly_step.
  - unfold Seller.get_product_list.
    orderly_step; [apply always_orderly_http, HP|].
    orderly_step; auto with orderly.
  - destruct a as [[page| | | | |]|]; auto with orderly.
    case_decide; [auto with orderly | apply IH].
Qed.

Lemma always_orderly_market_get_offer_ids fuel campaign_id market_token :
  (∀ page, P (YandexOfferMappingEntries campaign_id market_token page)) →
  always_orderly P (Market.get_offer_ids fuel campaign_id market_token).
Proof.
  intros HP. unfold Market.get_offer_ids.
  orderly_step; [|auto with orderly].
  generalize (@nil Yandex.Entry.t) as acc. generalize "" as page.
  induction fuel as [|fuel IH]; intros page acc; simpl;
    [auto with orderly|].
  orderly_step.
  - unfold Market.get_product_list.
    orderly_step; [apply always_orderly_http, HP|].
    orderly_step; auto with orderly.
  - destruct a as [[|result| | | |]|]; auto with orderly.
    destruct (Market.falsy _); [auto with orderly | apply IH].
Qed.
End Orderly.

(** ** Uploads and [main] *)

Lemma always_orderly_update_loop {A} (P : Request → Prop)
    (update : A → Prog Body) (batches : list A) :
  (∀ batch, always_orderly P (update batch)) →
  always_orderly P (for_each (fun batch => _ ← update batch; mret tt) batches).
Proof.
  intros H. apply always_orderly_for_each. intros batch.
  apply always_orderly_bind; [apply H | intros _; apply always_orderly_ret].
Qed.

Ltac orderly_bind :=
  lazymatch goal with
  | |- always_orderly _ (mbind _ _) => apply always_orderly_bind; [|intros ?]
  end.

(** X1: the four upload functions print nothing and are fail-fast: the
    requests of a run are all answered, or the last one failed and its
    exception is what the function raises, no request following it.
    [upload_stocks] makes no other requests than catalog listings and
    stock updates with its own credentials, [upload_prices] no other
    than catalog listings and price updates. *)
Theorem uploads_orderly (n : Z) (fuel : nat) (rows : list Watch)
    (id token warehouse_id : string) :
  always_orderly
    (fun r => (∃ last_id, r = OzonProductList id token last_id)
              ∨ ∃ batch, r = OzonImportStocks id token batch)
    (Seller.upload_stocks_by n fuel rows id token)
  ∧ always_orderly
      (fun r => (∃ last_id, r = OzonProductList id token last_id)
                ∨ ∃ batch, r = OzonImportPrices id token batch)
      (Seller.upload_prices_by n fuel rows id token)
  ∧ always_orderly
      (fun r => (∃ page, r = YandexOfferMappingEntries id token page)
                ∨ ∃ batch, r = YandexPutStocks id token batch)
      (Market.upload_stocks_by n fuel rows id token warehouse_id)
  ∧ always_orderly
      (fun r => (∃ page, r = YandexOfferMappingEntries id token page)
                ∨ ∃ batch, r = YandexPostPrices id token batch)
      (Market.upload_prices_by n fuel rows id token).
Proof.
  split; [|split; [|split]].
  - unfold Seller.upload_stocks_by, Seller.reconciled_stocks.
    repeat orderly_bind; try solve [auto with orderly].
    + apply always_orderly_seller_get_offer_ids. intros x. left. by eexists.
    + apply always_orderly_create_stocks_with.
    + apply always_orderly_update_loop. intros batch.
      apply always_orderly_http_json. right. by eexists.
  - unfold Seller.upload_prices_by.
    repeat orderly_bind; try solve [auto with orderly].
    + apply always_orderly_seller_get_offer_ids. intros x. left. by eexists.
    + apply always_orderly_seller_create_prices.
    + apply always_orderly_update_loop. intros batch.
      apply always_orderly_http_json. right. by eexists.
  - unfold Market.upload_stocks_by.
    repeat orderly_bind; try solve [auto with orderly].
    + apply always_orderly_market_get_offer_ids. intros x. left. by eexists.
    + apply always_orderly_market_create_stocks.
    + apply always_orderly_update_loop. intros batch.
      apply always_orderly_http_json. right. by eexists.
  - unfold Market.upload_prices_by.
    repeat orderly_bind; try solve [auto with orderly].
    + apply always_orderly_market_get_offer_ids. intros x. left. by eexists.
    + apply always_orderly_market_create_prices.
    + apply always_orderly_update_loop. intros batch.
      apply always_orderly_http_json. right. by eexists.
Qed.

(** What [try: body except ...: print(...)] makes of an orderly body. *)
Lemma try_print_orderly (P : Request → Prop) (body : Prog unit) w σ r σ' :
  always_orderly P body →
  try_except body
    (fun error =>
       match error with
       | ReadTimeout => print None "Превышено время ожидания..."
       | ConnectionError => print (Some error) "Ошибка соединения"
       | _ => print (Some error) "ERROR_2"
       end) w σ = (r, σ') →
  (∀ e, r ≠ Raise e)
  ∧ ∃ rs, sent σ' = sent σ ++ rs
          ∧ Forall P rs
          ∧ ((replied w (sent σ) rs
              ∧ (stdout σ' = stdout σ
                 ∨ ∃ e, stdout σ' = stdout σ ++ [error_line e]))
             ∨ ∃ e, failed_last w (sent σ) rs e
                    ∧ stdout σ' = stdout σ ++ [error_line e]).
Proof.
  intros Hbody. unfold try_except. specialize (Hbody w σ).
  destruct (body w σ) as [[[]|e|] σ1]; simpl in Hbody.
  - intros [= <- <-]. split; [done|].
    apply orderly_Ok_replied in Hbody as (Ho & rs & Hs & HP & Hr).
    exists rs. split; [done|]. split; [done|]. left. split; [done | by left].
  - destruct Hbody as (Ho & rs & Hs & HP & Hlast). simpl in Ho, Hs.
    assert (Hprint : ∀ r0 σ0,
              match e with
              | ReadTimeout => print None "Превышено время ожидания..."
              | ConnectionError => print (Some e) "Ошибка соединения"
              | _ => print (Some e) "ERROR_2"
              end w σ1 = (r0, σ0) →
              r0 = Ok tt ∧ σ0 = add_stdout (error_line e) σ1).
    { intros r0 σ0. destruct e; by intros [= <- <-]. }
    intros Hrun. apply Hprint in Hrun as [-> ->]. split; [done|].
    exists rs. simpl. split; [done|]. split; [done|]. rewrite Ho.
    destruct Hlast as [Hr|(e' & Hlast & [= <-])].
    + left. split; [done|]. right. by exists e.
    + right. by exists e.
  - intros [= <- <-]. split; [done|].
    destruct Hbody as (Ho & rs & Hs & HP & [Hr|(e & _ & He)]); [|done].
    exists rs. split; [done|]. split; [done|]. left. split; [done | by left].
Qed.

(** X2: [seller.main] never raises.  It makes no other requests than
    catalog listings, the download of the feed, stock updates and price
    updates with its own credentials; either all of them are answered
    and at most one line is printed, or the last one failed, nothing was
    requested after it, and the line of its exception is printed. *)
Theorem seller_main_contains_failures (fuel : nat)
    (client_id seller_token : string) (w : World) (σ σ' : State)
    (r : Result unit) :
  Seller.main fuel client_id seller_token w σ = (r, σ') →
  (∀ e, r ≠ Raise e)
  ∧ ∃ rs, sent σ' = sent σ ++ rs
          ∧ Forall (fun q => (∃ last_id, q = OzonProductList client_id seller_token last_id)
                             ∨ q = TimeworldOstatki
                             ∨ (∃ batch, q = OzonImportStocks client_id seller_token batch)
                             ∨ ∃ batch, q = OzonImportPrices client_id seller_token batch)
                   rs
          ∧ ((replied w (sent σ) rs
              ∧ (stdout σ' = stdout σ
                 ∨ ∃ e, stdout σ' = stdout σ ++ [error_line e]))
             ∨ ∃ e, failed_last w (sent σ) rs e
                    ∧ stdout σ' = stdout σ ++ [error_line e]).
Proof.
  unfold Seller.main. apply try_print_orderly.
  apply always_orderly_bind.
  - unfold Seller.main_prices, Seller.download_stock.
    repeat orderly_bind; try solve [auto with orderly].
    + apply always_orderly_seller_get_offer_ids. intros x. left. by eexists.
    + apply always_orderly_http. right. by left.
    + destruct a0; auto with orderly.
    + apply always_orderly_create_stocks_with.
    + apply always_orderly_update_loop. intros batch.
      apply always_orderly_http_json. right. right. left. by eexists.
    + apply always_orderly_seller_create_prices.
  - intros [[l rows] prices].
    apply always_orderly_bind; [auto with orderly|]. intros batches.
    apply always_orderly_update_loop. intros batch.
    apply always_orderly_http_json. right. right. right. by eexists.
Qed.

Lemma seller_main_contains_failures_witness :
  ∃ σ', Seller.main 1 "id" "key" offline empty_state = (Ok tt, σ')
        ∧ sent σ' = [OzonProductList "id" "key" ""]
        ∧ stdout σ' = [error_line ConnectionError].
Proof.
  destruct (Seller.main 1 "id" "key" offline empty_state) as [r σ'] eqn:Hrun.
  destruct (seller_main_contains_failures 1 "id" "key" offline empty_state σ' r
              Hrun) as (Hnot & _).
  vm_compute in Hrun. injection Hrun as <- <-.
  eexists. split; [reflexivity|]. split; reflexivity.
Defined.

Lemma always_orderly_main_campaign fuel rows campaign_id market_token
    warehouse_id :
  always_orderly (fun q => is_price_update q = false)
    (Market.main_campaign fuel rows campaign_id market_token warehouse_id).
Proof.
  unfold Market.main_campaign.
  repeat orderly_bind; try solve [auto with orderly].
  - by apply always_orderly_market_get_offer_ids.
  - apply always_orderly_market_create_stocks.
  - apply always_orderly_update_loop. intros batch.
    by apply always_orderly_http_json.
  - unfold Market.unawaited. auto with orderly.
Qed.

(** X3: [market.main] never sends a price update: its two calls of
    [upload_prices] are not awaited, so for neither campaign does a
    request to the price endpoint leave, whatever the servers answer. *)
Theorem market_main_sends_no_prices (fuel : nat)
    (market_token campaign_fbs_id campaign_dbs_id
     warehouse_fbs_id warehouse_dbs_id : string)
    (w : World) (σ σ' : State) (r : Result unit) :
  Market.main fuel market_token campaign_fbs_id campaign_dbs_id
              warehouse_fbs_id warehouse_dbs_id w σ = (r, σ') →
  ∃ rs, sent σ' = sent σ ++ rs
        ∧ Forall (fun q => is_price_update q = false) rs.
Proof.
  unfold Market.main, Seller.download_stock. rewrite !run_bind.
  unfold http at 1.
  destruct (server w (sent σ) TimeworldOstatki) as [b|e] eqn:Hdl; simpl.
  2:{ intros [= <- <-]. exists [TimeworldOstatki]. by repeat constructor. }
  destruct b as [| | | |rows|]; simpl;
    try (intros [= <- <-]; exists [TimeworldOstatki]; by repeat constructor).
  intros Hrun.
  apply (try_print_orderly (fun q => is_price_update q = false)) in Hrun
    as (_ & rs & Hs & HP & _).
  - exists (TimeworldOstatki :: rs). simpl in Hs.
    split; [by rewrite Hs, <- app_assoc | by constructor].
  - apply always_orderly_bind; [|intros _];
      apply always_orderly_main_campaign.
Qed.

Lemma market_main_sends_no_prices_witness :
  ∃ σ', Market.main 2 "token" "fbs" "dbs" "w-fbs" "w-dbs" in_service empty_state
        = (Ok tt, σ')
        ∧ length (sent σ') = 7%nat
        ∧ List.filter is_price_update (sent σ') = [].
Proof.
  destruct (Market.main 2 "token" "fbs" "dbs" "w-fbs" "w-dbs" in_service
              empty_state) as [r σ'] eqn:Hrun.
  destruct (market_main_sends_no_prices _ _ _ _ _ _ _ _ _ _ Hrun)
    as (rs & Hs & HP).
  assert (r = Ok tt ∧ length (sent σ') = 7%nat) as [-> Hlen].
  { vm_compute in Hrun. injection Hrun as <- <-. split; reflexivity. }
  exists σ'. split; [reflexivity|]. split; [exact Hlen|].
  simpl in Hs. rewrite Hs. apply filter_none. intros q Hq.
  by apply (proj1 (Forall_forall _ _) HP).
Defined.

(** X4: a failure of the download leaves [market.main] as the exception
    it is, nothing else having been requested: the download stands
    before the [try].  Once the feed is there, [market.main] raises
    nothing any more. *)
Theorem market_main_download_failure (fuel : nat)
    (market_token campaign_fbs_id campaign_dbs_id
     warehouse_fbs_id warehouse_dbs_id : string)
    (w : World) (σ : State) :
  (∀ e, server w (sent σ) TimeworldOstatki = Fails e →
        Market.main fuel market_token campaign_fbs_id campaign_dbs_id
                    warehouse_fbs_id warehouse_dbs_id w σ
        = (Raise e, add_sent [TimeworldOstatki] σ))
  ∧ (∀ rows, server w (sent σ) TimeworldOstatki = Reply (Xls rows) →
             ∀ e, (Market.main fuel market_token campaign_fbs_id campaign_dbs_id
                               warehouse_fbs_id warehouse_dbs_id w σ).1
                  ≠ Raise e).
Proof.
  split.
  - intros e He. unfold Market.main, Seller.download_stock.
    rewrite !run_bind. unfold http at 1. by rewrite He.
  - intros rows Hrows e. unfold Market.main, Seller.download_stock.
    rewrite !run_bind. unfold http at 1. rewrite Hrows. simpl.
    match goal with |- (?run).1 ≠ _ => destruct run as [r σ'] eqn:Hrun end.
    apply (try_print_orderly (fun _ => True)) in Hrun as (Hnot & _).
    + apply Hnot.
    + eapply always_orderly_weaken;
        [|apply always_orderly_bind; [|intros _];
          apply always_orderly_main_campaign].
      done.
Qed.

Lemma market_main_download_failure_witness :
  Market.main 1 "token" "fbs" "dbs" "w-fbs" "w-dbs" offline empty_state
  = (Raise ConnectionError, add_sent [TimeworldOstatki] empty_state)
  ∧ (Market.main 2 "token" "fbs" "dbs" "w-fbs" "w-dbs" twice_listed
                 empty_state).1
    ≠ Raise ValueError.
Proof.
  destruct (market_main_download_failure 1 "token" "fbs" "dbs" "w-fbs" "w-dbs"
              offline empty_state) as [Hfail _].
  destruct (market_main_download_failure 2 "token" "fbs" "dbs" "w-fbs" "w-dbs"
              twice_listed empty_state) as [_ Hok].
  split.
  - apply Hfail. reflexivity.
  - eapply Hok. reflexivity.
Defined.

(** ** Prices *)


Lemma forallb_filter_digit l :
  forallb Py.is_digit (List.filter Py.is_digit l) = true.
Proof.
  induction l as [|c l IH]; simpl; [done|].
  destruct (Py.is_digit c) eqn:E; simpl; [by rewrite E|done].
Qed.






Lemma no_digit_filter l :
  forallb (fun c => negb (Py.is_digit c)) l = false →
  List.filter Py.is_digit l ≠ [].
Proof.
  induction l as [|c l IH]; simpl; [done|].
  destruct (Py.is_digit c); simpl; [done | exact IH].
Qed.

(** [int] of a converted price: the value of its digits, or [ValueError]
    when there is none or more than [int] reads. *)
Lemma int_price (token : string) :
  Py.int (normalize_price_spec token)
  = if unreadable_price token then Raise ValueError
    else Ok (decimal_value (price_digits token)).
Proof.
  unfold unreadable_price, normalize_price_spec, no_digit_before_dot,
    price_digits.
  destruct (forallb _ _) eqn:E.
  - by rewrite (filter_no_digit _ E).
  - pose proof (int_on_literal [] []
                  (List.filter Py.is_digit
                     (before_first_dot (list_ascii_of_string token)))
                  [] _ eq_refl eq_refl (no_digit_filter _ E)
                  (forallb_filter_digit _) ltac:(auto)) as H.
    simpl in H. rewrite app_nil_r in H. rewrite H. simpl.
    destruct (Nat.leb_spec (length (List.filter Py.is_digit
                 (before_first_dot (list_ascii_of_string token))))
                 Py.int_max_str_digits),
             (Nat.ltb_spec Py.int_max_str_digits
                (length (List.filter Py.is_digit
                   (before_first_dot (list_ascii_of_string token)))));
      done || lia.
Qed.

Lemma run_market_price_watch l acc row K w σ :
  heap σ !! l = Some K →
  Market.price_watch l acc row w σ
  = (if decide (Код row ∈ K)
     then if unreadable_price (Цена row) then Raise ValueError
          else Ok (acc ++ [market_price_of row])
     else Ok acc, σ).
Proof.
  intros H. unfold Market.price_watch, list_contains, load, lift.
  rewrite !run_bind. rewrite H. simpl. rewrite contains_decide.
  destruct (decide (Код row ∈ K)) as [Hin|Hout].
  - rewrite bool_decide_eq_true_2 by done. rewrite !run_bind.
    rewrite price_conversion_spec, int_price.
    by destruct (unreadable_price (Цена row)).
  - by rewrite bool_decide_eq_false_2 by done.
Qed.

Lemma run_market_price_loop l rows K w σ : ∀ acc,
  heap σ !! l = Some K →
  (∀ row, row ∈ rows → Код row ∈ K → unreadable_price (Цена row) = false) →
  fold_each (Market.price_watch l) acc rows w σ
  = (Ok (acc ++ map market_price_of (filter (fun row => Код row ∈ K) rows)), σ).
Proof.
  induction rows as [|row rows IH]; intros acc H Hrows; simpl.
  - by rewrite app_nil_r.
  - rewrite run_bind, (run_market_price_watch _ _ _ _ _ _ H).
    destruct (decide (Код row ∈ K)) as [Hin|Hout].
    + rewrite (Hrows row) by (done || left).
      rewrite IH; [|done|intros r Hr; apply Hrows; by right].
      rewrite filter_cons_True by done. simpl. by rewrite <- app_assoc.
    + rewrite IH; [|done|intros r Hr; apply Hrows; by right].
      by rewrite filter_cons_False by done.
Qed.

Lemma run_market_price_loop_fails l rows K w σ bad : ∀ acc,
  heap σ !! l = Some K →
  bad ∈ rows → Код bad ∈ K → unreadable_price (Цена bad) = true →
  fold_each (Market.price_watch l) acc rows w σ = (Raise ValueError, σ).
Proof.
  induction rows as [|row rows IH]; intros acc H Hbad HK Hno; simpl.
  - by apply elem_of_nil in Hbad.
  - rewrite run_bind, (run_market_price_watch _ _ _ _ _ _ H).
    apply elem_of_cons in Hbad as [<-|Hbad].
    + rewrite decide_True by done. by rewrite Hno.
    + destruct (decide (Код row ∈ K)); [|by apply IH].
      destruct (unreadable_price (Цена row)); [done | by apply IH].
Qed.

(** X6: [market.create_prices] turns the price of every row with a known
    code into an integer, the value in base 10 of the digits before the
    first "." of the token, in feed order, and leaves the state as it
    is, when each such token has a digit there and not more than the
    4300 that [int] reads; when one such row has no digit there, or more
    than 4300, it raises [ValueError] and returns no record at all. *)
Theorem market_create_prices_values (rows : list Watch) (l : loc)
    (K : list string) (w : World) (σ : State) :
  heap σ !! l = Some K →
  ((∀ row, row ∈ rows → Код row ∈ K →
           price_digits (Цена row) ≠ []
           ∧ (length (price_digits (Цена row)) ≤ 4300)%nat) →
   Market.create_prices rows l w σ
   = (Ok (map market_price_of (filter (fun row => Код row ∈ K) rows)), σ))
  ∧ (∀ bad, bad ∈ rows → Код bad ∈ K →
            price_digits (Цена bad) = []
            ∨ (4300 < length (price_digits (Цена bad)))%nat →
            Market.create_prices rows l w σ = (Raise ValueError, σ)).
Proof.
  intros H. split.
  - intros Hrows. unfold Market.create_prices.
    rewrite (run_market_price_loop l rows K w σ [] H); [done|].
    intros row Hrow HK. destruct (Hrows row Hrow HK) as [Hne Hlen].
    unfold unreadable_price. apply orb_false_intro.
    + unfold no_digit_before_dot. unfold price_digits in Hne.
      destruct (forallb _ _) eqn:E; [|done].
      by rewrite (filter_no_digit _ E) in Hne.
    + apply Nat.ltb_ge. exact Hlen.
  - intros bad Hbad HK Hno. unfold Market.create_prices.
    eapply run_market_price_loop_fails; [done..|].
    unfold unreadable_price. apply orb_true_intro.
    destruct Hno as [Hnil|Hlong].
    + left. unfold no_digit_before_dot. unfold price_digits in Hnil.
      destruct (forallb _ _) eqn:E; [done|].
      by apply no_digit_filter in E.
    + right. apply Nat.ltb_lt. exact Hlong.
Qed.

Lemma market_create_prices_values_witness :
  Market.create_prices docstring_feed 0%nat twice_listed
    (offers_at_0 ["456-DEF"])
  = (Ok [ {| Yandex.Price.id := "456-DEF";
             Yandex.Price.price := {| Yandex.Money.value := 10000;
                                      Yandex.Money.currencyId := "RUR" |} |} ],
     offers_at_0 ["456-DEF"])
  ∧ Market.create_prices [feed_row "456-DEF" "2" "руб."] 0%nat twice_listed
      (offers_at_0 ["456-DEF"])
    = (Raise ValueError, offers_at_0 ["456-DEF"]).
Proof.
  split.
  - destruct (market_create_prices_values docstring_feed 0%nat ["456-DEF"]
                twice_listed (offers_at_0 ["456-DEF"]) eq_refl) as [Hok _].
    rewrite Hok; [reflexivity|].
    intros row Hrow _.
    apply elem_of_cons in Hrow as [->|Hrow];
      [split; [discriminate | simpl; lia]|].
    apply elem_of_cons in Hrow as [->|Hrow];
      [split; [discriminate | simpl; lia]|].
    by apply elem_of_nil in Hrow.
  - destruct (market_create_prices_values [feed_row "456-DEF" "2" "руб."]
                0%nat ["456-DEF"] twice_listed (offers_at_0 ["456-DEF"])
                eq_refl) as [_ Hfail].
    apply (Hfail (feed_row "456-DEF" "2" "руб.")); [left | left | by left].
Defined.

(** X7: [seller.create_prices] does not look at what [price_conversion]
    gives: for a row with a known code and no digit before the first "."
    of its price it emits a record whose price is the empty string. *)
Theorem seller_create_prices_empty_price (rows : list Watch) (l : loc)
    (K : list string) (w : World) (σ : State) (row : Watch) :
  heap σ !! l = Some K →
  row ∈ rows → Код row ∈ K → no_digit_before_dot (Цена row) = true →
  ∃ prices record,
    Seller.create_prices rows l w σ = (Ok prices, σ)
    ∧ record ∈ prices
    ∧ Ozon.Price.offer_id record = Код row
    ∧ Ozon.Price.price record = "".
Proof.
  intros H Hrow HK Hno.
  exists (map price_of (filter (fun row => Код row ∈ K) rows)), (price_of row).
  split; [by apply run_seller_create_prices|].
  split; [|split; [done|]].
  - apply list_elem_of_fmap_2. by apply list_elem_of_filter.
  - simpl. unfold normalize_price_spec.
    unfold no_digit_before_dot in Hno. by rewrite (filter_no_digit _ Hno).
Qed.

Lemma seller_create_prices_empty_price_witness :
  ∃ prices record,
    Seller.create_prices [feed_row "456-DEF" "2" "руб."] 0%nat twice_listed
      (offers_at_0 ["456-DEF"]) = (Ok prices, offers_at_0 ["456-DEF"])
    ∧ record ∈ prices
    ∧ Ozon.Price.offer_id record = "456-DEF"
    ∧ Ozon.Price.price record = "".
Proof.
  apply (seller_create_prices_empty_price
           [feed_row "456-DEF" "2" "руб."] 0%nat ["456-DEF"] twice_listed
           (offers_at_0 ["456-DEF"]) (feed_row "456-DEF" "2" "руб."));
    [reflexivity | left | left | reflexivity].
Defined.

(** ** More on [create_stocks] *)


Lemma remaining_app rows1 rows2 K :
  remaining (rows1 ++ rows2) K = remaining rows2 (remaining rows1 K).
Proof.
  revert K. induction rows1 as [|row rows1 IH]; intros K; simpl; [done|].
  by destruct (Py.remove_first (Код row) K).
Qed.

Section Failure.
Context {R : Type} (record : string → Z → R).

End Failure.



Section OnlyMatched.
Context {R : Type} (record : string → Z → R).

Lemma create_stocks_with_matched_parse l rows K w σ :
  heap σ !! l = Some K →
  (∀ row, row ∈ rows → Код row ∈ K →
          is_ok (stock_of_count (Количество row)) = true) →
  ∃ m, counts_of (matched rows K) = Ok m
       ∧ create_stocks_with record rows l w σ
         = (Ok (map (fun p => record p.1 p.2) m
                ++ map (fun c => record c 0) (remaining rows K)),
            set_heap (<[l := remaining rows K]> (heap σ)) σ).
Proof.
  intros H Hparse.
  pose proof (run_create_stocks_with record l rows K w σ H) as Hrun.
  destruct (counts_of_total (matched rows K)) as [m Hm].
  { apply Forall_forall. intros row Hrow. apply Hparse.
    - eapply elem_of_sublist; [done | apply matched_sublist].
    - by eapply matched_elem_of. }
  rewrite Hm in Hrun. by exists m.
Qed.
End OnlyMatched.

(** X9: [create_stocks] reads the quantity of matched rows only: it
    returns as soon as the rows with a known code have tokens that
    parse, whatever the other rows hold.  With an empty feed it
    zero-fills every offer and leaves the list as it is; with an empty
    list of offers it returns the empty list for any feed. *)
Theorem create_stocks_reads_matched_rows (rows : list Watch) (l : loc)
    (K : list string) (w : World) (σ : State) :
  heap σ !! l = Some K →
  ((∀ row, row ∈ rows → Код row ∈ K →
           is_ok (stock_of_count (Количество row)) = true) →
   ∃ stocks σ', Seller.create_stocks rows l w σ = (Ok stocks, σ'))
  ∧ (rows = [] →
     Seller.create_stocks rows l w σ
     = (Ok (map (fun c => {| Ozon.Stock.offer_id := c; Ozon.Stock.stock := 0 |}) K),
        σ))
  ∧ (K = [] → Seller.create_stocks rows l w σ = (Ok [], σ)).
Proof.
  intros H. split; [|split].
  - intros Hparse.
    destruct (create_stocks_with_matched_parse
                (fun c z => {| Ozon.Stock.offer_id := c; Ozon.Stock.stock := z |})
                l rows K w σ H Hparse) as (m & _ & Hrun).
    eauto.
  - intros ->.
    destruct (create_stocks_with_matched_parse
                (fun c z => {| Ozon.Stock.offer_id := c; Ozon.Stock.stock := z |})
                l [] K w σ H) as (m & Hm & Hrun).
    { intros row Hrow. by apply elem_of_nil in Hrow. }
    simpl in Hm. injection Hm as <-. unfold Seller.create_stocks.
    rewrite Hrun. simpl. by rewrite set_heap_same.
  - intros ->.
    destruct (matched_none rows []) as [Hm Hr].
    { intros row _ Hin. by apply elem_of_nil in Hin. }
    destruct (create_stocks_with_matched_parse
                (fun c z => {| Ozon.Stock.offer_id := c; Ozon.Stock.stock := z |})
                l rows [] w σ H) as (m & Hcounts & Hrun).
    { intros row _ Hin. by apply elem_of_nil in Hin. }
    rewrite Hm in Hcounts. simpl in Hcounts. injection Hcounts as <-.
    unfold Seller.create_stocks. rewrite Hrun, Hr. simpl.
    by rewrite set_heap_same.
Qed.

Lemma create_stocks_reads_matched_rows_witness :
  ∃ stocks σ',
    Seller.create_stocks
      [feed_row "999-ZZZ" "many" ""; feed_row "123-ABC" "5" ""] 0%nat
      twice_listed (offers_at_0 ["123-ABC"]) = (Ok stocks, σ').
Proof.
  destruct (create_stocks_reads_matched_rows
              [feed_row "999-ZZZ" "many" ""; feed_row "123-ABC" "5" ""] 0%nat
              ["123-ABC"] twice_listed (offers_at_0 ["123-ABC"]) eq_refl)
    as (Hreturns & _).
  apply Hreturns. intros row Hrow Hcode.
  apply elem_of_cons in Hrow as [->|Hrow].
  - simpl in Hcode. apply elem_of_cons in Hcode as [Hcode|Hcode];
      [discriminate Hcode | by apply elem_of_nil in Hcode].
  - apply elem_of_cons in Hrow as [->|Hrow]; [reflexivity|].
    by apply elem_of_nil in Hrow.
Defined.

(** X10: [create_stocks] does not keep counts at or above zero: the
    first row of a known offer whose token is a minus sign and digits
    gives that offer a stock record with the negative value. *)
Theorem create_stocks_negative_count (pre post : list Watch) (row : Watch)
    (l : loc) (K : list string) (w : World) (σ σ' : State)
    (stocks : list Ozon.Stock.t) (ds : list ascii) :
  heap σ !! l = Some K →
  Seller.create_stocks (pre ++ row :: post) l w σ = (Ok stocks, σ') →
  Код row ∈ K → Код row ∉ map Код pre →
  ds ≠ [] → forallb Py.is_digit ds = true →
  Количество row = string_of_list_ascii ("-"%char :: ds) →
  ∃ record, record ∈ stocks
            ∧ Ozon.Stock.offer_id record = Код row
            ∧ Ozon.Stock.stock record = - decimal_value ds.
Proof.
  intros H Hrun HK Hpre Hne Hds Htoken.
  assert (reconciles Ozon.Stock.offer_id Ozon.Stock.stock
            (pre ++ row :: post) K stocks) as (_ & _ & _ & Hfirst)
    by by refine (create_stocks_with_reconciles _ _ _ _ _ l _ K w σ stocks σ'
                    H Hrun).
  destruct (Hfirst pre row post eq_refl HK Hpre) as (record & Hin & Hid & Hcount).
  exists record. split; [done|]. split; [done|].
  pose proof (int_on_literal [] [] ds ["-"%char] (- decimal_value ds)
                eq_refl eq_refl Hne Hds ltac:(auto)) as Hneg.
  change ([] ++ (["-"%char] ++ ds) ++ []) with (("-"%char :: ds) ++ [])
    in Hneg.
  rewrite app_nil_r in Hneg.
  rewrite Htoken in Hcount. unfold stock_of_count in Hcount.
  destruct (String.eqb_spec (string_of_list_ascii ("-"%char :: ds)) ">10")
    as [Heq|_]; [discriminate Heq|].
  destruct (String.eqb_spec (string_of_list_ascii ("-"%char :: ds)) "1")
    as [Heq|_]; [discriminate Heq|].
  rewrite Hneg in Hcount.
  destruct (length ds <=? Py.int_max_str_digits)%nat; congruence.
Qed.

Lemma create_stocks_negative_count_witness :
  ∃ record,
    record ∈ [ {| Ozon.Stock.offer_id := "123-ABC"; Ozon.Stock.stock := -3 |} ]
    ∧ Ozon.Stock.offer_id record = "123-ABC"
    ∧ Ozon.Stock.stock record = -3.
Proof.
  apply (create_stocks_negative_count [] [] (feed_row "123-ABC" "-3" "")
           0%nat ["123-ABC"] twice_listed (offers_at_0 ["123-ABC"])
           (offers_at_0 []) _ ["3"%char]).
  - reflexivity.
  - reflexivity.
  - left.
  - simpl. apply not_elem_of_nil.
  - discriminate.
  - reflexivity.
  - reflexivity.
Defined.

(** ** More on [divide] *)

(** X11: for a positive size, [divide] never yields an empty batch and
    never one with more than [n] elements; it yields nothing only for
    the empty list, and a list of at most [n] elements comes back as one
    batch, the list itself. *)
Theorem divide_batches_nonempty {A} (lst : list A) (n : Z) :
  0 < n →
  ∃ batches,
    divide lst n = Ok batches
    ∧ Forall (fun batch => batch ≠ [] ∧ Z.of_nat (length batch) ≤ n) batches
    ∧ (batches = [] ↔ lst = [])
    ∧ (lst ≠ [] → Z.of_nat (length lst) ≤ n → batches = [lst]).
Proof.
  intros Hn. exists (chunks lst (Z.to_nat n)).
  assert (Hk : (0 < Z.to_nat n)%nat) by lia.
  pose proof (length_chunks lst (Z.to_nat n) Hk) as Hlen.
  pose proof (ceil_bounds (Z.of_nat (length lst)) (Z.of_nat (Z.to_nat n))
                ltac:(lia) ltac:(lia)) as (H0 & H1 & H2).
  rewrite <- Hlen in H0, H1, H2.
  split; [by apply divide_chunks|]. split; [|split].
  - apply Forall_forall. intros batch Hb.
    apply list_elem_of_lookup in Hb as [i Hi].
    pose proof (lookup_lt_Some _ _ _ Hi) as Hlt.
    pose proof (length_chunk lst _ i batch Hk Hi) as Hsize.
    split; [|lia]. intros ->. simpl in Hsize. nia.
  - split.
    + intros Hb. rewrite Hb in H1. simpl in H1.
      destruct lst; [done | simpl in H1; lia].
    + intros ->. destruct (chunks [] (Z.to_nat n)) eqn:E; [done|].
      simpl in H2. lia.
  - intros Hne Hle.
    assert (length (chunks lst (Z.to_nat n)) = 1%nat) as Hone.
    { destruct lst; [done|]. simpl in *. nia. }
    destruct (chunks lst (Z.to_nat n)) as [|batch [|? ?]] eqn:E; try done.
    assert (chunks lst (Z.to_nat n) !! 0%nat = Some batch) as Hb
      by by rewrite E.
    apply lookup_chunks in Hb. simpl in Hb. rewrite Hb.
    f_equal. apply take_ge. lia.
Qed.

Lemma divide_batches_nonempty_witness :
  divide [1; 2; 3] 5 = Ok [[1; 2; 3]].
Proof.
  destruct (divide_batches_nonempty [1; 2; 3] 5 ltac:(lia))
    as (batches & Hdiv & _ & _ & Hone).
  rewrite Hdiv. f_equal. apply Hone; [discriminate | simpl; lia].
Defined.

(** ** More on [get_offer_ids] *)

Lemma add_sent_nil σ : add_sent [] σ = σ.
Proof. destruct σ. unfold add_sent. simpl. by rewrite app_nil_r. Qed.

Lemma seller_loop_runs_on client_id seller_token w : ∀ ps acc last_id σ,
  answers w (sent σ) (seller_requests client_id seller_token last_id ps)
          (map OzonResult ps) →
  (∀ j q, ps !! j = Some q →
     Ozon.total q ≠ Some (Z.of_nat (length (acc ++ seller_entries ps j)))) →
  Seller.get_offer_ids_loop (length ps) client_id seller_token last_id acc w σ
  = (OutOfFuel, add_sent (seller_requests client_id seller_token last_id ps) σ).
Proof.
  induction ps as [|p ps IH]; intros acc last_id σ Hans Hnot; simpl.
  - by rewrite add_sent_nil.
  - simpl in Hans. destruct Hans as [Hp Hans].
    rewrite run_bind, (run_seller_get_product_list _ _ _ _ _ _ Hp).
    rewrite decide_False.
    2:{ specialize (Hnot 0%nat p eq_refl). unfold seller_entries in Hnot.
        simpl in Hnot. by rewrite app_nil_r in Hnot. }
    rewrite IH; [by rewrite add_sent_add_sent|done|].
    intros j q Hq. specialize (Hnot (S j) q Hq).
    unfold seller_entries in *. simpl in Hnot. by rewrite <- app_assoc.
Qed.

Lemma market_loop_runs_on campaign_id market_token w : ∀ ps acc page σ,
  answers w (sent σ) (market_requests campaign_id market_token page ps)
          (map YandexResult ps) →
  (∀ j q, ps !! j = Some q →
     Market.falsy (Yandex.nextPageToken (Yandex.paging q)) = false) →
  Market.get_offer_ids_loop (length ps) campaign_id market_token page acc w σ
  = (OutOfFuel, add_sent (market_requests campaign_id market_token page ps) σ).
Proof.
  induction ps as [|p ps IH]; intros acc page σ Hans Hnot; simpl.
  - by rewrite add_sent_nil.
  - simpl in Hans. destruct Hans as [Hp Hans].
    rewrite run_bind, (run_market_get_product_list _ _ _ _ _ _ Hp).
    rewrite (Hnot 0%nat p eq_refl).
    rewrite IH; [by rewrite add_sent_add_sent|done|].
    intros j q Hq. by apply (Hnot (S j) q).
Qed.

(** X12: as long as no page signals the end, [get_offer_ids] goes on
    asking: after as many requests as there are such pages it has not
    returned, has created no list, and has asked for every one of the
    pages.  A catalog that never reports a matching total (seller), or
    never an empty next-page token (market), keeps it running for good. *)
Theorem get_offer_ids_runs_on (w : World) (σ : State)
    (client_id token : string) (ps : list Ozon.Page) (qs : list Yandex.Page) :
  (answers w (sent σ) (seller_requests client_id token "" ps)
           (map OzonResult ps) →
   (∀ k, seller_ends ps k = false) →
   Seller.get_offer_ids (length ps) client_id token w σ
   = (OutOfFuel, add_sent (seller_requests client_id token "" ps) σ))
  ∧ (answers w (sent σ) (market_requests client_id token "" qs)
             (map YandexResult qs) →
     (∀ k, market_ends qs k = false) →
     Market.get_offer_ids (length qs) client_id token w σ
     = (OutOfFuel, add_sent (market_requests client_id token "" qs) σ)).
Proof.
  split.
  - intros Hans Hnot. unfold Seller.get_offer_ids. rewrite run_bind.
    rewrite seller_loop_runs_on; [done|done|].
    intros j q Hq. specialize (Hnot j). unfold seller_ends in Hnot.
    rewrite Hq in Hnot. by apply bool_decide_eq_false in Hnot.
  - intros Hans Hnot. unfold Market.get_offer_ids. rewrite run_bind.
    rewrite market_loop_runs_on; [done|done|].
    intros j q Hq. specialize (Hnot j).
    rewrite market_ends_falsy, Hq in Hnot. done.
Qed.

Lemma get_offer_ids_runs_on_witness :
  (Seller.get_offer_ids 3 "id" "key" endless empty_state).1 = OutOfFuel
  ∧ (Market.get_offer_ids 3 "id" "key" endless empty_state).1 = OutOfFuel.
Proof.
  destruct (get_offer_ids_runs_on endless empty_state "id" "key"
              (replicate 3 no_total_page) (replicate 3 next_page))
    as [Hseller Hmarket].
  split.
  - change 3%nat with (length (replicate 3 no_total_page)).
    rewrite Hseller; [reflexivity | simpl; repeat split |].
    intros [|[|[|k]]]; reflexivity.
  - change 3%nat with (length (replicate 3 next_page)).
    rewrite Hmarket; [reflexivity | simpl; repeat split |].
    intros [|[|[|k]]]; reflexivity.
Defined.

Lemma seller_loop_heap fuel client_id seller_token w : ∀ last_id acc σ r σ',
  Seller.get_offer_ids_loop fuel client_id seller_token last_id acc w σ = (r, σ') →
  heap σ' = heap σ.
Proof.
  induction fuel as [|fuel IH]; intros last_id acc σ r σ'; simpl.
  - by intros [= _ <-].
  - rewrite run_bind. unfold Seller.get_product_list, lift. rewrite !run_bind.
    destruct (http _ w σ) as [[b|e|] σ1] eqn:E; apply http_heap in E; simpl;
      try (intros [= _ <-]; done).
    destruct b; simpl; try (intros [= _ <-]; done).
    case_decide; [by intros [= _ <-]|].
    intros Hrun. rewrite <- E. by eapply IH.
Qed.

Lemma market_loop_heap fuel campaign_id market_token w : ∀ page acc σ r σ',
  Market.get_offer_ids_loop fuel campaign_id market_token page acc w σ = (r, σ') →
  heap σ' = heap σ.
Proof.
  induction fuel as [|fuel IH]; intros page acc σ r σ'; simpl.
  - by intros [= _ <-].
  - rewrite run_bind. unfold Market.get_product_list, lift. rewrite !run_bind.
    destruct (http _ w σ) as [[b|e|] σ1] eqn:E; apply http_heap in E; simpl;
      try (intros [= _ <-]; done).
    destruct b; simpl; try (intros [= _ <-]; done).
    destruct (Market.falsy _); [by intros [= _ <-]|].
    intros Hrun. rewrite <- E. by eapply IH.
Qed.

(** X13: the list that [get_offer_ids] returns is a new one: its
    reference was not in use, and every list that existed is as it was.
    When [get_offer_ids] does not return, it has created no list.  A 2xx
    answer to the first listing that is not a page of the catalog ends
    the run after that one request: with [JSONDecodeError] when the body
    is not JSON, with [AttributeError] when the JSON has no result
    object (and, for the market, when the result has no paging), with
    [TypeError] when the result object has no list of offers.  Seller
    and market. *)
Theorem get_offer_ids_fresh_list (fuel : nat) (id token : string)
    (w : World) (σ : State) :
  (∀ r σ',
     Seller.get_offer_ids fuel id token w σ = (r, σ') →
     match r with
     | Ok l => heap σ !! l = None ∧ ∃ ids, heap σ' = <[l := ids]> (heap σ)
     | _ => heap σ' = heap σ
     end)
  ∧ (∀ r σ',
       Market.get_offer_ids fuel id token w σ = (r, σ') →
       match r with
       | Ok l => heap σ !! l = None ∧ ∃ ids, heap σ' = <[l := ids]> (heap σ)
       | _ => heap σ' = heap σ
       end)
  ∧ (∀ body,
       server w (sent σ) (OzonProductList id token "") = Reply body →
       match body with
       | OzonResult _ => True
       | Json =>
           Seller.get_offer_ids (S fuel) id token w σ
           = (Raise AttributeError, add_sent [OzonProductList id token ""] σ)
       | YandexResult _ | YandexEntries _ =>
           Seller.get_offer_ids (S fuel) id token w σ
           = (Raise TypeError, add_sent [OzonProductList id token ""] σ)
       | Xls _ | Text =>
           Seller.get_offer_ids (S fuel) id token w σ
           = (Raise JSONDecodeError, add_sent [OzonProductList id token ""] σ)
       end)
  ∧ (∀ body,
       server w (sent σ) (YandexOfferMappingEntries id token "") = Reply body →
       match body with
       | YandexResult _ => True
       | Json | YandexEntries _ =>
           Market.get_offer_ids (S fuel) id token w σ
           = (Raise AttributeError,
              add_sent [YandexOfferMappingEntries id token ""] σ)
       | OzonResult _ =>
           Market.get_offer_ids (S fuel) id token w σ
           = (Raise TypeError,
              add_sent [YandexOfferMappingEntries id token ""] σ)
       | Xls _ | Text =>
           Market.get_offer_ids (S fuel) id token w σ
           = (Raise JSONDecodeError,
              add_sent [YandexOfferMappingEntries id token ""] σ)
       end).
Proof.
  split; [|split; [|split]].
  - intros r σ'. unfold Seller.get_offer_ids. rewrite run_bind.
    destruct (Seller.get_offer_ids_loop _ _ _ _ _ w σ) as [[ps|e|] σ1] eqn:E;
      apply seller_loop_heap in E.
    + unfold new_list. intros [= <- <-]. simpl. rewrite E. split; [|by eexists].
      apply not_elem_of_dom, is_fresh.
    + by intros [= <- <-].
    + by intros [= <- <-].
  - intros r σ'. unfold Market.get_offer_ids. rewrite run_bind.
    destruct (Market.get_offer_ids_loop _ _ _ _ _ w σ) as [[ps|e|] σ1] eqn:E;
      apply market_loop_heap in E.
    + unfold new_list. intros [= <- <-]. simpl. rewrite E. split; [|by eexists].
      apply not_elem_of_dom, is_fresh.
    + by intros [= <- <-].
    + by intros [= <- <-].
  - intros body H. unfold Seller.get_offer_ids. simpl.
    unfold Seller.get_product_list, http, lift. rewrite !run_bind. rewrite H.
    by destruct body.
  - intros body H. unfold Market.get_offer_ids. simpl.
    unfold Market.get_product_list, http, lift. rewrite !run_bind. rewrite H.
    by destruct body.
Qed.

Lemma get_offer_ids_fresh_list_witness :
  (∃ l σ',
     Seller.get_offer_ids 2 "id" "key" two_pages (offers_at_0 ["789-GHI"])
     = (Ok l, σ')
     ∧ l ≠ 0%nat
     ∧ heap σ' !! 0%nat = Some ["789-GHI"])
  ∧ Seller.get_offer_ids 2 "id" "key" no_result empty_state
    = (Raise AttributeError, add_sent [OzonProductList "id" "key" ""] empty_state)
  ∧ Market.get_offer_ids 2 "id" "key" not_json empty_state
    = (Raise JSONDecodeError,
       add_sent [YandexOfferMappingEntries "id" "key" ""] empty_state).
Proof.
  split; [|split].
  - destruct (get_offer_ids_fresh_list 2 "id" "key" two_pages
                (offers_at_0 ["789-GHI"])) as (Hseller & _).
    destruct (Seller.get_offer_ids 2 "id" "key" two_pages
                (offers_at_0 ["789-GHI"])) as [[l|e|] σ'] eqn:Hrun;
      [|vm_compute in Hrun; discriminate Hrun..].
    exists l, σ'. split; [reflexivity|].
    destruct (Hseller (Ok l) σ' eq_refl) as (Hfresh & ids & Hheap).
    split.
    + intros ->. discriminate Hfresh.
    + rewrite Hheap. rewrite lookup_insert_ne; [reflexivity|].
      intros ->. discriminate Hfresh.
  - destruct (get_offer_ids_fresh_list 1 "id" "key" no_result empty_state)
      as (_ & _ & Hseller & _).
    exact (Hseller Json eq_refl).
  - destruct (get_offer_ids_fresh_list 1 "id" "key" not_json empty_state)
      as (_ & _ & _ & Hmarket).
    exact (Hmarket Text eq_refl).
Defined.

(** ** More on the uploads *)

Lemma filter_zero_records (cs : list string) :
  filter (fun stock => Ozon.Stock.stock stock ≠ 0)
         (map (fun c => {| Ozon.Stock.offer_id := c; Ozon.Stock.stock := 0 |}) cs)
  = [].
Proof.
  induction cs as [|c cs IH]; [done|]. simpl.
  rewrite filter_cons_False; [exact IH|]. simpl. intros H. by apply H.
Qed.

(** X14: of the two lists that [seller.upload_stocks] returns, the first
    holds the records of the second whose count is not zero, in the same
    order; each of them carries the count of a feed row with its code,
    so no zero-filled offer is among them, and there are no more of them
    than the feed has rows. *)
Theorem upload_stocks_not_empty (n : Z) (fuel : nat) (rows : list Watch)
    (client_id seller_token : string) (w : World) (σ σ' : State)
    (not_empty stocks : list Ozon.Stock.t) :
  Seller.upload_stocks_by n fuel rows client_id seller_token w σ
  = (Ok (not_empty, stocks), σ') →
  not_empty = filter (fun stock => Ozon.Stock.stock stock ≠ 0) stocks
  ∧ Forall (fun record =>
              Ozon.Stock.stock record ≠ 0
              ∧ ∃ row, row ∈ rows ∧ Код row = Ozon.Stock.offer_id record
                       ∧ stock_of_count (Количество row)
                         = Ok (Ozon.Stock.stock record))
           not_empty
  ∧ (length not_empty ≤ length rows)%nat.
Proof.
  unfold Seller.upload_stocks_by, Seller.reconciled_stocks. intros Hrun.
  apply bind_Ok_inv in Hrun as (stocks0 & σ1 & Hrec & Hrun).
  apply bind_Ok_inv in Hrec as (l & σ0 & Hids & Hst).
  destruct (get_offer_ids_allocates _ _ _ _ _ _ _ Hids) as [K HK].
  apply bind_Ok_inv in Hrun as (batches & σ2 & _ & Hrun).
  apply bind_Ok_inv in Hrun as ([] & σ3 & _ & Hrun).
  injection Hrun as <- <- _.
  split; [done|].
  assert (reconciles Ozon.Stock.offer_id Ozon.Stock.stock rows K stocks0)
    as (_ & _ & Hall & _)
    by by refine (create_stocks_with_reconciles _ _ _ _ _ l rows K w σ0
                    stocks0 σ1 HK Hst).
  split.
  - apply Forall_forall. intros record Hrecord.
    apply list_elem_of_filter in Hrecord as [Hnz Hin].
    split; [done|].
    destruct (proj1 (Forall_forall _ _) Hall record Hin) as [Hz|Hrow]; done.
  - destruct (create_stocks_with_returns _ _ _ _ _ _ _ _ HK Hst)
      as (m & Hm & -> & _).
    rewrite filter_app.
    rewrite filter_zero_records, app_nil_r.
    etrans; [apply length_filter|]. rewrite length_map.
    rewrite <- (Forall2_length _ _ _ (counts_of_ok _ _ Hm)).
    apply sublist_length, matched_sublist.
Qed.

Lemma upload_stocks_not_empty_witness :
  ∃ not_empty stocks σ',
    Seller.upload_stocks 1 [feed_row "123-ABC" "1" ""] "id" "key" twice_listed
      empty_state = (Ok (not_empty, stocks), σ')
    ∧ not_empty = [] ∧ length stocks = 2%nat.
Proof.
  destruct (Seller.upload_stocks 1 [feed_row "123-ABC" "1" ""] "id" "key"
              twice_listed empty_state) as [[[not_empty stocks]|e|] σ'] eqn:Hrun;
    [|vm_compute in Hrun; discriminate Hrun..].
  exists not_empty, stocks, σ'. split; [reflexivity|].
  destruct (upload_stocks_not_empty 100 1 _ "id" "key" twice_listed empty_state
              σ' not_empty stocks Hrun) as (-> & _).
  vm_compute in Hrun. injection Hrun as _ <- _. split; reflexivity.
Defined.

(** X15: [seller.upload_prices], which lists the offers itself, sends a
    price for every feed row whose code is in the catalog: when the
    catalog pages end at page [k] and the server accepts the updates,
    answering each with a 2xx status and a JSON body, it returns those
    records in feed order, having requested the pages and then the
    batches of [divide], in that order, and nothing else. *)
Theorem upload_prices_every_known_row (n : Z) (fuel : nat)
    (rows : list Watch) (client_id seller_token : string) (w : World)
    (σ : State) (ps : list Ozon.Page) (k : nat) :
  0 < n →
  answers w (sent σ) (seller_requests client_id seller_token "" ps)
          (map OzonResult ps) →
  seller_ends ps k = true → (∀ j, (j < k)%nat → seller_ends ps j = false) →
  (k < fuel)%nat →
  let ids := map Ozon.Product.offer_id (seller_entries ps k) in
  let prices := map price_of (filter (fun row => Код row ∈ ids) rows) in
  let pages := take (S k) (seller_requests client_id seller_token "" ps) in
  let updates := map (OzonImportPrices client_id seller_token)
                     (chunks prices (Z.to_nat n)) in
  accepted w (sent σ ++ pages) updates →
  ∃ σ',
    Seller.upload_prices_by n fuel rows client_id seller_token w σ
    = (Ok prices, σ')
    ∧ sent σ' = sent σ ++ pages ++ updates.
Proof.
  intros Hn Hans Hk Hmin Hfuel ids prices pages updates Hup.
  unfold seller_ends in Hk. destruct (ps !! k) as [p|] eqn:Hp; [|done].
  apply bool_decide_eq_true in Hk.
  unfold Seller.upload_prices_by, Seller.get_offer_ids. rewrite !run_bind.
  rewrite (run_seller_loop client_id seller_token w k ps [] "" σ fuel p);
    try done.
  2:{ intros j q Hj Hq. specialize (Hmin j Hj). unfold seller_ends in Hmin.
      rewrite Hq in Hmin. by apply bool_decide_eq_false in Hmin. }
  unfold new_list. simpl. rewrite run_bind.
  match goal with
  | |- context [Seller.create_prices rows ?l w ?σ1] =>
      rewrite (run_seller_create_prices l rows ids w σ1)
        by (simpl; apply lookup_insert_eq)
  end.
  rewrite run_bind. unfold lift at 1. rewrite (divide_chunks _ n Hn).
  rewrite run_bind. unfold Seller.update_price.
  rewrite (for_each_accepted (OzonImportPrices client_id seller_token) w);
    [|exact Hup].
  eexists. split; [reflexivity|]. simpl. by rewrite <- app_assoc.
Qed.

Lemma upload_prices_every_known_row_witness :
  ∃ prices σ',
    Seller.upload_prices 2 docstring_feed "id" "key" two_pages empty_state
    = (Ok prices, σ')
    ∧ map Ozon.Price.offer_id prices = ["123-ABC"; "456-DEF"]
    ∧ map Ozon.Price.price prices = ["5990"; "10000"].
Proof.
  destruct (upload_prices_every_known_row 1000 2 docstring_feed "id" "key"
              two_pages empty_state two_pages_seller 1)
    as (σ' & Hrun & _).
  - lia.
  - simpl. repeat split.
  - reflexivity.
  - intros [|j] Hj; [reflexivity | lia].
  - lia.
  - split; [reflexivity | exact I].
  - eexists _, σ'. split; [exact Hrun|]. split; reflexivity.
Defined.

Lemma not_empty_stocks_filter (stocks : list Yandex.Stock.t) :
  Forall (fun stock => ∃ item, Yandex.Stock.items stock = [item]) stocks →
  Market.not_empty_stocks stocks
  = Ok (filter (fun stock => yandex_count stock ≠ 0) stocks).
Proof.
  induction 1 as [|stock stocks [item Hitem] _ IH]; simpl; [done|].
  rewrite Hitem, IH. simpl.
  destruct (decide (Yandex.Item.count item ≠ 0)) as [Hnz|Hz].
  - rewrite filter_cons_True; [done|]. unfold yandex_count. by rewrite Hitem.
  - rewrite filter_cons_False; [done|]. unfold yandex_count. by rewrite Hitem.
Qed.

Lemma market_stocks_one_item rows l warehouse_id w σ stocks σ' K :
  heap σ !! l = Some K →
  Market.create_stocks rows l warehouse_id w σ = (Ok stocks, σ') →
  Forall (fun stock => ∃ item, Yandex.Stock.items stock = [item]) stocks.
Proof.
  intros H Hrun. unfold Market.create_stocks, now in Hrun.
  rewrite run_bind in Hrun.
  destruct (create_stocks_with_returns _ _ _ _ _ _ _ _ H Hrun)
    as (m & _ & -> & _).
  apply Forall_app. split; apply Forall_forall; intros stock Hin;
    apply list_elem_of_fmap in Hin as (x & -> & _); by eexists.
Qed.

Lemma market_get_offer_ids_allocates fuel campaign_id market_token w σ l σ' :
  Market.get_offer_ids fuel campaign_id market_token w σ = (Ok l, σ') →
  ∃ K, heap σ' !! l = Some K.
Proof.
  unfold Market.get_offer_ids. intros H.
  apply bind_Ok_inv in H as (products & σ1 & _ & H).
  unfold new_list in H. injection H as <- <-. simpl.
  rewrite lookup_insert_eq. by eexists.
Qed.

(** X16: [market.upload_stocks] puts the reconciled stock list up in the
    batches of [divide], one request after the other.  When the server
    accepts them all, answering each with a 2xx status and a JSON body,
    it returns the list and, before it, the records of the list whose
    count is not zero; reading the count of a record never fails, each
    record holding one item.  When request [k] is the first that the
    server refuses, by a failure of the transport, a status that is not
    2xx or a body that is not JSON, the requests made are those up to
    [k] and the exception of that refusal is what [upload_stocks]
    raises. *)
Theorem market_upload_stocks_batches (n : Z) (fuel : nat) (rows : list Watch)
    (campaign_id market_token warehouse_id : string) (w : World)
    (σ σ0 σ1 : State) (l : loc) (stocks : list Yandex.Stock.t) :
  0 < n →
  Market.get_offer_ids fuel campaign_id market_token w σ = (Ok l, σ0) →
  Market.create_stocks rows l warehouse_id w σ0 = (Ok stocks, σ1) →
  ∃ batches,
    let requests := map (YandexPutStocks campaign_id market_token) batches in
    divide stocks n = Ok batches
    ∧ (accepted w (sent σ1) requests →
       Market.upload_stocks_by n fuel rows campaign_id market_token
                               warehouse_id w σ
       = (Ok (filter (fun stock => yandex_count stock ≠ 0) stocks, stocks),
          add_sent requests σ1))
    ∧ (∀ k request e,
         requests !! k = Some request →
         accepted w (sent σ1) (take k requests) →
         refusal (server w (sent σ1 ++ take k requests) request) = Some e →
         Market.upload_stocks_by n fuel rows campaign_id market_token
                                 warehouse_id w σ
         = (Raise e, add_sent (take (S k) requests) σ1)).
Proof.
  intros Hn Hids Hst. exists (chunks stocks (Z.to_nat n)).
  pose proof (divide_chunks stocks n Hn) as Hdiv.
  destruct (market_get_offer_ids_allocates _ _ _ _ _ _ _ Hids) as [K HK].
  pose proof (market_stocks_one_item _ _ _ _ _ _ _ _ HK Hst) as Hitems.
  split; [done|]. split.
  - intros Hacc. unfold Market.upload_stocks_by.
    rewrite run_bind, Hids. rewrite run_bind, Hst.
    rewrite run_bind. unfold lift at 1. rewrite Hdiv.
    rewrite run_bind. unfold Market.update_stocks.
    rewrite (for_each_accepted (YandexPutStocks campaign_id market_token)
               w _ σ1 Hacc).
    rewrite run_bind. unfold lift.
    by rewrite (not_empty_stocks_filter _ Hitems).
  - intros k request e Hk Hacc Hfail. unfold Market.upload_stocks_by.
    rewrite run_bind, Hids. rewrite run_bind, Hst.
    rewrite run_bind. unfold lift at 1. rewrite Hdiv.
    rewrite run_bind. unfold Market.update_stocks.
    rewrite list_lookup_fmap in Hk.
    apply fmap_Some in Hk as (batch & Hbatch & ->).
    rewrite <- (take_drop_middle _ _ _ Hbatch) at 1.
    rewrite <- fmap_take in Hacc, Hfail.
    rewrite (for_each_refused (YandexPutStocks campaign_id market_token)
               w _ _ _ e σ1 Hacc Hfail).
    do 2 f_equal. rewrite <- fmap_take. f_equal.
    by erewrite take_S_r.
Qed.

Lemma market_upload_stocks_batches_witness :
  (∃ not_empty stocks σ',
     Market.upload_stocks 2 docstring_feed "fbs" "token" "warehouse" two_pages
       empty_state = (Ok (not_empty, stocks), σ')
     ∧ map Yandex.Stock.sku not_empty = ["123-ABC"; "456-DEF"]
     ∧ map Yandex.Stock.sku stocks = ["123-ABC"; "456-DEF"; "456-DEF"]
     ∧ map yandex_count stocks = [5; 100; 0])
  ∧ (∃ σ',
       Market.upload_stocks 2 docstring_feed "fbs" "token" "warehouse"
         updates_not_json empty_state = (Raise JSONDecodeError, σ')
       ∧ length (sent σ') = 3%nat).
Proof.
  split.
  - destruct (Market.get_offer_ids 2 "fbs" "token" two_pages empty_state)
      as [[l|e|] σ0] eqn:Hids; [|vm_compute in Hids; discriminate Hids..].
    destruct (Market.create_stocks docstring_feed l "warehouse" two_pages σ0)
      as [[stocks|e|] σ1] eqn:Hst.
    2,3: vm_compute in Hids; injection Hids as <- <-;
         vm_compute in Hst; discriminate Hst.
    destruct (market_upload_stocks_batches 2000 2 docstring_feed "fbs" "token"
                "warehouse" two_pages empty_state σ0 σ1 l stocks ltac:(lia)
                Hids Hst) as (batches & Hdiv & Hok & _).
    vm_compute in Hids. injection Hids as <- <-.
    vm_compute in Hst. injection Hst as <- <-.
    vm_compute in Hdiv. injection Hdiv as <-.
    eexists _, _, _. split.
    + apply Hok. split; [reflexivity | exact I].
    + split; [reflexivity|]. split; reflexivity.
  - destruct (Market.get_offer_ids 2 "fbs" "token" updates_not_json
                empty_state)
      as [[l|e|] σ0] eqn:Hids; [|vm_compute in Hids; discriminate Hids..].
    destruct (Market.create_stocks docstring_feed l "warehouse"
                updates_not_json σ0)
      as [[stocks|e|] σ1] eqn:Hst.
    2,3: vm_compute in Hids; injection Hids as <- <-;
         vm_compute in Hst; discriminate Hst.
    destruct (market_upload_stocks_batches 2000 2 docstring_feed "fbs" "token"
                "warehouse" updates_not_json empty_state σ0 σ1 l stocks
                ltac:(lia) Hids Hst) as (batches & Hdiv & _ & Hfail).
    vm_compute in Hids. injection Hids as <- <-.
    vm_compute in Hst. injection Hst as <- <-.
    vm_compute in Hdiv. injection Hdiv as <-.
    eexists. split.
    + eapply (Hfail 0%nat _ JSONDecodeError).
      * reflexivity.
      * exact I.
      * reflexivity.
    + reflexivity.
Defined.
